(** * Notepad2: editor state synchronisation and undo/redo

    A shallow embedding of the note editor's [UIManager] (src/uiManager.js),
    [NoteManager] (src/noteManager.js, and the single-note import of
    src/unnamed/part_000) and [StorageManager] (src/storage.js),
    together with the browser services they run on: the DOM regions they read
    and write, [setTimeout]/[clearTimeout], [requestAnimationFrame] and
    [localStorage].  The JavaScript is single threaded; every handler and
    every timer or frame callback runs to completion, so each one is a
    function from worlds to worlds and the event loop is a fold over the
    events the browser delivers. *)

From Stdlib Require Import ZArith Lia Floats DecimalString DecimalNat.
From stdpp Require Import base option list gmap strings.

Open Scope Z_scope.

(** ** JavaScript values *)

(** A JavaScript string is a sequence of UTF-16 code units; [charCodeAt]
    reads one of them. *)
Abbreviation JSString := (list Z).

Definition str (s : string) : JSString :=
  map (fun a => Z.of_N (Ascii.N_of_ascii a)) (String.list_ascii_of_string s).

(** [`${n}`] for a Number that holds a natural number below 10^21: its
    decimal digits. *)
Definition decimal (n : nat) : JSString :=
  str (NilEmpty.string_of_uint (Nat.to_uint n)).

(** [ToInt32] of ECMA-262: the coercion every bitwise operator applies to
    its operands. *)
Definition ToInt32 (x : Z) : Z :=
  let m := x mod 2 ^ 32 in
  if m <? 2 ^ 31 then m else m - 2 ^ 32.

(** [x << n] on Numbers that hold integers. *)
Definition js_shl (x n : Z) : Z :=
  ToInt32 (Z.shiftl (ToInt32 x) (Z.land n 31)).

(** [x & y]. *)
Definition js_and (x y : Z) : Z :=
  Z.land (ToInt32 x) (ToInt32 y).

(** Numbers are IEEE-754 doubles.  Scroll offsets and heights are kept as
    integers (pixel counts); the one place where the program leaves the
    integers is the ratio computed when a region is rescaled, which is
    evaluated here on the kernel's binary64 floats. *)
Definition number_of_Z (z : Z) : float :=
  SF2Prim (binary_normalize prec emax z 0 false).

(** [Math.round]: the nearest integer, ties towards +infinity; NaN and the
    infinities are returned unchanged. *)
Definition Math_round (x : float) : float :=
  match Prim2SF x with
  | S754_finite s m e =>
      let v := if s then Z.neg m else Z.pos m in
      if 0 <=? e then x
      else number_of_Z ((2 * v + 2 ^ (- e)) / 2 ^ (1 - e))
  | _ => x
  end.

(** The integer an element keeps when a Number is assigned to its
    [scrollTop]: a non-finite value is stored as 0, and the values assigned
    by this program are integral.  (The browser also clamps the offset to
    the scrollable range, which depends on the element's client height; the
    model keeps the value as assigned.) *)
Definition Z_of_number (x : float) : Z :=
  match Prim2SF x with
  | S754_finite s m e =>
      let v := if s then Z.neg m else Z.pos m in
      if 0 <=? e then v * 2 ^ e else v / 2 ^ (- e)
  | _ => 0
  end.

(** ** Notes *)

Record Toggle := mkToggle {
  t_id : Z;
  t_title : JSString;
  t_content : JSString;
  t_isOpen : bool
}.

(** [created] and [updated] hold [new Date().toISOString()]; the model keeps
    the clock reading the string is the rendering of. *)
Record Note := mkNote {
  n_id : Z;
  n_title : JSString;
  n_toggles : list Toggle;
  n_created : Z;
  n_updated : Z
}.

#[global] Instance Toggle_eq_dec : EqDecision Toggle.
Proof. solve_decision. Defined.

#[global] Instance Note_eq_dec : EqDecision Note.
Proof. solve_decision. Defined.

Definition set_n_title (v : JSString) (n : Note) : Note :=
  mkNote (n_id n) v (n_toggles n) (n_created n) (n_updated n).

Definition set_n_toggles (v : list Toggle) (n : Note) : Note :=
  mkNote (n_id n) (n_title n) v (n_created n) (n_updated n).

Definition set_n_updated (v : Z) (n : Note) : Note :=
  mkNote (n_id n) (n_title n) (n_toggles n) (n_created n) v.

(** [JSON.stringify(a) !== JSON.stringify(b)] on two notes built with the
    same keys in the same order (one is always a [JSON.parse(JSON.stringify)]
    copy of an earlier state of the other): the serialisations differ exactly
    when some field differs. *)
Definition json_differs (a b : Note) : bool := bool_decide (a <> b).

(** [JSON.parse(JSON.stringify(note))]: a structurally equal value that
    shares nothing with [note].  Values of the model are immutable, so the
    copy is the value itself; every place where the program keeps a
    reference to a live object instead of a copy is pointed out where it
    occurs. *)
Definition deep_copy (n : Note) : Note := n.

(** ** The content hash (uiManager.js, [_hashContent]) *)

Fixpoint hash_loop (content : JSString) (hash : Z) : Z :=
  match content with
  | [] => hash
  | c :: rest =>
      let hash := (js_shl hash 5 - hash) + c in
      let hash := js_and hash hash in
      hash_loop rest hash
  end.

Definition _hashContent (content : JSString) : Z := hash_loop content 0.

(** The hash as a formula: Horner evaluation at 31 of the code units. *)
Definition rolling31 (content : JSString) : Z :=
  fold_left (fun h c => 31 * h + c) content 0.

(** ** Storage (storage.js) *)

(** [localStorage]: the stored items, the number of [setItem] calls made so
    far, and which of the calls raise: [setItem_throws k] says that call
    number [k], counted from 0, raises an exception (as it does when the
    quota is exceeded), in which case nothing is stored.  An item holds
    [JSON.stringify] of a list of notes; the model keeps the list. *)
Record Storage := mkStorage {
  items : gmap string (list Note);
  setItemCalls : nat;
  setItem_throws : nat -> bool
}.

(** One more [setItem] call has been made. *)
Definition called (ls : Storage) : Storage :=
  mkStorage (items ls) (S (setItemCalls ls)) (setItem_throws ls).

(** The next [setItem] call stores what it is given. *)
Definition accepting (ls : Storage) : Prop :=
  setItem_throws ls (setItemCalls ls) = false.

(** No [setItem] call ever raises. *)
Definition reliable (ls : Storage) : Prop :=
  forall k, setItem_throws ls k = false.

(** A storage that holds nothing yet and stores whatever it is given, and
    one that holds nothing and is full. *)
Definition empty_storage : Storage := mkStorage ∅ 0 (fun _ => false).

Definition full_storage : Storage := mkStorage ∅ 0 (fun _ => true).

Module StorageManager.

Definition getAppNamespace : string := "app1".

(** [save(key, data)]: the try block and its catch. *)
Definition save (key : string) (data : list Note) (ls : Storage)
  : bool * Storage :=
  let namespacedKey := (getAppNamespace +:+ "_" +:+ key)%string in
  if setItem_throws ls (setItemCalls ls) then
    (false, called ls)                                   (* catch *)
  else
    (true,
     mkStorage (<[namespacedKey := data]> (items ls)) (S (setItemCalls ls))
       (setItem_throws ls)).

Definition load (key : string) (defaultValue : list Note) (ls : Storage)
  : list Note :=
  let namespacedKey := (getAppNamespace +:+ "_" +:+ key)%string in
  match items ls !! namespacedKey with
  | Some data => data
  | None => defaultValue
  end.

End StorageManager.

(** ** The note list (noteManager.js) *)

Module NoteManager.

(** [notes.findIndex(n => n.id === id)]; [None] stands for -1. *)
Fixpoint findIndex (id : Z) (notes : list Note) : option nat :=
  match notes with
  | [] => None
  | n :: rest =>
      if decide (n_id n = id) then Some 0%nat
      else option_map S (findIndex id rest)
  end.

Definition saveNotes (notes : list Note) (ls : Storage) : Storage :=
  snd (StorageManager.save "notes" notes ls).

(** [updateNote(note)] at clock reading [now].  The caller's object is
    mutated ([note.updated = ...]), so it is returned next to the new list
    and the new storage. *)
Definition updateNote (now : Z) (note : Note) (notes : list Note) (ls : Storage)
  : Note * list Note * Storage :=
  let note := set_n_updated now note in
  match findIndex (n_id note) notes with
  | Some index =>
      let notes := <[index := deep_copy note]> notes in
      (note, notes, saveNotes notes ls)
  | None => (note, notes, ls)
  end.

(** The constructor: [this.notes = StorageManager.load('notes', [])]. *)
Definition constructor (ls : Storage) : list Note :=
  StorageManager.load "notes" [] ls.

(** [createNote()].  The method reads the clock six times: once for the id
    of each of the three toggles, once for the id of the note, and once each
    for [created] and [updated]; [reading k] is what the [k]-th read
    returns.  The new note goes to the front of the list ([unshift]) and is
    returned. *)
Definition createNote (reading : nat -> Z) (notes : list Note) (ls : Storage)
  : Note * list Note * Storage :=
  let initialToggles :=
    (fun i : nat =>
       mkToggle (reading i + Z.of_nat i)
         (str "Section " ++ decimal (i + 1)) [] (bool_decide (i = 0%nat)))
    <$> seq 0 3 in
  let note := mkNote (reading 3%nat) [] initialToggles (reading 4%nat) (reading 5%nat) in
  let notes := note :: notes in
  (note, notes, saveNotes notes ls).

(** [deleteNote(noteId)]. *)
Definition deleteNote (noteId : Z) (notes : list Note) (ls : Storage)
  : list Note * Storage :=
  let notes := filter (fun note => n_id note <> noteId) notes in
  (notes, saveNotes notes ls).

(** [s.includes(term)]: [term] occurs in [s] as a run of code units. *)
Fixpoint includes (s term : JSString) : bool :=
  bool_decide (term `prefix_of` s)
  || match s with
     | [] => false
     | _ :: rest => includes rest term
     end.

(** [term] occurs in [s]. *)
Definition occurs_in (term s : JSString) : Prop :=
  exists before after, s = before ++ term ++ after.

(** [getNotes(searchTerm = '')] on notes such as the editor makes, whose
    titles and contents are strings.  [toLowerCase] is the browser's
    [String.prototype.toLowerCase]; the search term is used as passed.
    (A list that has taken imported notes can hold anything under these
    keys; [NoteImport.getNotes] below is the method on such a list, with the
    TypeError it then raises, and [getNotes_of_strings] shows that on notes
    of strings the two return the same notes.) *)
Definition getNotes (toLowerCase : JSString -> JSString) (searchTerm : JSString)
    (notes : list Note) : list Note :=
  filter
    (fun note =>
       let titleMatch := includes (toLowerCase (n_title note)) searchTerm in
       let contentMatch :=
         existsb
           (fun toggle =>
              includes (toLowerCase (t_title toggle)) searchTerm
              || includes (toLowerCase (t_content toggle)) searchTerm)
           (n_toggles note) in
       titleMatch || contentMatch = true)
    notes.

End NoteManager.

(** What [saveNotes] leaves of a list in the storage: one more [setItem]
    call; the list, when the call stored it; the items there were, when it
    raised. *)
Definition saved (notes : list Note) (ls ls' : Storage) : Prop :=
  setItemCalls ls' = S (setItemCalls ls)
  /\ setItem_throws ls' = setItem_throws ls
  /\ (accepting ls -> NoteManager.constructor ls' = notes)
  /\ (~ accepting ls -> items ls' = items ls).

(** ** The undo/redo history (history.js) *)

Module HistoryManager.

(** Modelled from the spec: [HistoryManager] is imported by uiManager.js
    from history.js, which is not among the sources.  Spec section 4.2: the
    state is an undo stack and a redo stack of snapshots (top = most
    recently pushed, here the head of the list); the [onChange] callback
    receives [{canUndo, canRedo}] after every mutating call, and the model
    records what it was called with, latest first. *)
Record t := mk {
  undoStack : list Note;
  redoStack : list Note;
  notified : list (bool * bool)
}.

Definition canUndo (h : t) : bool := negb (bool_decide (undoStack h = [])).
Definition canRedo (h : t) : bool := negb (bool_decide (redoStack h = [])).

Definition notify (h : t) : t :=
  mk (undoStack h) (redoStack h) ((canUndo h, canRedo h) :: notified h).

(** Modelled from the spec: [push] puts the snapshot on top of the undo
    stack and clears the redo stack. *)
Definition push (snapshot : Note) (h : t) : t :=
  notify (mk (snapshot :: undoStack h) [] (notified h)).

(** Modelled from the spec: [undo] on an empty undo stack returns null and
    changes nothing; otherwise it pops the top snapshot, pushes
    [currentState] on the redo stack and returns the popped snapshot. *)
Definition undo (currentState : Note) (h : t) : option Note * t :=
  match undoStack h with
  | [] => (None, h)
  | prev :: rest =>
      (Some prev, notify (mk rest (currentState :: redoStack h) (notified h)))
  end.

(** Modelled from the spec: [redo], symmetric to [undo]. *)
Definition redo (currentState : Note) (h : t) : option Note * t :=
  match redoStack h with
  | [] => (None, h)
  | next :: rest =>
      (Some next, notify (mk (currentState :: undoStack h) rest (notified h)))
  end.

(** Modelled from the spec: [clear] empties both stacks. *)
Definition clear (h : t) : t := notify (mk [] [] (notified h)).

End HistoryManager.


(** ** The browser: regions, callbacks, timers *)

(** A rendered [<textarea data-toggle-id=...>].  [ta_node] is the identity
    of the element: [renderEditor] destroys every region and creates new
    ones, and a closure that kept a reference to an element keeps naming
    that element, whether it is still in the document or not. *)
Record Textarea := mkTextarea {
  ta_node : nat;
  ta_toggleId : Z;
  value : JSString;
  scrollTop : Z;
  scrollHeight : Z
}.

Definition set_scrollTop (v : Z) (ta : Textarea) : Textarea :=
  mkTextarea (ta_node ta) (ta_toggleId ta) (value ta) v (scrollHeight ta).

Definition set_value (v : JSString) (ta : Textarea) : Textarea :=
  mkTextarea (ta_node ta) (ta_toggleId ta) v (scrollTop ta) (scrollHeight ta).

(** The per-region state [_handleToggleSection] captures before it mutates
    the note. *)
Record ScrollState := mkScrollState {
  ss_scrollTop : Z;
  ss_scrollHeight : Z;
  ss_content : JSString;
  ss_contentHash : Z
}.

(** A JavaScript [Map] keyed by toggle id: [set] replaces the value of a key
    that is present and keeps its place, and appends a new key; [forEach]
    visits the entries in that order. *)
Fixpoint map_set (id : Z) (state : ScrollState) (m : list (Z * ScrollState))
  : list (Z * ScrollState) :=
  match m with
  | [] => [(id, state)]
  | (k, v) :: rest =>
      if decide (k = id) then (k, state) :: rest
      else (k, v) :: map_set id state rest
  end.

Fixpoint map_get (id : Z) (m : list (Z * ScrollState)) : option ScrollState :=
  match m with
  | [] => None
  | (k, v) :: rest => if decide (k = id) then Some v else map_get id rest
  end.

(** What the closures created by one run of [_handleToggleSection] share:
    the constants [editorScrollTop], [scrollPositions], [toggleId] and
    [toggleScrollState], and the object [toggle].  The closures read
    [toggle.isOpen] when they run; the only assignment to an [isOpen] in the
    program is the flip in [_handleToggleSection], which cannot run again
    while the reentrancy guard these closures release is held, so the
    closure keeps the value the flip wrote.  ([editorContent], the element
    found before the render, is the static [.editor-content] container: the
    render replaces only the regions inside it.) *)
Record RestoreClosure := mkRestoreClosure {
  cl_editorScrollTop : Z;
  cl_scrollPositions : list (Z * ScrollState);
  cl_toggleId : Z;
  cl_toggle_isOpen : bool;
  cl_toggleScrollState : option ScrollState
}.

(** The closures the program hands to [setTimeout] and
    [requestAnimationFrame]. *)
Inductive Callback :=
| AutoSaveCb (previousState : Note)
    (* handleNoteChange: the 500 ms commit *)
| ToggleDebounceCb (toggleId : Z)
    (* toggleSection: the 50 ms debounce *)
| RestoreFrameCb (cl : RestoreClosure)
    (* _handleToggleSection: restoration pass 1, next frame *)
| TargetRestoreCb (node : nat) (state : ScrollState)
    (* pass 1: the deferred write to the toggled region, one frame later *)
| FinalCheckCb (cl : RestoreClosure).
    (* pass 1: restoration pass 2, after 100 ms *)

Record Timer := mkTimer {
  tm_handle : positive;
  tm_due : Z;
  tm_callback : Callback
}.

(** Where the program's try blocks may be left by an exception. *)
Inductive Phase := PhCapture | PhPass1 | PhPass2.

(** ** The world: the [UIManager] object and the browser around it *)

Record World := mkWorld {
  (* UIManager *)
  currentNote : option Note;
  autoSaveTimeout : option positive;
  isRestoring : bool;
  toggleDebounce : option positive;
  scrollRestoreTimeout : option positive;
  history : HistoryManager.t;
  (* NoteManager *)
  notes : list Note;
  (* document *)
  editorContent : option Z;      (* scrollTop of .editor-content, if present *)
  textareas : list Textarea;     (* in document order *)
  nextNode : nat;
  (* window *)
  localStorage : Storage;
  clock : Z;                     (* milliseconds *)
  timers : list Timer;           (* pending timeouts, oldest first *)
  frames : list Callback;        (* callbacks awaiting the next frame *)
  nextHandle : positive;
  (* bookkeeping of the model: how often the toggle list was rendered *)
  renders : nat
}.

Definition set_currentNote v (w : World) : World :=
  mkWorld v (autoSaveTimeout w) (isRestoring w) (toggleDebounce w)
    (scrollRestoreTimeout w) (history w) (notes w) (editorContent w)
    (textareas w) (nextNode w) (localStorage w) (clock w) (timers w)
    (frames w) (nextHandle w) (renders w).

Definition set_autoSaveTimeout v (w : World) : World :=
  mkWorld (currentNote w) v (isRestoring w) (toggleDebounce w)
    (scrollRestoreTimeout w) (history w) (notes w) (editorContent w)
    (textareas w) (nextNode w) (localStorage w) (clock w) (timers w)
    (frames w) (nextHandle w) (renders w).

Definition set_isRestoring v (w : World) : World :=
  mkWorld (currentNote w) (autoSaveTimeout w) v (toggleDebounce w)
    (scrollRestoreTimeout w) (history w) (notes w) (editorContent w)
    (textareas w) (nextNode w) (localStorage w) (clock w) (timers w)
    (frames w) (nextHandle w) (renders w).

Definition set_toggleDebounce v (w : World) : World :=
  mkWorld (currentNote w) (autoSaveTimeout w) (isRestoring w) v
    (scrollRestoreTimeout w) (history w) (notes w) (editorContent w)
    (textareas w) (nextNode w) (localStorage w) (clock w) (timers w)
    (frames w) (nextHandle w) (renders w).

Definition set_scrollRestoreTimeout v (w : World) : World :=
  mkWorld (currentNote w) (autoSaveTimeout w) (isRestoring w) (toggleDebounce w)
    v (history w) (notes w) (editorContent w)
    (textareas w) (nextNode w) (localStorage w) (clock w) (timers w)
    (frames w) (nextHandle w) (renders w).

Definition set_history v (w : World) : World :=
  mkWorld (currentNote w) (autoSaveTimeout w) (isRestoring w) (toggleDebounce w)
    (scrollRestoreTimeout w) v (notes w) (editorContent w)
    (textareas w) (nextNode w) (localStorage w) (clock w) (timers w)
    (frames w) (nextHandle w) (renders w).

Definition set_notes v (w : World) : World :=
  mkWorld (currentNote w) (autoSaveTimeout w) (isRestoring w) (toggleDebounce w)
    (scrollRestoreTimeout w) (history w) v (editorContent w)
    (textareas w) (nextNode w) (localStorage w) (clock w) (timers w)
    (frames w) (nextHandle w) (renders w).

Definition set_editorContent v (w : World) : World :=
  mkWorld (currentNote w) (autoSaveTimeout w) (isRestoring w) (toggleDebounce w)
    (scrollRestoreTimeout w) (history w) (notes w) v
    (textareas w) (nextNode w) (localStorage w) (clock w) (timers w)
    (frames w) (nextHandle w) (renders w).

Definition set_textareas v (w : World) : World :=
  mkWorld (currentNote w) (autoSaveTimeout w) (isRestoring w) (toggleDebounce w)
    (scrollRestoreTimeout w) (history w) (notes w) (editorContent w)
    v (nextNode w) (localStorage w) (clock w) (timers w)
    (frames w) (nextHandle w) (renders w).

Definition set_nextNode v (w : World) : World :=
  mkWorld (currentNote w) (autoSaveTimeout w) (isRestoring w) (toggleDebounce w)
    (scrollRestoreTimeout w) (history w) (notes w) (editorContent w)
    (textareas w) v (localStorage w) (clock w) (timers w)
    (frames w) (nextHandle w) (renders w).

Definition set_localStorage v (w : World) : World :=
  mkWorld (currentNote w) (autoSaveTimeout w) (isRestoring w) (toggleDebounce w)
    (scrollRestoreTimeout w) (history w) (notes w) (editorContent w)
    (textareas w) (nextNode w) v (clock w) (timers w)
    (frames w) (nextHandle w) (renders w).

Definition set_clock v (w : World) : World :=
  mkWorld (currentNote w) (autoSaveTimeout w) (isRestoring w) (toggleDebounce w)
    (scrollRestoreTimeout w) (history w) (notes w) (editorContent w)
    (textareas w) (nextNode w) (localStorage w) v (timers w)
    (frames w) (nextHandle w) (renders w).

Definition set_timers v (w : World) : World :=
  mkWorld (currentNote w) (autoSaveTimeout w) (isRestoring w) (toggleDebounce w)
    (scrollRestoreTimeout w) (history w) (notes w) (editorContent w)
    (textareas w) (nextNode w) (localStorage w) (clock w) v
    (frames w) (nextHandle w) (renders w).

Definition set_frames v (w : World) : World :=
  mkWorld (currentNote w) (autoSaveTimeout w) (isRestoring w) (toggleDebounce w)
    (scrollRestoreTimeout w) (history w) (notes w) (editorContent w)
    (textareas w) (nextNode w) (localStorage w) (clock w) (timers w)
    v (nextHandle w) (renders w).

Definition set_nextHandle v (w : World) : World :=
  mkWorld (currentNote w) (autoSaveTimeout w) (isRestoring w) (toggleDebounce w)
    (scrollRestoreTimeout w) (history w) (notes w) (editorContent w)
    (textareas w) (nextNode w) (localStorage w) (clock w) (timers w)
    (frames w) v (renders w).

Definition set_renders v (w : World) : World :=
  mkWorld (currentNote w) (autoSaveTimeout w) (isRestoring w) (toggleDebounce w)
    (scrollRestoreTimeout w) (history w) (notes w) (editorContent w)
    (textareas w) (nextNode w) (localStorage w) (clock w) (timers w)
    (frames w) (nextHandle w) v.

(** Equations between worlds: the field updates are evaluated innermost
    first, so that no update is copied into every field of the next. *)
Ltac unfold_world :=
  cbv beta iota zeta delta
    [set_currentNote set_autoSaveTimeout set_isRestoring set_toggleDebounce
     set_scrollRestoreTimeout set_history set_notes set_editorContent
     set_textareas set_nextNode set_localStorage set_clock set_timers
     set_frames set_nextHandle set_renders
     currentNote autoSaveTimeout isRestoring toggleDebounce
     scrollRestoreTimeout history notes editorContent textareas nextNode
     localStorage clock timers frames nextHandle renders] in *.

Ltac world_eq :=
  unfold_world; simpl in *; subst; try reflexivity;
  f_equal; try reflexivity; try lia.

(** The outcome of a block of statements: it ran to its end, or an exception
    left it; either way the effects made so far stay. *)
Inductive Completion :=
| Normal (w : World)
| Throw (w : World).

(** *** Timers and frames *)

Definition setTimeout (cb : Callback) (delay : Z) (w : World) : positive * World :=
  let handle := nextHandle w in
  (handle,
   set_nextHandle (Pos.succ handle)
     (set_timers (timers w ++ [mkTimer handle (clock w + delay) cb]) w)).

(** Clearing a handle that is no longer pending does nothing. *)
Definition clearTimeout (handle : positive) (w : World) : World :=
  set_timers (filter (fun t => tm_handle t <> handle) (timers w)) w.

Definition requestAnimationFrame (cb : Callback) (w : World) : World :=
  set_frames (frames w ++ [cb]) w.

(** *** Regions *)

(** [document.querySelector('textarea[data-toggle-id=id]')]: the first such
    region in document order, with its position. *)
Definition querySelector (id : Z) (w : World) : option (nat * Textarea) :=
  list_find (fun ta => ta_toggleId ta = id) (textareas w).

(** The element a closure kept a reference to, if it is still in the
    document. *)
Definition attached (node : nat) (w : World) : option (nat * Textarea) :=
  list_find (fun ta => ta_node ta = node) (textareas w).

(** [textarea.scrollTop = v] for the region at position [i]. *)
Definition write_scrollTop (i : nat) (v : Z) (w : World) : World :=
  set_textareas (alter (set_scrollTop v) i (textareas w)) w.

(** The right-hand side both branches of the restore assign:
    [Math.round(state.scrollTop * (textarea.scrollHeight / state.scrollHeight))]
    when the height changed, [state.scrollTop] otherwise. *)
Definition restored_scrollTop (state : ScrollState) (textarea : Textarea) : Z :=
  if decide (ss_scrollHeight state <> scrollHeight textarea) then
    let ratio :=
      PrimFloat.div (number_of_Z (scrollHeight textarea))
                    (number_of_Z (ss_scrollHeight state)) in
    Z_of_number (Math_round (PrimFloat.mul (number_of_Z (ss_scrollTop state)) ratio))
  else ss_scrollTop state.

(** [_captureToggleState]'s object literal, as [_handleToggleSection]
    builds it inline. *)
Definition capture_state (textarea : Textarea) : ScrollState :=
  mkScrollState (scrollTop textarea) (scrollHeight textarea) (value textarea)
    (_hashContent (value textarea)).

(** [_resetScrollPositions]: the container, if there is one, and every
    textarea of the document go to 0. *)
Definition _resetScrollPositions (w : World) : World :=
  let w :=
    match editorContent w with
    | Some _ => set_editorContent (Some 0) w
    | None => w
    end in
  set_textareas (map (set_scrollTop 0) (textareas w)) w.

(** *** The note of the editor *)

(** [this.noteManager.updateNote(note)]. *)
Definition noteManager_updateNote (note : Note) (w : World) : Note * World :=
  let '(note, notes', ls') :=
    NoteManager.updateNote (clock w) note (notes w) (localStorage w) in
  (note, set_localStorage ls' (set_notes notes' w)).

(** [this.noteManager.updateNote(this.currentNote)]: the live note is the
    object whose [updated] field is assigned. *)
Definition updateNote_current (w : World) : World :=
  match currentNote w with
  | Some note =>
      let '(note, w) := noteManager_updateNote note w in
      set_currentNote (Some note) w
  | None => w
  end.

Definition history_push (snapshot : Note) (w : World) : World :=
  set_history (HistoryManager.push snapshot (history w)) w.

(** [toggles.find(t => t.id === id)], with the position of the toggle found:
    the program then assigns to a field of that object. *)
Definition find_toggle (id : Z) (note : Note) : option (nat * Toggle) :=
  list_find (fun t => t_id t = id) (n_toggles note).

Definition set_t_content (v : JSString) (t : Toggle) : Toggle :=
  mkToggle (t_id t) (t_title t) v (t_isOpen t).

Definition flip_isOpen (t : Toggle) : Toggle :=
  mkToggle (t_id t) (t_title t) (t_content t) (negb (t_isOpen t)).

(** The element an input event comes from. *)
Inductive EventTarget := NoteTitle | OtherElement.

(** [handleNoteChange(e)], the input listener of the note title; [v] is
    [e.target.value]. *)
Definition handleNoteChange (target : EventTarget) (v : JSString) (w : World)
  : World :=
  match currentNote w with
  | None => w
  | Some note =>
      let w :=
        match autoSaveTimeout w with
        | Some handle => clearTimeout handle w
        | None => w
        end in
      let previousState := deep_copy note in
      let note :=
        match target with
        | NoteTitle => set_n_title v note
        | OtherElement => note
        end in
      let w := set_currentNote (Some note) w in
      let '(handle, w) := setTimeout (AutoSaveCb previousState) 500 w in
      set_autoSaveTimeout (Some handle) w
  end.

(** The closure [handleNoteChange] arms.  With no note open the comparison
    still finds a difference, the snapshot is pushed, and [updateNote(null)]
    raises; nothing catches it and the callback ends there. *)
Definition autoSave (previousState : Note) (w : World) : World :=
  match currentNote w with
  | Some note =>
      if json_differs previousState note then
        updateNote_current (history_push previousState w)
      else w
  | None => history_push previousState w
  end.

(** [updateToggleContent(toggleId, newContent)], called by the input
    listener of every textarea. *)
Definition updateToggleContent (toggleId : Z) (newContent : JSString) (w : World)
  : World :=
  match currentNote w with
  | None => w
  | Some note =>
      let previousState := deep_copy note in
      match find_toggle toggleId note with
      | Some (i, _) =>
          let note :=
            set_n_toggles (alter (set_t_content newContent) i (n_toggles note)) note in
          let w := set_currentNote (Some note) w in
          updateNote_current (history_push previousState w)
      | None => w
      end
  end.

(** [toggleSection(toggleId)], called by the click listener of a toggle
    header. *)
Definition toggleSection (toggleId : Z) (w : World) : World :=
  match currentNote w with
  | None => w
  | Some _ =>
      let w :=
        match toggleDebounce w with
        | Some handle => set_toggleDebounce None (clearTimeout handle w)
        | None => w
        end in
      let w :=
        match scrollRestoreTimeout w with
        | Some handle => set_scrollRestoreTimeout None (clearTimeout handle w)
        | None => w
        end in
      let '(handle, w) := setTimeout (ToggleDebounceCb toggleId) 50 w in
      set_toggleDebounce (Some handle) w
  end.

(** [updateToggleTitle(toggleId, newTitle)], called by the input listener
    of every toggle title. *)
Definition set_t_title (v : JSString) (t : Toggle) : Toggle :=
  mkToggle (t_id t) v (t_content t) (t_isOpen t).

Definition updateToggleTitle (toggleId : Z) (newTitle : JSString) (w : World)
  : World :=
  match currentNote w with
  | None => w
  | Some note =>
      let previousState := deep_copy note in
      match find_toggle toggleId note with
      | Some (i, _) =>
          let note :=
            set_n_toggles (alter (set_t_title newTitle) i (n_toggles note)) note in
          let w := set_currentNote (Some note) w in
          updateNote_current (history_push previousState w)
      | None => w
      end
  end.

(** ** Text written into the page *)

(** [a || b] on strings: the empty string is the falsy one. *)
Definition or_else (a b : JSString) : JSString :=
  match a with
  | [] => b
  | _ => a
  end.

(** [escapeHtml(unsafe)]: the text is assigned to [textContent] of a new
    element and read back as [innerHTML], which serialises a text node by
    escaping the ampersand, the no-break space and the two angle brackets,
    and nothing else. *)
Definition escape_unit (c : Z) : JSString :=
  if decide (c = 38) then str "&amp;"
  else if decide (c = 160) then str "&nbsp;"
  else if decide (c = 60) then str "&lt;"
  else if decide (c = 62) then str "&gt;"
  else [c].

Definition escapeHtml (unsafe : JSString) : JSString :=
  match unsafe with
  | [] => []                               (* if (!unsafe) return '' *)
  | _ => unsafe ≫= escape_unit
  end.

(** [parts.join(sep)]. *)
Fixpoint join (sep : JSString) (parts : list JSString) : JSString :=
  match parts with
  | [] => []
  | [part] => part
  | part :: rest => part ++ sep ++ join sep rest
  end.

(** [String(x)] for a Number that holds the integer [x], as an assignment
    to a [data-] attribute makes it.  Of an integer of magnitude up to 2^53
    every digit is printed: the string is the decimal numeral, after a minus
    sign for a negative one.  Of a larger one the digits printed are the
    fewest that denote the same double, and from 10^21 on the notation has
    an exponent; [large] is the browser's conversion there. *)
Definition integer_toString (large : Z -> JSString) (x : Z) : JSString :=
  if Z.abs x <=? 2 ^ 53 then
    (if x <? 0 then str "-" else []) ++ decimal (Z.abs_nat x)
  else large x.

(** The white space and the line terminators [parseInt] skips. *)
Definition is_white_space (c : Z) : bool :=
  bool_decide
    (c ∈ [9; 10; 11; 12; 13; 32; 160; 5760; 8192; 8193; 8194; 8195; 8196; 8197;
          8198; 8199; 8200; 8201; 8202; 8232; 8233; 8239; 8287; 12288; 65279]).

Fixpoint skip_white_space (s : JSString) : JSString :=
  match s with
  | c :: rest => if is_white_space c then skip_white_space rest else s
  | [] => []
  end.

(** The value of a code unit as a digit of the radix, if it is one. *)
Definition digit_value (radix : Z) (c : Z) : option Z :=
  let value :=
    if (48 <=? c) && (c <=? 57) then Some (c - 48)
    else if (97 <=? c) && (c <=? 122) then Some (c - 87)
    else if (65 <=? c) && (c <=? 90) then Some (c - 55)
    else None in
  match value with
  | Some d => if d <? radix then Some d else None
  | None => None
  end.

(** The integer the longest run of digits at the front of [s] denotes;
    [acc] is what the digits read so far denote, [None] before the first. *)
Fixpoint parse_digits (radix : Z) (s : JSString) (acc : option Z) : option Z :=
  match s with
  | [] => acc
  | c :: rest =>
      match digit_value radix c with
      | Some d => parse_digits radix rest (Some (radix * default 0 acc + d))
      | None => acc
      end
  end.

(** The Number nearest to an integer, when it is finite.  An integer of
    magnitude up to 2^53 is a Number. *)
Definition nearest_Number (z : Z) : option Z :=
  if Z.abs z <=? 2 ^ 53 then Some z
  else
    let x := number_of_Z z in
    if PrimFloat.is_infinity x then None else Some (Z_of_number x).

(** [parseInt(s)], with no radix: leading white space is skipped, then a
    sign, then 0x or 0X, which makes the radix 16; the digits that follow
    are read up to the first code unit that is none, and the result is the
    Number nearest to the integer they denote (of a numeral of more than 20
    digits ECMA-262 lets an engine read the first 20 only).  [None] when the
    result is NaN (no digit was read) or an infinity: neither is equal to an
    integer. *)
Definition strip_sign (s : JSString) : Z * JSString :=
  match s with
  | c :: rest =>
      if decide (c = 45) then (-1, rest)             (* - *)
      else if decide (c = 43) then (1, rest)         (* + *)
      else (1, s)
  | [] => (1, s)
  end.

Definition strip_prefix (s : JSString) : Z * JSString :=
  match s with
  | c :: x :: rest =>
      if decide (c = 48 /\ (x = 120 \/ x = 88)) then (16, rest)   (* 0x, 0X *)
      else (10, s)
  | _ => (10, s)
  end.

Definition parseInt (s : JSString) : option Z :=
  let '(sign, s) := strip_sign (skip_white_space s) in
  let '(radix, s) := strip_prefix s in
  mathInt ← parse_digits radix s None;
  number ← nearest_Number mathInt;
  Some (sign * number).

(** A card of the note list, as [createNoteCardElement] writes it: the
    Number assigned to [dataset.noteId] and the markup of the title and of
    the content preview.  The attribute holds the Number as a string,
    [dataset_noteId] below.  (The card also shows [updated] as the browser's
    locale prints a date.) *)
Record Card := mkCard {
  card_noteId : Z;
  card_title : JSString;
  card_content : JSString
}.

Definition createNoteCardElement (note : Note) : Card :=
  let title := or_else (escapeHtml (n_title note)) (str "Untitled Note") in
  let content :=
    or_else
      (escapeHtml (take 150 (join (str " ") (t_content <$> n_toggles note))))
      (str "No content") in
  mkCard (n_id note) title content.

(** [card.dataset.noteId]. *)
Definition dataset_noteId (large : Z -> JSString) (card : Card) : JSString :=
  integer_toString large (card_noteId card).

(** The file name [handleExportCurrentNote] gives the download:
    [(title || 'Untitled Note').replace(/[^a-z0-9]/gi, '_').toLowerCase()]
    followed by [.json].  The pattern has no [u] flag, so it is matched
    against single code units, and with the [i] flag it spares exactly the
    ASCII letters and digits; what [toLowerCase] then gets is ASCII. *)
Definition alphanumeric (c : Z) : bool :=
  (48 <=? c) && (c <=? 57) || (65 <=? c) && (c <=? 90) || (97 <=? c) && (c <=? 122).

Definition replace_unit (c : Z) : Z := if alphanumeric c then c else 95.

Definition lower_unit (c : Z) : Z :=
  if (65 <=? c) && (c <=? 90) then c + 32 else c.

Definition exportFileName (title : JSString) : JSString :=
  let fileName :=
    lower_unit <$> (replace_unit <$> or_else title (str "Untitled Note")) in
  fileName ++ str ".json".

(** ** The editor's view state *)

(** What [saveEditorState] and [saveEditorStateToStorage] keep of a region.
    (Both also store [selectionStart] and [selectionEnd], the first also
    [isFocused]; the program never reads these back.) *)
Record SavedToggleState := mkSavedToggleState {
  st_id : Z;
  st_scrollTop : Z;
  st_scrollHeight : Z
}.

(** The entry [saveEditorStateToStorage] writes for a note. *)
Record SessionViewState := mkSessionViewState {
  sv_toggleStates : list SavedToggleState;
  sv_editorScrollTop : Z;
  sv_lastActiveToggleId : option Z;
  sv_timestamp : Z
}.

(** The closures of [restoreEditorState] and [loadEditorStateFromStorage].
    Those of [restoreEditorState] read [this.savedToggleStates] and
    [this.lastKnownScrollPosition] when they run; those of
    [loadEditorStateFromStorage] hold the entry that was loaded. *)
Inductive UICallback :=
| RestoreStateFrameCb
    (* restoreEditorState: the next frame *)
| RestoreStateCheckCb
    (* restoreEditorState: 50 ms after that frame *)
| LoadStateFrameCb (savedState : SessionViewState)
    (* loadEditorStateFromStorage: the next frame *)
| LoadStateCheckCb (savedState : SessionViewState).
    (* loadEditorStateFromStorage: 50 ms after that frame *)

Record UITimer := mkUITimer {
  ut_handle : positive;
  ut_due : Z;
  ut_callback : UICallback
}.

(** The [UIManager] with the fields and the parts of the page that undo and
    redo, new toggles, and opening and closing the editor use on top of
    those of [World].  [editorStates] is the item of [localStorage] under
    app1_editor-states ([None] when there is none): an object keyed by note
    id, kept here beside [localStorage w], whose items are lists of notes;
    it is written by a [setItem] call of [localStorage w] like these.
    [notesList] holds the cards of the list view; the empty list stands for
    the paragraph that says no notes were found.  The callbacks requested by
    the functions below are recorded in [ui_frames] and [ui_timers].
    Showing and hiding the editor is taken to leave the offsets of its
    elements as they are; nothing below reads an offset of a hidden
    element and uses it. *)
Record UI := mkUI {
  world : World;
  savedToggleStates : option (list SavedToggleState);
  lastKnownScrollPosition : Z;
  lastActiveToggleId : option Z;
  noteTitle_value : JSString;
  editor_hidden : bool;
  listView_hidden : bool;
  notesList : list Card;
  editorStates : option (gmap Z SessionViewState);
  ui_frames : list UICallback;
  ui_timers : list UITimer
}.

Definition set_world v (u : UI) : UI :=
  mkUI v (savedToggleStates u) (lastKnownScrollPosition u)
    (lastActiveToggleId u) (noteTitle_value u) (editor_hidden u)
    (listView_hidden u) (notesList u) (editorStates u) (ui_frames u)
    (ui_timers u).

Definition set_savedToggleStates v (u : UI) : UI :=
  mkUI (world u) v (lastKnownScrollPosition u) (lastActiveToggleId u)
    (noteTitle_value u) (editor_hidden u) (listView_hidden u) (notesList u)
    (editorStates u) (ui_frames u) (ui_timers u).

Definition set_lastKnownScrollPosition v (u : UI) : UI :=
  mkUI (world u) (savedToggleStates u) v (lastActiveToggleId u)
    (noteTitle_value u) (editor_hidden u) (listView_hidden u) (notesList u)
    (editorStates u) (ui_frames u) (ui_timers u).

Definition set_lastActiveToggleId v (u : UI) : UI :=
  mkUI (world u) (savedToggleStates u) (lastKnownScrollPosition u) v
    (noteTitle_value u) (editor_hidden u) (listView_hidden u) (notesList u)
    (editorStates u) (ui_frames u) (ui_timers u).

Definition set_noteTitle_value v (u : UI) : UI :=
  mkUI (world u) (savedToggleStates u) (lastKnownScrollPosition u)
    (lastActiveToggleId u) v (editor_hidden u) (listView_hidden u)
    (notesList u) (editorStates u) (ui_frames u) (ui_timers u).

Definition set_editor_hidden v (u : UI) : UI :=
  mkUI (world u) (savedToggleStates u) (lastKnownScrollPosition u)
    (lastActiveToggleId u) (noteTitle_value u) v (listView_hidden u)
    (notesList u) (editorStates u) (ui_frames u) (ui_timers u).

Definition set_listView_hidden v (u : UI) : UI :=
  mkUI (world u) (savedToggleStates u) (lastKnownScrollPosition u)
    (lastActiveToggleId u) (noteTitle_value u) (editor_hidden u) v
    (notesList u) (editorStates u) (ui_frames u) (ui_timers u).

Definition set_notesList v (u : UI) : UI :=
  mkUI (world u) (savedToggleStates u) (lastKnownScrollPosition u)
    (lastActiveToggleId u) (noteTitle_value u) (editor_hidden u)
    (listView_hidden u) v (editorStates u) (ui_frames u) (ui_timers u).

Definition set_editorStates v (u : UI) : UI :=
  mkUI (world u) (savedToggleStates u) (lastKnownScrollPosition u)
    (lastActiveToggleId u) (noteTitle_value u) (editor_hidden u)
    (listView_hidden u) (notesList u) v (ui_frames u) (ui_timers u).

Definition set_ui_frames v (u : UI) : UI :=
  mkUI (world u) (savedToggleStates u) (lastKnownScrollPosition u)
    (lastActiveToggleId u) (noteTitle_value u) (editor_hidden u)
    (listView_hidden u) (notesList u) (editorStates u) v (ui_timers u).

Definition set_ui_timers v (u : UI) : UI :=
  mkUI (world u) (savedToggleStates u) (lastKnownScrollPosition u)
    (lastActiveToggleId u) (noteTitle_value u) (editor_hidden u)
    (listView_hidden u) (notesList u) (editorStates u) (ui_frames u) v.

(** A handler of [World] run on the editor. *)
Definition on_world (f : World -> World) (u : UI) : UI :=
  set_world (f (world u)) u.

Definition ui_setTimeout (cb : UICallback) (delay : Z) (u : UI) : UI :=
  let w := world u in
  set_ui_timers (ui_timers u ++ [mkUITimer (nextHandle w) (clock w + delay) cb])
    (on_world (set_nextHandle (Pos.succ (nextHandle w))) u).

Definition ui_requestAnimationFrame (cb : UICallback) (u : UI) : UI :=
  set_ui_frames (ui_frames u ++ [cb]) u.

(** [StorageManager.load(this.editorStateKey, {})] and
    [StorageManager.save(this.editorStateKey, states)]: one more [setItem]
    call on [localStorage], which stores the states unless it raises. *)
Definition load_states (u : UI) : gmap Z SessionViewState :=
  default ∅ (editorStates u).

Definition save_states (states : gmap Z SessionViewState) (u : UI) : UI :=
  let ls := localStorage (world u) in
  let u := on_world (set_localStorage (called ls)) u in
  if setItem_throws ls (setItemCalls ls) then u      (* catch *)
  else set_editorStates (Some states) u.

(** [toggles.map(toggle => ...).filter(Boolean)]: the state of the region of
    every toggle that has one. *)
Definition toggle_states (note : Note) (w : World) : list SavedToggleState :=
  omap
    (fun toggle =>
       match querySelector (t_id toggle) w with
       | Some (_, textarea) =>
           Some (mkSavedToggleState (t_id toggle) (scrollTop textarea)
                   (scrollHeight textarea))
       | None => None
       end)
    (n_toggles note).

(** [saveEditorState()].  With no note open, reading [this.currentNote.toggles]
    raises a TypeError ([None]). *)
Definition saveEditorState (u : UI) : option UI :=
  match currentNote (world u) with
  | None => None
  | Some note =>
      let u := set_savedToggleStates (Some (toggle_states note (world u))) u in
      Some
        match editorContent (world u) with
        | Some top => set_lastKnownScrollPosition top u
        | None => u
        end
  end.

(** The two [forEach] loops over saved states: the first assigns every
    region found, the second ([check]) only a region whose [scrollTop]
    differs from the saved one. *)
Fixpoint restore_states (check : bool) (states : list SavedToggleState)
    (w : World) : World :=
  match states with
  | [] => w
  | state :: rest =>
      let w :=
        match querySelector (st_id state) w with
        | Some (i, textarea) =>
            if check && bool_decide (scrollTop textarea = st_scrollTop state)
            then w
            else write_scrollTop i (st_scrollTop state) w
        | None => w
        end in
      restore_states check rest w
  end.

(** [restoreEditorState()] and its two closures. *)
Definition restoreEditorState (u : UI) : UI :=
  ui_requestAnimationFrame RestoreStateFrameCb u.

Definition restoreStateFrame (u : UI) : UI :=
  let u :=
    match savedToggleStates u with
    | Some states => on_world (restore_states false states) u
    | None => u
    end in
  let u :=
    match editorContent (world u) with
    | Some _ =>
        on_world (set_editorContent (Some (lastKnownScrollPosition u))) u
    | None => u
    end in
  ui_setTimeout RestoreStateCheckCb 50 u.

Definition restoreStateCheck (u : UI) : UI :=
  match savedToggleStates u with
  | Some states => on_world (restore_states true states) u
  | None => u
  end.

(** [saveEditorStateToStorage()]. *)
Definition saveEditorStateToStorage (u : UI) : UI :=
  match currentNote (world u) with
  | None => u
  | Some note =>
      let states := load_states u in
      let toggleStates := toggle_states note (world u) in
      let editorScrollTop := default 0 (editorContent (world u)) in
      let states :=
        <[n_id note :=
            mkSessionViewState toggleStates editorScrollTop
              (lastActiveToggleId u) (clock (world u))]> states in
      save_states states u
  end.

(** [loadEditorStateFromStorage()] and its two closures.  The container is
    assigned only when the saved offset is not 0. *)
Definition loadEditorStateFromStorage (u : UI) : UI :=
  match currentNote (world u) with
  | None => u
  | Some note =>
      match load_states u !! n_id note with
      | Some savedState =>
          ui_requestAnimationFrame (LoadStateFrameCb savedState) u
      | None => u
      end
  end.

Definition loadStateFrame (savedState : SessionViewState) (u : UI) : UI :=
  let u := on_world (restore_states false (sv_toggleStates savedState)) u in
  let u :=
    match editorContent (world u) with
    | Some _ =>
        if decide (sv_editorScrollTop savedState <> 0)
        then on_world (set_editorContent (Some (sv_editorScrollTop savedState))) u
        else u
    | None => u
    end in
  ui_setTimeout (LoadStateCheckCb savedState) 50 u.

Definition loadStateCheck (savedState : SessionViewState) (u : UI) : UI :=
  on_world (restore_states true (sv_toggleStates savedState)) u.

Definition run_ui_callback (cb : UICallback) (u : UI) : UI :=
  match cb with
  | RestoreStateFrameCb => restoreStateFrame u
  | RestoreStateCheckCb => restoreStateCheck u
  | LoadStateFrameCb savedState => loadStateFrame savedState u
  | LoadStateCheckCb savedState => loadStateCheck savedState u
  end.

(** [cleanupOldEditorStates()]: the entries stamped within the last seven
    days are kept. *)
Definition cleanupOldEditorStates (u : UI) : UI :=
  let states := load_states u in
  let oneWeekAgo := clock (world u) - 7 * 24 * 60 * 60 * 1000 in
  let updatedStates :=
    filter
      (fun '(_, state) => sv_timestamp state <> 0 /\ sv_timestamp state > oneWeekAgo)
      states in
  save_states updatedStates u.

(** The focus listener of a region. *)
Definition textareaFocus (toggleId : Z) (u : UI) : UI :=
  set_lastActiveToggleId (Some toggleId) u.

(** ** Import (noteManager.js and unnamed/part_000) *)

Module NoteImport.

(** What [JSON.parse] returns.  An object is the list of its own properties
    in the order in which they are enumerated, every key once.  The notes of
    the list are kept here as such values too: an imported note enters the
    list as it was parsed, whatever its fields hold. *)
#[warnings="-register-all"]
Inductive JSON :=
| JNull
| JBool (b : bool)
| JNumber (x : float)
| JString (s : JSString)
| JArray (items : list JSON)
| JObject (fields : list (JSString * JSON)).

(** [obj[key]] on the properties of an object; [None] is [undefined]. *)
Fixpoint field (key : JSString) (fields : list (JSString * JSON)) : option JSON :=
  match fields with
  | [] => None
  | (k, v) :: rest => if decide (k = key) then Some v else field key rest
  end.

(** [obj[key] = value]: a property that is there keeps its place. *)
Fixpoint set_field (key : JSString) (value : JSON)
    (fields : list (JSString * JSON)) : list (JSString * JSON) :=
  match fields with
  | [] => [(key, value)]
  | (k, v) :: rest =>
      if decide (k = key) then (k, value) :: rest
      else (k, v) :: set_field key value rest
  end.

(** [k1 in v && k2 in v && ...] for keys that are neither indices nor
    [length]: an array has none of them, and on anything that is not an
    object the operator raises a TypeError ([None]). *)
Definition has_keys (keys : list JSString) (v : JSON) : option bool :=
  match v with
  | JObject fields =>
      Some (forallb (fun key => bool_decide (is_Some (field key fields))) keys)
  | JArray _ => Some (bool_decide (keys = []))
  | _ => match keys with [] => Some true | _ => None end
  end.

Definition note_keys : list JSString :=
  [str "id"; str "title"; str "toggles"; str "created"; str "updated"].

Definition toggle_keys : list JSString :=
  [str "id"; str "title"; str "content"; str "isOpen"].

(** The loop over [note.toggles] that both validators end with. *)
Fixpoint validate_toggles (toggles : list JSON) : option bool :=
  match toggles with
  | [] => Some true
  | toggle :: rest =>
      match has_keys toggle_keys toggle with
      | Some true => validate_toggles rest
      | Some false => Some false
      | None => None
      end
  end.

(** What both validators check of one note once [in] has been applied to
    it. *)
Definition validate_note (note : JSON) : option bool :=
  match has_keys note_keys note with
  | Some true =>
      match note with
      | JObject fields =>
          match field (str "toggles") fields with
          | Some (JArray toggles) => validate_toggles toggles
          | _ => Some false
          end
      | _ => Some false
      end
  | Some false => Some false
  | None => None
  end.

(** part_000, [_validateSingleNoteData(note)]. *)
Definition _validateSingleNoteData (note : JSON) : option bool :=
  match note with
  | JObject _ => validate_note note
  | _ => Some false      (* !note || typeof note !== 'object' || Array.isArray(note) *)
  end.

(** noteManager.js, [_validateImportData(data)]. *)
Fixpoint validate_notes (data : list JSON) : option bool :=
  match data with
  | [] => Some true
  | note :: rest =>
      match validate_note note with
      | Some true => validate_notes rest
      | Some false => Some false
      | None => None
      end
  end.

Definition _validateImportData (data : JSON) : option bool :=
  match data with
  | JArray notes => validate_notes notes
  | _ => Some false
  end.

(** Truthiness, as the conditional operator tests it. *)
Definition truthy (v : JSON) : bool :=
  match v with
  | JNull => false
  | JBool b => b
  | JNumber x => negb (PrimFloat.eqb x 0 || PrimFloat.is_nan x)
  | JString s => negb (bool_decide (s = []))
  | JArray _ | JObject _ => true
  end.

(** [Set.prototype.has] compares with SameValueZero.  An array or an
    object is compared by identity, and a value that was just parsed is none
    of the objects there were before. *)
Definition SameValueZero (x y : JSON) : bool :=
  match x, y with
  | JNull, JNull => true
  | JBool a, JBool b => bool_decide (a = b)
  | JNumber a, JNumber b =>
      PrimFloat.eqb a b || PrimFloat.is_nan a && PrimFloat.is_nan b
  | JString a, JString b => bool_decide (a = b)
  | _, _ => false
  end.

(** [this.notes.map(note => note.id)]: reading a property of [null] raises
    ([None]); a note that is no object, or has no id, gives [undefined]. *)
Definition id_of (note : JSON) : option (option JSON) :=
  match note with
  | JNull => None
  | JObject fields => Some (field (str "id") fields)
  | _ => Some None
  end.

Definition existing_ids (notes : list JSON) : option (list (option JSON)) :=
  mapM id_of notes.

Definition has_id (existingIds : list (option JSON)) (id : option JSON) : bool :=
  existsb
    (fun existing =>
       match existing, id with
       | Some a, Some b => SameValueZero a b
       | None, None => true
       | _, _ => false
       end)
    existingIds.

(** [{...v}]: the own enumerable properties of an object; of an array and
    of a string, the elements under their indices; nothing of anything
    else. *)
Definition spread (v : JSON) : list (JSString * JSON) :=
  match v with
  | JObject fields => fields
  | JArray items => imap (fun i item => (decimal i, item)) items
  | JString s => imap (fun i c => (decimal i, JString [c])) s
  | _ => []
  end.

Section Renaming.

(** The browser's conversion of a Number to a string. *)
Variable Number_toString : float -> JSString.

(** [`${v}`]; [None] when the conversion raises a TypeError.  An array is
    joined ([null] elements give the empty string).  An object is converted
    by the [toString] it has: without a property of its own under that key
    it is [Object.prototype.toString], which gives [object Object]; a
    property of its own (what [JSON.parse] puts there is no function) hides
    that one, [valueOf] gives no primitive either, and the conversion
    raises. *)
Fixpoint ToString (v : JSON) : option JSString :=
  match v with
  | JNull => Some (str "null")
  | JBool true => Some (str "true")
  | JBool false => Some (str "false")
  | JNumber x => Some (Number_toString x)
  | JString s => Some s
  | JArray items =>
      join (str ",")
        <$> mapM (fun item => match item with JNull => Some [] | _ => ToString item end)
              items
  | JObject fields =>
      if decide (is_Some (field (str "toString") fields)) then None
      else Some (str "[object Object]")
  end.

(** The title of the conflict branch:
    [title ? `${title} (Imported)` : 'Untitled Note (Imported)']. *)
Definition imported_title (title : option JSON) : option JSString :=
  match title with
  | Some title =>
      if truthy title then (fun s => s ++ str " (Imported)") <$> ToString title
      else Some (str "Untitled Note (Imported)")
  | None => Some (str "Untitled Note (Imported)")
  end.

(** The conflict branch: the copy gets the id [newId], a title that says it
    was imported, and toggles numbered from [newId + 1] on.  [None] when the
    title cannot be converted to a string, or [toggles] has no [map]. *)
Definition rename (newId : float) (noteToAdd : list (JSString * JSON))
  : option (list (JSString * JSON)) :=
  let noteToAdd := set_field (str "id") (JNumber newId) noteToAdd in
  title ← imported_title (field (str "title") noteToAdd);
  let noteToAdd := set_field (str "title") (JString title) noteToAdd in
  match field (str "toggles") noteToAdd with
  | Some (JArray toggles) =>
      let toggles :=
        imap
          (fun i toggle =>
             JObject
               (set_field (str "id")
                  (JNumber
                     (PrimFloat.add
                        (PrimFloat.add newId (number_of_Z (Z.of_nat i)))
                        (number_of_Z 1)))
                  (spread toggle)))
          toggles in
      Some (set_field (str "toggles") (JArray toggles) noteToAdd)
  | _ => None
  end.

(** What an import returns: the result, the list of notes, and the list
    [saveNotes] was called with, if it was called. *)
Record Outcome := mkOutcome {
  result : bool;
  notes_after : list JSON;
  written : option (list JSON)
}.

(** part_000, [importSingleNote(jsonString)].  [parsed] is what
    [JSON.parse(jsonString)] returns, [None] when it raises; [now] is the
    reading of the clock. *)
Definition importSingleNote (now : Z) (parsed : option JSON) (notes : list JSON)
  : Outcome :=
  match parsed with
  | None => mkOutcome false notes None
  | Some importedNote =>
      match _validateSingleNoteData importedNote, existing_ids notes with
      | Some true, Some existingIds =>
          let noteToAdd := spread importedNote in
          let noteToAdd :=
            if has_id existingIds (field (str "id") noteToAdd)
            then rename (number_of_Z now) noteToAdd
            else Some noteToAdd in
          match noteToAdd with
          | Some noteToAdd =>
              let notes := JObject noteToAdd :: notes in
              mkOutcome true notes (Some notes)
          | None => mkOutcome false notes None             (* catch *)
          end
      | _, _ => mkOutcome false notes None
      end
  end.

(** noteManager.js, [importAndMergeNotes(jsonString)].  [reading k] is what
    the clock returns while the [k]-th note of the file is handled.  The
    loop returns the list as it has made it, and whether it ran to its end:
    an exception leaves the [forEach] with the notes handled so far in the
    list. *)
Fixpoint merge_loop (reading : nat -> Z) (existingIds : list (option JSON))
    (newNotesAdded : nat) (importedNotes : list JSON) (notes : list JSON)
  : bool * list JSON :=
  match importedNotes with
  | [] => (true, notes)
  | importedNote :: rest =>
      let noteToAdd := spread importedNote in
      let noteToAdd :=
        if has_id existingIds (field (str "id") noteToAdd)
        then
          rename
            (PrimFloat.add (number_of_Z (reading newNotesAdded))
               (number_of_Z (Z.of_nat newNotesAdded)))
            noteToAdd
        else Some noteToAdd in
      match noteToAdd with
      | Some noteToAdd =>
          merge_loop reading existingIds (S newNotesAdded) rest
            (JObject noteToAdd :: notes)
      | None => (false, notes)
      end
  end.

Definition importAndMergeNotes (reading : nat -> Z) (parsed : option JSON)
    (notes : list JSON) : Outcome :=
  match parsed with
  | None => mkOutcome false notes None
  | Some importedNotes =>
      match _validateImportData importedNotes, existing_ids notes with
      | Some true, Some existingIds =>
          match
            merge_loop reading existingIds 0
              match importedNotes with JArray items => items | _ => [] end
              notes
          with
          | (true, notes) => mkOutcome true notes (Some notes)
          | (false, notes) => mkOutcome false notes None   (* catch *)
          end
      | _, _ => mkOutcome false notes None
      end
  end.

(** The title of a note can be written into the title of its copy: it is
    falsy, or its conversion to a string returns. *)
Definition title_converts (fields : list (JSString * JSON)) : Prop :=
  is_Some (imported_title (field (str "title") fields)).

End Renaming.

(** [v[key]] for a key that is neither an index nor [length]: reading a
    property of [null] raises ([None]); an array, a string, a number and a
    Boolean have no such property ([undefined]). *)
Definition get (key : JSString) (v : JSON) : option (option JSON) :=
  match v with
  | JNull => None
  | JObject fields => Some (field key fields)
  | _ => Some None
  end.

(** [v.toLowerCase()]: only a string has the method; on anything else the
    call raises. *)
Definition lower (toLowerCase : JSString -> JSString) (v : option JSON)
  : option JSString :=
  match v with
  | Some (JString s) => Some (toLowerCase s)
  | _ => None
  end.

(** [items.some(f)]: the elements are visited in order up to the first one
    that [f] accepts. *)
Fixpoint some (f : JSON -> option bool) (items : list JSON) : option bool :=
  match items with
  | [] => Some false
  | item :: rest =>
      match f item with
      | Some true => Some true
      | Some false => some f rest
      | None => None
      end
  end.

(** [items.filter(f)]. *)
Fixpoint filter_by (f : JSON -> option bool) (items : list JSON)
  : option (list JSON) :=
  match items with
  | [] => Some []
  | item :: rest =>
      keep ← f item;
      kept ← filter_by f rest;
      Some (if keep : bool then item :: kept else kept)
  end.

(** noteManager.js, [getNotes(searchTerm = '')], on a list that holds
    whatever was imported into it; [None] when a TypeError is raised.  The
    callback of [some] reads the content of a toggle only when the title
    does not match; the callback of [filter] computes both of its constants
    before it combines them. *)
Definition toggle_matches (toLowerCase : JSString -> JSString)
    (searchTerm : JSString) (toggle : JSON) : option bool :=
  title ← get (str "title") toggle;
  title ← lower toLowerCase title;
  if NoteManager.includes title searchTerm then Some true
  else
    content ← get (str "content") toggle;
    content ← lower toLowerCase content;
    Some (NoteManager.includes content searchTerm).

Definition note_matches (toLowerCase : JSString -> JSString)
    (searchTerm : JSString) (note : JSON) : option bool :=
  title ← get (str "title") note;
  title ← lower toLowerCase title;
  let titleMatch := NoteManager.includes title searchTerm in
  toggles ← get (str "toggles") note;
  match toggles with
  | Some (JArray toggles) =>
      contentMatch ← some (toggle_matches toLowerCase searchTerm) toggles;
      Some (titleMatch || contentMatch)
  | _ => None                        (* there is no [some] to call *)
  end.

Definition getNotes (toLowerCase : JSString -> JSString) (searchTerm : JSString)
    (notes : list JSON) : option (list JSON) :=
  filter_by (note_matches toLowerCase searchTerm) notes.

(** An object that holds a string under a key. *)
Definition holds_string (key : JSString) (s : JSString) (v : JSON) : Prop :=
  exists fields, v = JObject fields /\ field key fields = Some (JString s).

(** A note that [getNotes] lists when nothing is searched for: its title is
    a string and [toggles] is an array that is empty or begins with an
    object whose title is a string. *)
Definition listed_by_default (note : JSON) : Prop :=
  exists title toggles,
    holds_string (str "title") title note
    /\ get (str "toggles") note = Some (Some (JArray toggles))
    /\ forall toggle, head toggles = Some toggle ->
         exists s, holds_string (str "title") s toggle.

(** A toggle and a note as the editor makes them: titles and contents are
    strings. *)
Definition toggle_of_strings (toggle : JSON) : Prop :=
  exists title content,
    holds_string (str "title") title toggle
    /\ holds_string (str "content") content toggle.

Definition note_of_strings (note : JSON) : Prop :=
  exists title toggles,
    holds_string (str "title") title note
    /\ get (str "toggles") note = Some (Some (JArray toggles))
    /\ Forall toggle_of_strings toggles.

(** The search term occurs in what a note holds: in its lower-cased title,
    or in the lower-cased title or content of one of its toggles. *)
Definition found_in (toLowerCase : JSString -> JSString) (searchTerm : JSString)
    (note : JSON) : Prop :=
  (exists title,
     holds_string (str "title") title note
     /\ NoteManager.occurs_in searchTerm (toLowerCase title))
  \/ exists toggles toggle text,
       get (str "toggles") note = Some (Some (JArray toggles))
       /\ toggle ∈ toggles
       /\ (holds_string (str "title") text toggle
           \/ holds_string (str "content") text toggle)
       /\ NoteManager.occurs_in searchTerm (toLowerCase text).

(** A value of the list stands for a note of the editor: it holds the title
    of the note and, toggle by toggle, the titles and contents. *)
Definition toggle_stands_for (toggle : Toggle) (v : JSON) : Prop :=
  holds_string (str "title") (t_title toggle) v
  /\ holds_string (str "content") (t_content toggle) v.

Definition stands_for (note : Note) (v : JSON) : Prop :=
  holds_string (str "title") (n_title note) v
  /\ exists toggles,
       get (str "toggles") v = Some (Some (JArray toggles))
       /\ Forall2 toggle_stands_for (n_toggles note) toggles.

(** A note of a file whose id none of the notes of the list has. *)
Definition fresh_id (existingIds : list (option JSON)) (note : JSON) : Prop :=
  exists fields, note = JObject fields
    /\ has_id existingIds (field (str "id") fields) = false.

(** The notes a validator accepts, said directly. *)
Definition toggle_shaped (toggle : JSON) : Prop :=
  exists fields, toggle = JObject fields
    /\ Forall (fun key => is_Some (field key fields)) toggle_keys.

Definition note_shaped (note : JSON) : Prop :=
  exists fields toggles, note = JObject fields
    /\ Forall (fun key => is_Some (field key fields)) note_keys
    /\ field (str "toggles") fields = Some (JArray toggles)
    /\ Forall toggle_shaped toggles.

(** A note as a file holds it: one toggle, id 1. *)
Definition sample_file : JSON :=
  JObject
    [ (str "id", JNumber 1);
      (str "title", JString (str "Shopping"));
      (str "toggles",
       JArray
         [ JObject
             [ (str "id", JNumber 2);
               (str "title", JString (str "Section 1"));
               (str "content", JString (str "milk"));
               (str "isOpen", JBool true) ] ]);
      (str "created", JString (str "2024-01-01T00:00:00.000Z"));
      (str "updated", JString (str "2024-01-02T00:00:00.000Z")) ].

End NoteImport.

(** ** The editor on a given browser *)

Section Editor.

(** What the browser makes of the markup [renderEditor] writes for one
    toggle: the value of the new textarea (the escaped content, read back
    by the HTML parser) and the scroll height the layout gives it (after
    [autoResize]; the style sheet, which decides what the region of a closed
    toggle gets, is the browser's business here). *)
Variable browser_render : Toggle -> JSString * Z.

(** Which DOM accesses raise: [throws p k] says that the visit of the
    [k]-th region in the loop of phase [p] raises an exception.  The
    program's own [throw] needs no oracle. *)
Variable throws : Phase -> nat -> bool.

(** [renderEditor(false)], the call [_handleToggleSection] makes.  A new
    element is created for every toggle, scrolled to the top.
    ([saveEditorState], which this call runs first, writes
    [savedToggleStates] and [lastKnownScrollPosition]; they are read back
    only by [restoreEditorState] on the undo, redo and add-toggle paths, and
    are left out, as is the value of the title input.) *)
Definition renderEditor (w : World) : World :=
  match currentNote w with
  | None => w
  | Some note =>
      let fresh (i : nat) (toggle : Toggle) :=
        mkTextarea (nextNode w + i)%nat (t_id toggle)
          (fst (browser_render toggle)) 0 (snd (browser_render toggle)) in
      set_renders (S (renders w))
        (set_nextNode (nextNode w + length (n_toggles note))%nat
           (set_textareas (imap fresh (n_toggles note)) w))
  end.

(** The capture loop of [_handleToggleSection], from toggle number [k] on;
    [None] when an access raised. *)
Fixpoint capture_loop (k : nat) (toggles : list Toggle) (w : World)
    (scrollPositions : list (Z * ScrollState)) : option (list (Z * ScrollState)) :=
  match toggles with
  | [] => Some scrollPositions
  | toggle :: rest =>
      if throws PhCapture k then None
      else
        let scrollPositions :=
          match querySelector (t_id toggle) w with
          | Some (_, textarea) =>
              map_set (t_id toggle) (capture_state textarea) scrollPositions
          | None => scrollPositions
          end in
        capture_loop (S k) rest w scrollPositions
  end.

(** [_handleToggleSection(toggleId)]: the guard, then the try block up to
    the [requestAnimationFrame] call, then the outer catch. *)
Definition _handleToggleSection (toggleId : Z) (w : World) : World :=
  match currentNote w with
  | None => w
  | Some note =>
      if isRestoring w then w
      else
        let w := set_isRestoring true w in
        let body :=
          let editorScrollTop := default 0 (editorContent w) in
          match capture_loop 0 (n_toggles note) w [] with
          | None => Throw w
          | Some scrollPositions =>
              let previousState := deep_copy note in
              match find_toggle toggleId note with
              | None => Throw w     (* throw new Error('Toggle not found') *)
              | Some (i, toggle) =>
                  let toggleScrollState := map_get toggleId scrollPositions in
                  let note :=
                    set_n_toggles (alter flip_isOpen i (n_toggles note)) note in
                  let w := set_currentNote (Some note) w in
                  let w := history_push previousState w in
                  let w := updateNote_current w in
                  let w := renderEditor w in
                  Normal
                    (requestAnimationFrame
                       (RestoreFrameCb
                          (mkRestoreClosure editorScrollTop scrollPositions
                             toggleId (negb (t_isOpen toggle)) toggleScrollState))
                       w)
              end
          end in
        match body with
        | Normal w => w
        | Throw w => set_isRestoring false w       (* catch *)
        end
  end.

(** Pass 1, the [forEach] over the captured map, from entry number [k] on. *)
Fixpoint restore_loop (cl : RestoreClosure) (k : nat)
    (entries : list (Z * ScrollState)) (w : World) : Completion :=
  match entries with
  | [] => Normal w
  | (id, state) :: rest =>
      if throws PhPass1 k then Throw w
      else
        let w :=
          match querySelector id w with
          | Some (i, textarea) =>
              if decide (_hashContent (value textarea) = ss_contentHash state) then
                if decide (id = cl_toggleId cl) then
                  if cl_toggle_isOpen cl then
                    requestAnimationFrame
                      (TargetRestoreCb (ta_node textarea) state) w
                  else w
                else write_scrollTop i (restored_scrollTop state textarea) w
              else w
          | None => w
          end in
        restore_loop cl (S k) rest w
  end.

(** Pass 1: the callback of the first [requestAnimationFrame]. *)
Definition restoreFrame (cl : RestoreClosure) (w : World) : World :=
  let w :=
    match editorContent w with
    | Some _ => set_editorContent (Some (cl_editorScrollTop cl)) w
    | None => w
    end in
  match restore_loop cl 0 (cl_scrollPositions cl) w with
  | Normal w =>
      let '(handle, w) := setTimeout (FinalCheckCb cl) 100 w in
      set_scrollRestoreTimeout (Some handle) w
  | Throw w =>                                       (* catch *)
      set_isRestoring false (_resetScrollPositions w)
  end.

(** The deferred write pass 1 schedules for the toggled region when it was
    opened.  The closure holds the element found in pass 1; a write to an
    element that has left the document shows nowhere. *)
Definition targetRestore (node : nat) (state : ScrollState) (w : World) : World :=
  match attached node w with
  | Some (i, textarea) => write_scrollTop i (restored_scrollTop state textarea) w
  | None => w
  end.

(** Pass 2, the [forEach] over the captured map, from entry number [k] on. *)
Fixpoint final_loop (cl : RestoreClosure) (k : nat)
    (entries : list (Z * ScrollState)) (w : World) : Completion :=
  match entries with
  | [] => Normal w
  | (id, state) :: rest =>
      if throws PhPass2 k then Throw w
      else
        let w :=
          if decide (id <> cl_toggleId cl) then
            match querySelector id w with
            | Some (i, textarea) =>
                if decide (_hashContent (value textarea) = ss_contentHash state)
                then write_scrollTop i (ss_scrollTop state) w
                else w
            | None => w
            end
          else w in
        final_loop cl (S k) rest w
  end.

(** Pass 2: the callback of [scrollRestoreTimeout]; try, catch, finally. *)
Definition finalCheck (cl : RestoreClosure) (w : World) : World :=
  let w :=
    match cl_toggle_isOpen cl, cl_toggleScrollState cl with
    | true, Some toggleScrollState =>
        match querySelector (cl_toggleId cl) w with
        | Some (i, textarea) =>
            if decide (_hashContent (value textarea)
                       = ss_contentHash toggleScrollState)
            then write_scrollTop i (ss_scrollTop toggleScrollState) w
            else w
        | None => w
        end
    | _, _ => w
    end in
  let w :=
    match final_loop cl 0 (cl_scrollPositions cl) w with
    | Normal w => w
    | Throw w => _resetScrollPositions w             (* catch *)
    end in
  set_isRestoring false w.                           (* finally *)

Definition run_callback (cb : Callback) (w : World) : World :=
  match cb with
  | AutoSaveCb previousState => autoSave previousState w
  | ToggleDebounceCb toggleId => _handleToggleSection toggleId w
  | RestoreFrameCb cl => restoreFrame cl w
  | TargetRestoreCb node state => targetRestore node state w
  | FinalCheckCb cl => finalCheck cl w
  end.

(** *** The event loop *)

(** What the browser delivers: user input, a frame, a millisecond. *)
Inductive Event :=
| EvTitleInput (v : JSString)
    (* the user edits the title; the input listener runs *)
| EvTextareaInput (id : Z) (v : JSString)
    (* the user edits the region of toggle id; its input listener runs *)
| EvToggleClick (id : Z)
    (* a click on the header of toggle id *)
| EvLayout (node : nat) (top height : Z)
    (* the user scrolls a region, or the layout of its content settles *)
| EvFrame
    (* an animation frame *)
| EvTick.
    (* one millisecond passes *)

(** The timers that are due fire oldest first; one that an earlier callback
    of the same millisecond cleared does not fire. *)
Fixpoint fire_due (due : list Timer) (w : World) : World :=
  match due with
  | [] => w
  | t :: rest =>
      let w :=
        if decide (tm_handle t ∈ tm_handle <$> timers w) then
          run_callback (tm_callback t) (clearTimeout (tm_handle t) w)
        else w in
      fire_due rest w
  end.

Definition tick (w : World) : World :=
  let w := set_clock (clock w + 1) w in
  fire_due (filter (fun t => tm_due t <= clock w) (timers w)) w.

(** A frame runs the callbacks requested before it began; what they request
    waits for the next frame. *)
Definition frame (w : World) : World :=
  fold_left (fun w cb => run_callback cb w) (frames w) (set_frames [] w).

Definition set_layout (top height : Z) (ta : Textarea) : Textarea :=
  mkTextarea (ta_node ta) (ta_toggleId ta) (value ta) top height.

Definition step (w : World) (ev : Event) : World :=
  match ev with
  | EvTitleInput v => handleNoteChange NoteTitle v w
  | EvTextareaInput id v =>
      match querySelector id w with
      | Some (i, _) =>
          updateToggleContent id v
            (set_textareas (alter (set_value v) i (textareas w)) w)
      | None => w
      end
  | EvToggleClick id => toggleSection id w
  | EvLayout node top height =>
      match attached node w with
      | Some (i, _) =>
          set_textareas (alter (set_layout top height) i (textareas w)) w
      | None => w
      end
  | EvFrame => frame w
  | EvTick => tick w
  end.

Definition run (evs : list Event) (w : World) : World := fold_left step evs w.

Definition ticks (n : nat) : list Event := replicate n EvTick.

(** A burst of title edits: each edit but the last is followed by fewer
    milliseconds than the commit delay. *)
Fixpoint burst (edits : list (JSString * nat)) : list Event :=
  match edits with
  | [] => []
  | (v, gap) :: rest => EvTitleInput v :: ticks gap ++ burst rest
  end.

(** Nothing is pending: no timeout, no frame callback. *)
Definition quiescent (w : World) : Prop := timers w = [] /\ frames w = [].

(** The reconciler's Idle state. *)
Definition Idle (w : World) : Prop := quiescent w /\ isRestoring w = false.

(** Events of the browser alone: no click, no edit. *)
Definition passive (ev : Event) : Prop :=
  match ev with
  | EvFrame | EvTick | EvLayout _ _ _ => True
  | _ => False
  end.


(** The deferred writes of pass 1. *)
Definition is_target_restore (cb : Callback) : Prop :=
  match cb with
  | TargetRestoreCb _ _ => True
  | _ => False
  end.

(** The callbacks that can release the reentrancy guard. *)
Definition releasing_callback (cb : Callback) : Prop :=
  match cb with
  | RestoreFrameCb _ | FinalCheckCb _ => True
  | _ => False
  end.

(** *** Sample browsers and a sample editor *)

Definition no_faults : Phase -> nat -> bool := fun _ _ => false.

(** The first access of one phase raises. *)
Definition fault_in (p : Phase) : Phase -> nat -> bool :=
  fun q k =>
    match p, q, k with
    | PhCapture, PhCapture, O | PhPass1, PhPass1, O | PhPass2, PhPass2, O => true
    | _, _, _ => false
    end.

(** A browser that shows every toggle's content unchanged and lays every
    region out [height] pixels high. *)
Definition render_like (height : Z) : Toggle -> JSString * Z :=
  fun toggle => (t_content toggle, height).

Definition sample_note : Note :=
  mkNote 1 (str "")
    [ mkToggle 11 (str "Section 1") (str "abc") true;
      mkToggle 12 (str "Section 2") (str "hello") true ]
    0 0.

(** The note open in the editor, nothing pending; region 12 is scrolled to
    100 of a height of 200, the container to 40. *)
Definition sample_world : World :=
  mkWorld (Some sample_note) None false None None (HistoryManager.mk [] [] [])
    [sample_note]
    (Some 40)
    [ mkTextarea 0 11 (str "abc") 30 200;
      mkTextarea 1 12 (str "hello") 100 200 ]
    2
    empty_storage 0 [] [] 1 0.

(** The closure a reconciliation of the sample editor creates when toggle
    11 is closed: both regions captured as they are in [sample_world]. *)
Definition sample_closure : RestoreClosure :=
  mkRestoreClosure 40
    [ (11, capture_state (mkTextarea 0 11 (str "abc") 30 200));
      (12, capture_state (mkTextarea 1 12 (str "hello") 100 200)) ]
    11 false
    (Some (capture_state (mkTextarea 0 11 (str "abc") 30 200))).

(** The captured states a closure holds for the region of toggle [id]. *)
Definition captured_for (cl : RestoreClosure) (id : Z) (state : ScrollState) : Prop :=
  (id, state) ∈ cl_scrollPositions cl
  \/ (id = cl_toggleId cl /\ cl_toggleScrollState cl = Some state).

(** A region is stale for a closure when its live content hash differs from
    every hash the closure captured for it. *)
Definition stale (cl : RestoreClosure) (ta : Textarea) : Prop :=
  forall state, captured_for cl (ta_toggleId ta) state ->
    _hashContent (value ta) <> ss_contentHash state.

(** The open flags of the live note's toggles. *)
Definition open_flags (w : World) : option (list bool) :=
  (fun note => t_isOpen <$> n_toggles note) <$> currentNote w.

(** No pending callback can release the reentrancy guard. *)
Definition no_release_pending (w : World) : Prop :=
  Forall (fun t => ~ releasing_callback (tm_callback t)) (timers w)
  /\ Forall (fun cb => ~ releasing_callback cb) (frames w).


(** The commit timer of [handleNoteChange] is the one pending timeout: it
    holds the snapshot [p] and is due at [due]. *)
Definition armed (p : Note) (due : Z) (w : World) : Prop :=
  exists handle,
    timers w = [mkTimer handle due (AutoSaveCb p)]
    /\ autoSaveTimeout w = Some handle.

(** No timeout is pending but, possibly, the commit timer. *)
Definition at_most_armed (w : World) : Prop :=
  timers w = [] \/ exists p due, armed p due w.

(** The title the live note has after a list of edits. *)
Definition last_title (edits : list (JSString * nat)) (note : Note) : JSString :=
  default (n_title note) (last (fst <$> edits)).

(** The guard is held and nothing pending can release it; [flags] and [n]
    are the open flags of the note and the number of renders. *)
Definition stuck (flags : option (list bool)) (n : nat) (w : World) : Prop :=
  isRestoring w = true
  /\ no_release_pending w
  /\ open_flags w = flags
  /\ renders w = n.

(** No timeout is pending but, possibly, the debounce timer of a toggle
    request. *)
Definition at_most_debouncing (w : World) : Prop :=
  timers w = []
  \/ exists handle due toggleId,
       timers w = [mkTimer handle due (ToggleDebounceCb toggleId)]
       /\ toggleDebounce w = Some handle.


(** *** Undo and redo, new toggles, opening and closing the editor *)

(** [renderEditor(shouldRestoreState)] in full: the view state is saved
    first unless it is to be restored, the title field is filled, the toggle
    list is rendered as [renderEditor] above has it, and the restoration is
    requested if asked for. *)
Definition UI_renderEditor (shouldRestoreState : bool) (u : UI) : UI :=
  match currentNote (world u) with
  | None => u
  | Some note =>
      let u := if shouldRestoreState then u else default u (saveEditorState u) in
      let u := set_noteTitle_value (escapeHtml (n_title note)) u in
      let u := on_world renderEditor u in
      if shouldRestoreState then restoreEditorState u else u
  end.

(** [handleUndo()].  There is no check of [this.currentNote]: with no note
    open [saveEditorState] raises and the handler ends there. *)
Definition handleUndo (u : UI) : UI :=
  match saveEditorState u, currentNote (world u) with
  | Some u, Some note =>
      let '(previousState, h) := HistoryManager.undo note (history (world u)) in
      let u := on_world (set_history h) u in
      match previousState with
      | Some previousState =>
          let u := on_world (set_currentNote (Some previousState)) u in
          let u := on_world updateNote_current u in
          UI_renderEditor true u
      | None => u
      end
  | _, _ => u
  end.

(** [handleRedo()]. *)
Definition handleRedo (u : UI) : UI :=
  match saveEditorState u, currentNote (world u) with
  | Some u, Some note =>
      let '(nextState, h) := HistoryManager.redo note (history (world u)) in
      let u := on_world (set_history h) u in
      match nextState with
      | Some nextState =>
          let u := on_world (set_currentNote (Some nextState)) u in
          let u := on_world updateNote_current u in
          UI_renderEditor true u
      | None => u
      end
  | _, _ => u
  end.

(** [addNewToggle()]. *)
Definition addNewToggle (u : UI) : UI :=
  match currentNote (world u), saveEditorState u with
  | Some note, Some u =>
      let previousState := deep_copy note in
      let newToggle :=
        mkToggle (clock (world u))
          (str "Section " ++ decimal (length (n_toggles note) + 1)) [] true in
      let note := set_n_toggles (n_toggles note ++ [newToggle]) note in
      let u := on_world (set_currentNote (Some note)) u in
      let u := on_world (history_push previousState) u in
      let u := on_world updateNote_current u in
      UI_renderEditor true u
  | _, _ => u
  end.

(** [renderNotesList(searchTerm = '')] and [filterNotes()], the input
    listener of the search field, whose value is [v]; [toLowerCase] is the
    browser's [String.prototype.toLowerCase]. *)
Definition renderNotesList (toLowerCase : JSString -> JSString)
    (searchTerm : JSString) (u : UI) : UI :=
  set_notesList
    (createNoteCardElement
       <$> NoteManager.getNotes toLowerCase searchTerm (notes (world u)))
    u.

Definition filterNotes (toLowerCase : JSString -> JSString) (v : JSString)
    (u : UI) : UI :=
  renderNotesList toLowerCase (toLowerCase v) u.

(** [openEditor(note)]. *)
Definition openEditor (note : Note) (u : UI) : UI :=
  let u := on_world (set_currentNote (Some (deep_copy note))) u in
  let u := set_listView_hidden true (set_editor_hidden false u) in
  let u := on_world (fun w => set_history (HistoryManager.clear (history w)) w) u in
  let u := UI_renderEditor false u in
  loadEditorStateFromStorage u.

(** [closeEditor()]. *)
Definition closeEditor (toLowerCase : JSString -> JSString) (u : UI) : UI :=
  let u := saveEditorStateToStorage u in
  let u := set_listView_hidden false (set_editor_hidden true u) in
  let u := on_world (set_currentNote None) u in
  let u := on_world (fun w => set_history (HistoryManager.clear (history w)) w) u in
  renderNotesList toLowerCase [] u.

(** The click listener [renderNotesList] gives every card.  The id is read
    back from the attribute of the card; [find] compares with [===], and
    no id is equal to NaN. *)
Definition cardClick (large : Z -> JSString) (card : Card) (u : UI) : UI :=
  match parseInt (dataset_noteId large card) with
  | Some noteId =>
      match list_find (fun n => n_id n = noteId) (notes (world u)) with
      | Some (_, note) => openEditor note u
      | None => u
      end
  | None => u
  end.

(** [createNewNote()]; the handler is taken to run within one reading of
    the clock. *)
Definition createNewNote (u : UI) : UI :=
  let w := world u in
  let '(note, notes, ls) :=
    NoteManager.createNote (fun _ => clock w) (notes w) (localStorage w) in
  openEditor note (on_world (fun w => set_localStorage ls (set_notes notes w)) u).


(** The regions mirror the toggles of the open note: one region for each
    toggle, in the order of the toggles. *)
Definition regions_mirror_toggles (w : World) : Prop :=
  forall note, currentNote w = Some note ->
    ta_toggleId <$> textareas w = t_id <$> n_toggles note.

(** The regions of a fresh render: one for each toggle, scrolled to the
    top. *)
Definition fresh_regions (first : nat) (toggles : list Toggle) : list Textarea :=
  imap
    (fun i toggle =>
       mkTextarea (first + i) (t_id toggle) (fst (browser_render toggle)) 0
         (snd (browser_render toggle)))
    toggles.


(** The sample editor with the rest of its fields: nothing saved, the list
    view hidden, no view state in the storage. *)
Definition sample_ui : UI :=
  mkUI sample_world None 0 None [] false true [] None [] [].

(** The storage holds the list of notes: a [NoteManager] constructed now
    would start from the list this one has. *)
Definition persisted (w : World) : Prop :=
  NoteManager.constructor (localStorage w) = notes w.

(** The storage holds the list of notes and will go on storing what it is
    given. *)
Definition in_step (w : World) : Prop :=
  reliable (localStorage w) /\ persisted w.

(** What editing carries over from a world to a later one. *)
Definition carried_over (w w' : World) : Prop :=
  (regions_mirror_toggles w -> regions_mirror_toggles w')
  /\ n_id <$> currentNote w' = n_id <$> currentNote w
  /\ n_id <$> notes w' = n_id <$> notes w
  /\ (in_step w -> in_step w').

(** ** Properties *)

(** *** 32-bit arithmetic and the content hash *)

Lemma ToInt32_range (x : Z) : - 2 ^ 31 <= ToInt32 x < 2 ^ 31.
Proof.
  unfold ToInt32.
  pose proof (Z.mod_pos_bound x (2 ^ 32) ltac:(lia)) as Hm.
  destruct (Z.ltb_spec (x mod 2 ^ 32) (2 ^ 31)); lia.
Qed.

Lemma ToInt32_mod (x : Z) : ToInt32 x mod 2 ^ 32 = x mod 2 ^ 32.
Proof.
  unfold ToInt32.
  destruct (Z.ltb_spec (x mod 2 ^ 32) (2 ^ 31)).
  - apply Z.mod_mod. lia.
  - replace (x mod 2 ^ 32 - 2 ^ 32) with (x mod 2 ^ 32 + (-1) * 2 ^ 32) by lia.
    rewrite Z.mod_add by lia. apply Z.mod_mod. lia.
Qed.

Lemma ToInt32_congr (x y : Z) :
  x mod 2 ^ 32 = y mod 2 ^ 32 -> ToInt32 x = ToInt32 y.
Proof. unfold ToInt32. intros ->. reflexivity. Qed.

Lemma ToInt32_idem (x : Z) : ToInt32 (ToInt32 x) = ToInt32 x.
Proof. apply ToInt32_congr, ToInt32_mod. Qed.

(** One turn of the loop computes [31 * hash + c] in 32-bit arithmetic. *)
Lemma hash_turn (h c : Z) :
  js_and (js_shl (ToInt32 h) 5 - ToInt32 h + c) (js_shl (ToInt32 h) 5 - ToInt32 h + c)
  = ToInt32 (31 * h + c).
Proof.
  unfold js_and, js_shl. rewrite Z.land_diag.
  apply ToInt32_congr.
  change (Z.land 5 31) with 5. rewrite Z.shiftl_mul_pow2 by lia.
  rewrite ToInt32_idem.
  rewrite Z.add_mod, Zminus_mod, ToInt32_mod by lia.
  rewrite (Z.mul_mod (ToInt32 h)), !ToInt32_mod by lia.
  rewrite <- Z.mul_mod, <- Zminus_mod, <- Z.add_mod by lia.
  f_equal. lia.
Qed.

Lemma hash_loop_rolling (content : JSString) (h : Z) :
  hash_loop content (ToInt32 h)
  = ToInt32 (fold_left (fun h c => 31 * h + c) content h).
Proof.
  revert h. induction content as [|c rest IH]; intros h; simpl.
  - reflexivity.
  - rewrite hash_turn. apply IH.
Qed.

(** C10.  [_hashContent] is a total function of the text alone: it returns 0
    on the empty string, its result is always a signed 32-bit integer, namely
    the 32-bit coercion of the base-31 rolling hash of the code units, and
    equal texts have equal hashes, so the hash captured from a region matches
    the hash of any region that shows the same text. *)
Theorem hashContent_int32_deterministic (content : JSString) :
  _hashContent [] = 0
  /\ - 2 ^ 31 <= _hashContent content < 2 ^ 31
  /\ _hashContent content = ToInt32 (rolling31 content)
  /\ (forall content', content' = content ->
        _hashContent content' = _hashContent content)
  /\ (forall captured live : Textarea, value live = value captured ->
        _hashContent (value live) = ss_contentHash (capture_state captured)).
Proof.
  assert (Hroll : _hashContent content = ToInt32 (rolling31 content)).
  { unfold _hashContent, rolling31.
    change 0 with (ToInt32 0) at 1. apply hash_loop_rolling. }
  split; [reflexivity|]. split.
  - rewrite Hroll. apply ToInt32_range.
  - split; [exact Hroll|]. split.
    + intros content' ->. reflexivity.
    + intros captured live Hv. simpl. rewrite Hv. reflexivity.
Qed.

(** *** The history *)

(** C2.  After [push(A)], [undo(B)] returns [A] and leaves [canRedo] true;
    the following [redo(A)] returns [B] and brings both stacks back to what
    they were after the push.  On an empty undo stack [undo] returns null
    and leaves the manager as it was. *)
Theorem undo_redo_inverse (h : HistoryManager.t) (A B : Note) :
  let h1 := HistoryManager.push A h in
  let h2 := snd (HistoryManager.undo B h1) in
  let h3 := snd (HistoryManager.redo A h2) in
  fst (HistoryManager.undo B h1) = Some A
  /\ HistoryManager.canRedo h2 = true
  /\ fst (HistoryManager.redo A h2) = Some B
  /\ HistoryManager.undoStack h3 = HistoryManager.undoStack h1
  /\ HistoryManager.redoStack h3 = HistoryManager.redoStack h1
  /\ HistoryManager.undo B
       (HistoryManager.mk [] (HistoryManager.redoStack h) (HistoryManager.notified h))
     = (None,
        HistoryManager.mk [] (HistoryManager.redoStack h) (HistoryManager.notified h)).
Proof.
  simpl. repeat split; reflexivity.
Qed.

(** *** The note list *)

Lemma findIndex_absent (id : Z) (notes : list Note) :
  (forall n, n ∈ notes -> n_id n <> id) -> NoteManager.findIndex id notes = None.
Proof.
  induction notes as [|n rest IH]; intros Hno; simpl; [reflexivity|].
  destruct (decide (n_id n = id)) as [Heq|_].
  - exfalso. apply (Hno n); [left | exact Heq].
  - rewrite IH; [reflexivity|]. intros m Hm. apply Hno. right. exact Hm.
Qed.

(** C9.  When no stored note has the id of the note passed in, [updateNote]
    returns the list and the storage it was given (no [setItem] call, the
    stored items unchanged); the note passed in gets its [updated] stamp and
    is otherwise as it was. *)
Theorem updateNote_unknown_id (now : Z) (note : Note) (notes : list Note)
    (ls : Storage) :
  (forall n, n ∈ notes -> n_id n <> n_id note) ->
  NoteManager.updateNote now note notes ls = (set_n_updated now note, notes, ls).
Proof.
  intros Hno. unfold NoteManager.updateNote. simpl.
  rewrite findIndex_absent by exact Hno. reflexivity.
Qed.

(** *** The note list and the storage *)

Lemma findIndex_None (id : Z) (notes : list Note) :
  NoteManager.findIndex id notes = None <-> (forall n, n ∈ notes -> n_id n <> id).
Proof.
  split; [|apply findIndex_absent].
  induction notes as [|m rest IH]; simpl; intros Hnone n Hin.
  - inversion Hin.
  - destruct (decide (n_id m = id)) as [|Hne]; [discriminate|].
    destruct (NoteManager.findIndex id rest) eqn:Hrest; [discriminate|].
    apply elem_of_cons in Hin as [->|Hin]; [exact Hne | exact (IH eq_refl n Hin)].
Qed.

Lemma findIndex_Some (id : Z) (notes : list Note) (i : nat) :
  NoteManager.findIndex id notes = Some i ->
  exists n, notes !! i = Some n /\ n_id n = id
            /\ forall j m, (j < i)%nat -> notes !! j = Some m -> n_id m <> id.
Proof.
  revert i. induction notes as [|m rest IH]; simpl; intros i Hfind; [discriminate|].
  destruct (decide (n_id m = id)) as [Heq|Hne].
  - injection Hfind as <-. exists m. repeat split; [exact Heq|]. intros j ? Hj. lia.
  - destruct (NoteManager.findIndex id rest) as [k|]; [|discriminate].
    injection Hfind as <-. destruct (IH k eq_refl) as (n & Hn & Hid & Hfirst).
    exists n. repeat split; [exact Hn | exact Hid |].
    intros [|j] m' Hj Hm; simpl in Hm.
    + injection Hm as <-. exact Hne.
    + apply (Hfirst j m'); [lia | exact Hm].
Qed.

Lemma not_accepting (ls : Storage) :
  ~ accepting ls <-> setItem_throws ls (setItemCalls ls) = true.
Proof. unfold accepting. destruct (setItem_throws ls (setItemCalls ls)); split; congruence. Qed.

Lemma constructor_saveNotes (notes : list Note) (ls : Storage) :
  accepting ls ->
  NoteManager.constructor (NoteManager.saveNotes notes ls) = notes.
Proof.
  unfold accepting, NoteManager.constructor, NoteManager.saveNotes,
    StorageManager.load, StorageManager.save.
  intros ->. cbn [snd items]. rewrite lookup_insert_eq. reflexivity.
Qed.

Lemma saveNotes_refused (notes : list Note) (ls : Storage) :
  ~ accepting ls -> NoteManager.saveNotes notes ls = called ls.
Proof.
  intros Hthrows%not_accepting.
  unfold NoteManager.saveNotes, StorageManager.save. rewrite Hthrows. reflexivity.
Qed.

Lemma saveNotes_calls (notes : list Note) (ls : Storage) :
  setItemCalls (NoteManager.saveNotes notes ls) = S (setItemCalls ls)
  /\ setItem_throws (NoteManager.saveNotes notes ls) = setItem_throws ls.
Proof.
  unfold NoteManager.saveNotes, StorageManager.save.
  destruct (setItem_throws ls (setItemCalls ls)); split; reflexivity.
Qed.

Lemma saveNotes_saved (notes : list Note) (ls : Storage) :
  saved notes ls (NoteManager.saveNotes notes ls).
Proof.
  destruct (saveNotes_calls notes ls) as [Hcalls Horacle].
  split; [exact Hcalls|]. split; [exact Horacle|]. split.
  - apply constructor_saveNotes.
  - intros Hrefused. rewrite saveNotes_refused by exact Hrefused. reflexivity.
Qed.

Lemma filter_other_ids (id : Z) (notes : list Note) :
  (forall n, n ∈ notes -> n_id n <> id) ->
  filter (fun note => n_id note <> id) notes = notes.
Proof.
  intros Hno. induction notes as [|n rest IH]; [reflexivity|].
  rewrite filter_cons_True by (apply Hno; left).
  rewrite IH; [reflexivity|]. intros m Hm. apply Hno. right. exact Hm.
Qed.

(** X1.  storage.js, [save] and [load].  When [setItem] stores what it is
    given, [save] returns true and a load of the key returns what was saved,
    whatever the default; when [setItem] raises, [save] returns false and
    every item is as it was.  Either way one [setItem] call was made and a
    load of any other key returns what it returned before. *)
Theorem save_then_load (key other : string) (data defaultValue : list Note)
    (ls : Storage) :
  let '(ok, ls') := StorageManager.save key data ls in
  (accepting ls ->
     ok = true /\ StorageManager.load key defaultValue ls' = data)
  /\ (~ accepting ls -> ok = false /\ items ls' = items ls)
  /\ (other <> key ->
      StorageManager.load other defaultValue ls'
      = StorageManager.load other defaultValue ls)
  /\ setItemCalls ls' = S (setItemCalls ls).
Proof.
  unfold StorageManager.save, StorageManager.load, accepting.
  destruct (setItem_throws ls (setItemCalls ls)); cbn [items called setItemCalls].
  - split; [discriminate|]. split; [split; reflexivity|]. split; reflexivity.
  - split; [intros _; split; [reflexivity|]; rewrite lookup_insert_eq; reflexivity|].
    split; [congruence|]. split; [|reflexivity].
    intros Hne. rewrite lookup_insert_ne; [reflexivity|].
    intros Heq. apply Hne. symmetry.
    apply (String.app_inj StorageManager.getAppNamespace) in Heq.
    apply (String.app_inj "_") in Heq. exact Heq.
Qed.

(** X2.  noteManager.js, [createNote].  The new note is put in front of the
    notes there were and the list is saved (it is in the storage unless
    [setItem] raised, and in the list either way); the note has three
    toggles, the first one open, titled Section 1 to Section 3; and when the
    clock does not run backwards during the call, the three toggle ids are
    pairwise distinct. *)
Theorem createNote_fresh_note (reading : nat -> Z) (notes : list Note)
    (ls : Storage) :
  (forall i j, (i <= j)%nat -> reading i <= reading j) ->
  let '(note, notes', ls') := NoteManager.createNote reading notes ls in
  notes' = note :: notes
  /\ saved notes' ls ls'
  /\ NoDup (t_id <$> n_toggles note)
  /\ t_isOpen <$> n_toggles note = [true; false; false]
  /\ t_title <$> n_toggles note
     = [str "Section 1"; str "Section 2"; str "Section 3"]
  /\ t_content <$> n_toggles note = [[]; []; []].
Proof.
  intros Hmono. unfold NoteManager.createNote. cbv beta iota zeta.
  split; [reflexivity|]. split; [apply saveNotes_saved|].
  split; [|repeat split].
  pose proof (Hmono 0%nat 1%nat ltac:(lia)).
  pose proof (Hmono 1%nat 2%nat ltac:(lia)).
  cbn [n_toggles seq fmap list_fmap t_id].
  repeat constructor; rewrite ?elem_of_cons, ?elem_of_nil; intros Hin;
    repeat destruct Hin as [Hin|Hin]; lia.
Qed.

Lemma deleteNote_elem_of (noteId : Z) (notes : list Note) (n : Note) :
  n ∈ filter (fun note => n_id note <> noteId) notes
  <-> n ∈ notes /\ n_id n <> noteId.
Proof. rewrite list_elem_of_filter. tauto. Qed.

(** X3.  noteManager.js, [deleteNote].  Every note with the id is removed, also
    when several have it; the other notes stay, in their order; and the
    list that is left is saved. *)
Theorem deleteNote_removes_all (noteId : Z) (notes : list Note) (ls : Storage) :
  let '(notes', ls') := NoteManager.deleteNote noteId notes ls in
  NoteManager.findIndex noteId notes' = None
  /\ (forall n, n ∈ notes' <-> n ∈ notes /\ n_id n <> noteId)
  /\ sublist notes' notes
  /\ saved notes' ls ls'.
Proof.
  unfold NoteManager.deleteNote. cbv beta iota zeta. split; [|split; [|split]].
  - apply findIndex_None. intros n [Hid _]%list_elem_of_filter. exact Hid.
  - apply deleteNote_elem_of.
  - apply sublist_filter.
  - apply saveNotes_saved.
Qed.

(** X4.  noteManager.js, [deleteNote] against [updateNote].  Deleting an id that
    no note has leaves the list as it was and still calls [setItem] with it
    (the item app1_notes then holds the list, unless the call raised), where
    [updateNote] of an unknown id makes no call. *)
Theorem deleteNote_unknown_id_still_saves (noteId : Z) (notes : list Note)
    (ls : Storage) :
  (forall n, n ∈ notes -> n_id n <> noteId) ->
  let '(notes', ls') := NoteManager.deleteNote noteId notes ls in
  notes' = notes
  /\ setItemCalls ls' = S (setItemCalls ls)
  /\ (accepting ls -> items ls' !! "app1_notes"%string = Some notes)
  /\ (~ accepting ls -> items ls' = items ls).
Proof.
  intros Hno. unfold NoteManager.deleteNote. cbv beta iota zeta.
  rewrite filter_other_ids by exact Hno.
  split; [reflexivity|]. split; [apply saveNotes_calls|]. split.
  - unfold accepting, NoteManager.saveNotes, StorageManager.save.
    intros ->. cbn [snd items]. apply lookup_insert_eq.
  - intros Hrefused. rewrite saveNotes_refused by exact Hrefused. reflexivity.
Qed.

(** X5.  noteManager.js, [updateNote] of a note whose id is in the list.  The
    first note with that id is replaced by the note passed in, stamped with
    the time of the call; every other position, the length of the list and
    the order of the ids are as before, and the new list is saved. *)
Theorem updateNote_known_id (now : Z) (note : Note) (notes : list Note)
    (ls : Storage) (index : nat) :
  NoteManager.findIndex (n_id note) notes = Some index ->
  let '(note', notes', ls') := NoteManager.updateNote now note notes ls in
  note' = set_n_updated now note
  /\ notes' !! index = Some note'
  /\ (forall j, j <> index -> notes' !! j = notes !! j)
  /\ n_id <$> notes' = n_id <$> notes
  /\ saved notes' ls ls'.
Proof.
  intros Hfind. unfold NoteManager.updateNote. cbv zeta.
  change (n_id (set_n_updated now note)) with (n_id note). rewrite Hfind.
  destruct (findIndex_Some _ _ _ Hfind) as (n & Hn & Hid & _).
  split; [reflexivity|]. split; [|split; [|split]].
  - apply list_lookup_insert_eq. eapply lookup_lt_Some, Hn.
  - intros j Hj. apply list_lookup_insert_ne. congruence.
  - rewrite list_fmap_insert. apply list_insert_id.
    rewrite list_lookup_fmap, Hn. cbn. rewrite Hid. reflexivity.
  - apply saveNotes_saved.
Qed.

(** X6.  noteManager.js, [createNote] then [deleteNote].  Deleting the note just
    created gives back the list there was before, provided none of its notes
    had the id the new note was given; and that list is saved by the second
    of the two [setItem] calls made. *)
Theorem createNote_then_deleteNote (reading : nat -> Z) (notes : list Note)
    (ls : Storage) :
  (forall n, n ∈ notes -> n_id n <> reading 3%nat) ->
  let '(note, notes', ls') := NoteManager.createNote reading notes ls in
  fst (NoteManager.deleteNote (n_id note) notes' ls') = notes
  /\ saved notes ls' (snd (NoteManager.deleteNote (n_id note) notes' ls'))
  /\ setItemCalls ls' = S (setItemCalls ls).
Proof.
  intros Hfresh. unfold NoteManager.createNote, NoteManager.deleteNote.
  cbv beta iota zeta. cbn [fst snd n_id].
  rewrite filter_cons_False by (cbn; intros Hne; apply Hne; reflexivity).
  rewrite filter_other_ids by exact Hfresh.
  split; [reflexivity|]. split; [apply saveNotes_saved | apply saveNotes_calls].
Qed.

Lemma includes_spec (s term : JSString) :
  NoteManager.includes s term = true <-> NoteManager.occurs_in term s.
Proof.
  unfold NoteManager.occurs_in. induction s as [|c rest IH].
  - cbn [NoteManager.includes]. rewrite orb_false_r, bool_decide_eq_true.
    split.
    + intros [k Hk]. symmetry in Hk. apply app_eq_nil in Hk as [-> ->].
      exists [], []. reflexivity.
    + intros (before & after & Heq). symmetry in Heq.
      apply app_eq_nil in Heq as [_ Heq]. apply app_eq_nil in Heq as [-> _].
      exists []. reflexivity.
  - cbn [NoteManager.includes]. rewrite orb_true_iff, bool_decide_eq_true, IH.
    split.
    + intros [[k Hk]|(before & after & ->)].
      * exists [], k. exact Hk.
      * exists (c :: before), after. reflexivity.
    + intros ([|c' before] & after & Heq).
      * left. exists after. exact Heq.
      * right. injection Heq as -> ->. eauto.
Qed.

Lemma getNotes_nil (toLowerCase : JSString -> JSString) (notes : list Note) :
  NoteManager.getNotes toLowerCase [] notes = notes.
Proof.
  unfold NoteManager.getNotes. induction notes as [|n rest IH]; [reflexivity|].
  rewrite filter_cons_True.
  - rewrite IH. reflexivity.
  - apply orb_true_iff. left. apply includes_spec.
    exists [], (toLowerCase (n_title n)). reflexivity.
Qed.

Lemma includes_nil (s : JSString) : NoteManager.includes s [] = true.
Proof. apply includes_spec. exists [], s. reflexivity. Qed.

Lemma holds_string_inj (key s s' : JSString) (v : NoteImport.JSON) :
  NoteImport.holds_string key s v -> NoteImport.holds_string key s' v -> s = s'.
Proof. intros (fields & -> & Hs) (fields' & [= <-] & Hs'). congruence. Qed.

Lemma lower_get (toLowerCase : JSString -> JSString) (key : JSString)
    (v : NoteImport.JSON) (lowered : JSString) :
  (property ← NoteImport.get key v; NoteImport.lower toLowerCase property)
  = Some lowered
  <-> exists s, NoteImport.holds_string key s v /\ lowered = toLowerCase s.
Proof.
  unfold NoteImport.holds_string. split.
  - destruct v as [| | | | |fields]; try discriminate. cbn.
    destruct (NoteImport.field key fields) as [[| | |s| |]|] eqn:Hs;
      try discriminate.
    intros [= <-]. exists s. split; [exists fields; auto | reflexivity].
  - intros (s & (fields & -> & Hs) & ->). cbn. rewrite Hs. reflexivity.
Qed.

Lemma lower_get_holds (toLowerCase : JSString -> JSString) (key s : JSString)
    (v : NoteImport.JSON) :
  NoteImport.holds_string key s v ->
  (property ← NoteImport.get key v; NoteImport.lower toLowerCase property)
  = Some (toLowerCase s).
Proof. intros Hs. apply lower_get. eauto. Qed.

(** With nothing searched for, a note is listed or the search raises. *)
Lemma note_matches_nil (toLowerCase : JSString -> JSString) (note : NoteImport.JSON) :
  (NoteImport.note_matches toLowerCase [] note = Some true
   /\ NoteImport.listed_by_default note)
  \/ (NoteImport.note_matches toLowerCase [] note = None
      /\ ~ NoteImport.listed_by_default note).
Proof.
  unfold NoteImport.note_matches, NoteImport.listed_by_default.
  destruct (property ← NoteImport.get (str "title") note;
            NoteImport.lower toLowerCase property) as [lowered|] eqn:Htitle.
  2:{ right. split.
      - destruct (NoteImport.get (str "title") note) as [property|];
          [|reflexivity].
        cbn in Htitle |- *. rewrite Htitle. reflexivity.
      - intros (title & toggles & Ht & _).
        rewrite (lower_get_holds toLowerCase _ title) in Htitle by exact Ht.
        discriminate. }
  apply lower_get in Htitle as (title & Ht & ->).
  destruct Ht as (fields & -> & Ht).
  cbn [NoteImport.get mbind option_bind]. rewrite Ht.
  cbn [NoteImport.lower mbind option_bind].
  rewrite includes_nil.
  destruct (NoteImport.field (str "toggles") fields) as [[| | | |toggles|]|] eqn:Hg;
    try (right; split; [reflexivity | intros (? & ? & _ & [=] & _)]).
  destruct toggles as [|toggle rest].
  - left. split; [reflexivity|].
    exists title, []. split; [exists fields; auto|]. split; [reflexivity|].
    intros toggle [=].
  - cbn [NoteImport.some]. unfold NoteImport.toggle_matches.
    destruct (property ← NoteImport.get (str "title") toggle;
              NoteImport.lower toLowerCase property) as [lowered|] eqn:Htt.
    + left. apply lower_get in Htt as (t & Htt & ->).
      destruct Htt as (tf & -> & Htt).
      cbn [NoteImport.get mbind option_bind]. rewrite Htt.
      cbn [NoteImport.lower mbind option_bind].
      rewrite includes_nil. split; [reflexivity|].
      exists title, (NoteImport.JObject tf :: rest).
      split; [exists fields; auto|]. split; [reflexivity|].
      intros toggle [= <-]. exists t, tf. auto.
    + right. split.
      * destruct (NoteImport.get (str "title") toggle) as [property|];
          [|reflexivity].
        cbn in Htt |- *. rewrite Htt. reflexivity.
      * intros (title' & toggles' & _ & [= <-] & Hhead).
        destruct (Hhead toggle eq_refl) as (t & Hs).
        rewrite (lower_get_holds toLowerCase _ t) in Htt by exact Hs.
        discriminate.
Qed.

(** X7.  noteManager.js, [getNotes].  With the empty search term, the default,
    the method returns every note of the list or raises a TypeError: it
    returns when every note has a string for a title and an array for
    [toggles] that is empty or begins with an object whose title is a
    string, whatever else the notes hold and whatever the browser's
    [toLowerCase] makes of the strings; and it raises when some note is not
    so, as a note that was imported with a number for a title. *)
Theorem getNotes_empty_term (toLowerCase : JSString -> JSString)
    (notes : list NoteImport.JSON) :
  (Forall NoteImport.listed_by_default notes ->
   NoteImport.getNotes toLowerCase [] notes = Some notes)
  /\ (~ Forall NoteImport.listed_by_default notes ->
      NoteImport.getNotes toLowerCase [] notes = None)
  /\ (forall fields x,
        NoteImport.field (str "title") fields = Some (NoteImport.JNumber x) ->
        ~ NoteImport.listed_by_default (NoteImport.JObject fields)).
Proof.
  unfold NoteImport.getNotes. split; [|split].
  - induction 1 as [|note rest Hnote _ IH]; [reflexivity|].
    cbn [NoteImport.filter_by].
    destruct (note_matches_nil toLowerCase note) as [[-> _]|[_ Hno]];
      [|contradiction].
    rewrite IH. reflexivity.
  - induction notes as [|note rest IH]; intros Hno.
    + exfalso. apply Hno. constructor.
    + cbn [NoteImport.filter_by].
      destruct (note_matches_nil toLowerCase note) as [[-> Hnote]|[-> _]];
        [|reflexivity].
      cbn [mbind option_bind]. rewrite IH; [reflexivity|].
      intros Hrest. apply Hno. constructor; assumption.
  - intros fields x Hx (title & toggles & (fields' & [= <-] & Ht) & _).
    congruence.
Qed.

Lemma toggle_matches_spec (toLowerCase : JSString -> JSString)
    (searchTerm : JSString) (toggle : NoteImport.JSON) :
  NoteImport.toggle_of_strings toggle ->
  exists b,
    NoteImport.toggle_matches toLowerCase searchTerm toggle = Some b
    /\ (b = true
        <-> exists text,
              (NoteImport.holds_string (str "title") text toggle
               \/ NoteImport.holds_string (str "content") text toggle)
              /\ NoteManager.occurs_in searchTerm (toLowerCase text)).
Proof.
  intros (title & content & Ht & Hc).
  pose proof Ht as (fields & -> & Hft). pose proof Hc as (? & [= <-] & Hfc).
  unfold NoteImport.toggle_matches.
  cbn [NoteImport.get mbind option_bind]. rewrite Hft.
  cbn [NoteImport.lower mbind option_bind].
  destruct (NoteManager.includes (toLowerCase title) searchTerm) eqn:Hi.
  - exists true. split; [reflexivity|]. split; [|reflexivity].
    intros _. exists title. split; [left; exact Ht | apply includes_spec, Hi].
  - rewrite Hfc. cbn [NoteImport.lower mbind option_bind].
    eexists. split; [reflexivity|]. rewrite includes_spec. split.
    + intros Hocc. exists content. split; [right; exact Hc | exact Hocc].
    + intros (text & [Hs|Hs] & Hocc).
      * rewrite (holds_string_inj _ _ _ _ Hs Ht) in Hocc.
        apply includes_spec in Hocc. congruence.
      * rewrite (holds_string_inj _ _ _ _ Hs Hc) in Hocc. exact Hocc.
Qed.

Lemma some_spec (f : NoteImport.JSON -> option bool) (items : list NoteImport.JSON) :
  (forall item, item ∈ items -> is_Some (f item)) ->
  exists b,
    NoteImport.some f items = Some b
    /\ (b = true <-> exists item, item ∈ items /\ f item = Some true).
Proof.
  induction items as [|item rest IH]; intros Hall; cbn [NoteImport.some].
  - exists false. split; [reflexivity|]. split; [discriminate|].
    intros (item & Hin & _). inversion Hin.
  - destruct (Hall item ltac:(left)) as [[|] Hitem]; rewrite Hitem.
    + exists true. split; [reflexivity|]. split; [|reflexivity].
      intros _. exists item. split; [left | exact Hitem].
    + destruct IH as (b & -> & Hb); [intros x Hx; apply Hall; right; exact Hx|].
      exists b. split; [reflexivity|]. rewrite Hb. split.
      * intros (x & Hx & Hfx). exists x. split; [right; exact Hx | exact Hfx].
      * intros (x & Hx & Hfx). apply elem_of_cons in Hx as [->|Hx];
          [congruence | eauto].
Qed.

Lemma note_matches_spec (toLowerCase : JSString -> JSString)
    (searchTerm : JSString) (note : NoteImport.JSON) :
  NoteImport.note_of_strings note ->
  exists b,
    NoteImport.note_matches toLowerCase searchTerm note = Some b
    /\ (b = true <-> NoteImport.found_in toLowerCase searchTerm note).
Proof.
  intros (title & toggles & Ht & Hg & Hshaped).
  pose proof Ht as (fields & -> & Hft).
  unfold NoteImport.note_matches, NoteImport.found_in.
  rewrite Hg. cbn [NoteImport.get mbind option_bind]. rewrite Hft.
  cbn [NoteImport.lower mbind option_bind].
  destruct (some_spec (NoteImport.toggle_matches toLowerCase searchTerm) toggles)
    as (b & -> & Hb).
  { intros toggle Hin. rewrite Forall_forall in Hshaped.
    destruct (toggle_matches_spec toLowerCase searchTerm toggle (Hshaped _ Hin))
      as (? & -> & _). eauto. }
  cbn [mbind option_bind]. eexists. split; [reflexivity|].
  rewrite orb_true_iff, includes_spec, Hb. split.
  - intros [Hocc|(toggle & Hin & Hm)]; [left; eauto|].
    right. rewrite Forall_forall in Hshaped.
    destruct (toggle_matches_spec toLowerCase searchTerm toggle (Hshaped _ Hin))
      as (b' & Hb' & Hiff).
    rewrite Hb' in Hm. injection Hm as ->.
    destruct (proj1 Hiff eq_refl) as (text & Hs & Hocc).
    exists toggles, toggle, text. auto.
  - intros [(title' & Hs & Hocc)|(toggles' & toggle & text & [= <-] & Hin & Hs & Hocc)].
    + left. rewrite (holds_string_inj _ _ _ _ Ht Hs). exact Hocc.
    + right. exists toggle. split; [exact Hin|]. rewrite Forall_forall in Hshaped.
      destruct (toggle_matches_spec toLowerCase searchTerm toggle (Hshaped _ Hin))
        as (b' & -> & Hiff).
      f_equal. apply Hiff. eauto.
Qed.

Lemma filter_by_spec (f : NoteImport.JSON -> option bool)
    (items : list NoteImport.JSON) :
  (forall item, item ∈ items -> is_Some (f item)) ->
  exists found,
    NoteImport.filter_by f items = Some found
    /\ sublist found items
    /\ forall x, x ∈ found <-> x ∈ items /\ f x = Some true.
Proof.
  induction items as [|item rest IH]; intros Hall; cbn [NoteImport.filter_by].
  - exists []. split; [reflexivity|]. split; [constructor|].
    intros x. split; [intros Hin; inversion Hin | intros [Hin _]; inversion Hin].
  - destruct IH as (found & -> & Hsub & Hfound);
      [intros x Hx; apply Hall; right; exact Hx|].
    destruct (Hall item ltac:(left)) as [keep Hitem]. rewrite Hitem.
    cbn [mbind option_bind]. eexists. split; [reflexivity|].
    destruct keep.
    + split; [constructor; exact Hsub|]. intros x.
      rewrite !elem_of_cons, Hfound. split.
      * intros [->|[Hin Hx]]; auto.
      * intros [[->|Hin] Hx]; auto.
    + split; [constructor; exact Hsub|]. intros x.
      rewrite elem_of_cons, Hfound. split.
      * intros [Hin Hx]. auto.
      * intros [[->|Hin] Hx]; [congruence | auto].
Qed.

(** What a value that stands for a note of the editor matches is what the
    note matches. *)
Lemma note_matches_stands_for (toLowerCase : JSString -> JSString)
    (searchTerm : JSString) (note : Note) (v : NoteImport.JSON) :
  NoteImport.stands_for note v ->
  NoteImport.note_matches toLowerCase searchTerm v
  = Some (NoteManager.includes (toLowerCase (n_title note)) searchTerm
          || existsb
               (fun toggle =>
                  NoteManager.includes (toLowerCase (t_title toggle)) searchTerm
                  || NoteManager.includes (toLowerCase (t_content toggle)) searchTerm)
               (n_toggles note)).
Proof.
  intros ((fields & -> & Hft) & toggles & Hg & Htoggles).
  unfold NoteImport.note_matches. rewrite Hg.
  cbn [NoteImport.get mbind option_bind]. rewrite Hft.
  cbn [NoteImport.lower mbind option_bind].
  assert (Hsome : NoteImport.some (NoteImport.toggle_matches toLowerCase searchTerm)
                    toggles
                  = Some (existsb
                            (fun toggle =>
                               NoteManager.includes (toLowerCase (t_title toggle))
                                 searchTerm
                               || NoteManager.includes
                                    (toLowerCase (t_content toggle)) searchTerm)
                            (n_toggles note))).
  { clear Hg.
    induction Htoggles as [|toggle tv typed rest [Ht Hc] _ IH]; [reflexivity|].
    cbn [NoteImport.some existsb]. unfold NoteImport.toggle_matches at 1.
    destruct Ht as (tf & -> & Ht). destruct Hc as (? & [= <-] & Hc).
    cbn [NoteImport.get mbind option_bind]. rewrite Ht.
    cbn [NoteImport.lower mbind option_bind].
    destruct (NoteManager.includes (toLowerCase (t_title toggle)) searchTerm);
      [reflexivity|].
    rewrite Hc. cbn [NoteImport.lower mbind option_bind orb].
    destruct (NoteManager.includes (toLowerCase (t_content toggle)) searchTerm);
      [reflexivity | exact IH]. }
  rewrite Hsome. reflexivity.
Qed.

(** On values that stand for notes of the editor, [getNotes] on the list as
    it is returns the values of the notes that [NoteManager.getNotes]
    returns. *)
Lemma getNotes_of_strings (toLowerCase : JSString -> JSString)
    (searchTerm : JSString) (notes : list Note) (stored : list NoteImport.JSON) :
  Forall2 NoteImport.stands_for notes stored ->
  exists found,
    NoteImport.getNotes toLowerCase searchTerm stored = Some found
    /\ Forall2 NoteImport.stands_for
         (NoteManager.getNotes toLowerCase searchTerm notes) found.
Proof.
  unfold NoteImport.getNotes, NoteManager.getNotes.
  induction 1 as [|note v notes stored Hnote _ (found & IH & Hfound)].
  - exists []. split; [reflexivity | constructor].
  - cbn [NoteImport.filter_by].
    rewrite (note_matches_stands_for toLowerCase searchTerm note v Hnote), IH.
    cbn [mbind option_bind]. eexists. split; [reflexivity|].
    destruct (_ || _) eqn:Hkeep.
    + rewrite filter_cons_True by exact Hkeep. constructor; assumption.
    + rewrite filter_cons_False by (rewrite Hkeep; discriminate). exact Hfound.
Qed.

(** X8.  noteManager.js, [getNotes].  On a list whose notes hold strings for
    titles and contents, the method raises nothing, and the notes returned
    are those of the list, in the order of the list, in which the search
    term occurs: in the lower-cased title of the note, or in the lower-cased
    title or content of one of its toggles.  For notes of the editor these
    are the notes [NoteManager.getNotes] returns. *)
Theorem getNotes_finds (toLowerCase : JSString -> JSString)
    (searchTerm : JSString) (notes : list NoteImport.JSON) :
  Forall NoteImport.note_of_strings notes ->
  exists found,
    NoteImport.getNotes toLowerCase searchTerm notes = Some found
    /\ sublist found notes
    /\ (forall note,
          note ∈ found
          <-> note ∈ notes /\ NoteImport.found_in toLowerCase searchTerm note)
    /\ (forall typed,
          Forall2 NoteImport.stands_for typed notes ->
          Forall2 NoteImport.stands_for
            (NoteManager.getNotes toLowerCase searchTerm typed) found).
Proof.
  intros Hnotes. rewrite Forall_forall in Hnotes.
  destruct (filter_by_spec (NoteImport.note_matches toLowerCase searchTerm) notes)
    as (found & Hfound & Hsub & Hin).
  { intros note Hnote.
    destruct (note_matches_spec toLowerCase searchTerm note (Hnotes _ Hnote))
      as (b & -> & _). eauto. }
  exists found. split; [exact Hfound|]. split; [exact Hsub|]. split.
  - intros note. rewrite Hin. split.
    + intros [Hnote Hm]. split; [exact Hnote|].
      destruct (note_matches_spec toLowerCase searchTerm note (Hnotes _ Hnote))
        as (b & Hb & Hiff).
      apply Hiff. congruence.
    + intros [Hnote Hf]. split; [exact Hnote|].
      destruct (note_matches_spec toLowerCase searchTerm note (Hnotes _ Hnote))
        as (b & -> & Hiff).
      f_equal. apply Hiff, Hf.
  - intros typed Htyped.
    destruct (getNotes_of_strings toLowerCase searchTerm typed notes Htyped)
      as (found' & Hfound' & Hstands).
    unfold NoteImport.getNotes in Hfound'. congruence.
Qed.

(** *** The reentrancy guard *)

(** C8.  When the debounce timer of a toggle request fires while the
    reentrancy guard is held, its callback returns at the guard: the world is
    left exactly as it was, so the history, the note, the rendered regions
    and the pending frame callbacks and timers are the same, and no second
    reconciliation is scheduled. *)
Theorem reentrant_toggle_dropped (toggleId : Z) (w : World) :
  isRestoring w = true ->
  let w' := run_callback (ToggleDebounceCb toggleId) w in
  w' = w
  /\ HistoryManager.undoStack (history w') = HistoryManager.undoStack (history w)
  /\ currentNote w' = currentNote w
  /\ renders w' = renders w
  /\ frames w' = frames w
  /\ timers w' = timers w.
Proof.
  intros Hguard. simpl.
  assert (Heq : _handleToggleSection toggleId w = w).
  { unfold _handleToggleSection. rewrite Hguard.
    destruct (currentNote w); reflexivity. }
  rewrite Heq. repeat split; reflexivity.
Qed.

(** *** The restoration passes *)

Lemma write_scrollTop_other (i j : nat) (v : Z) (w : World) (ta : Textarea) :
  i <> j -> textareas w !! i = Some ta ->
  textareas (write_scrollTop j v w) !! i = Some ta.
Proof.
  intros Hne Hi. simpl. rewrite list_lookup_alter_ne by congruence. exact Hi.
Qed.

Lemma write_scrollTop_nodes (j : nat) (v : Z) (w : World) :
  ta_node <$> textareas (write_scrollTop j v w) = ta_node <$> textareas w.
Proof.
  simpl. apply list_eq. intros i.
  rewrite !list_lookup_fmap.
  destruct (decide (j = i)) as [->|Hne].
  - rewrite list_lookup_alter_eq. destruct (textareas w !! i); reflexivity.
  - rewrite list_lookup_alter_ne by exact Hne. reflexivity.
Qed.

Lemma querySelector_Some (id : Z) (w : World) (j : nat) (textarea : Textarea) :
  querySelector id w = Some (j, textarea) ->
  textareas w !! j = Some textarea /\ ta_toggleId textarea = id.
Proof.
  unfold querySelector. intros (Hj & Hid & _)%list_find_Some. auto.
Qed.

(** Two positions of the document that hold the same element are one. *)
Lemma same_node_same_region (w : World) (i j : nat) (a b : Textarea) :
  NoDup (ta_node <$> textareas w) ->
  textareas w !! i = Some a -> textareas w !! j = Some b ->
  ta_node a = ta_node b -> i = j.
Proof.
  intros Hnd Hi Hj Hn.
  apply (NoDup_lookup _ i j (ta_node a) Hnd).
  - rewrite list_lookup_fmap, Hi. reflexivity.
  - rewrite list_lookup_fmap, Hj, Hn. reflexivity.
Qed.

(** Pass 1 leaves a stale region as it finds it, and requests no deferred
    write to its element. *)
Lemma restore_loop_stale (cl : RestoreClosure) (i : nat) (ta : Textarea)
    (entries : list (Z * ScrollState)) :
  (forall state, (ta_toggleId ta, state) ∈ entries ->
     _hashContent (value ta) <> ss_contentHash state) ->
  forall (k : nat) (w : World),
    NoDup (ta_node <$> textareas w) ->
    textareas w !! i = Some ta ->
    forall w', (restore_loop cl k entries w = Normal w'
                \/ restore_loop cl k entries w = Throw w') ->
      textareas w' !! i = Some ta
      /\ (forall state, TargetRestoreCb (ta_node ta) state ∈ frames w' ->
            TargetRestoreCb (ta_node ta) state ∈ frames w).
Proof.
  induction entries as [|[id state] rest IH]; intros Hstale k w Hnd Hi w' Hrun.
  - simpl in Hrun. destruct Hrun as [[= <-]|[=]]. auto.
  - simpl in Hrun. destruct (throws PhPass1 k).
    { destruct Hrun as [[=]|[= <-]]. auto. }
    assert (Hrest : forall st, (ta_toggleId ta, st) ∈ rest ->
                      _hashContent (value ta) <> ss_contentHash st).
    { intros st Hin. apply Hstale. right. exact Hin. }
    destruct (querySelector id w) as [[j textarea]|] eqn:Hq;
      [|exact (IH Hrest _ _ Hnd Hi _ Hrun)].
    apply querySelector_Some in Hq as [Hj Hid]. subst id.
    destruct (decide (_hashContent (value textarea) = ss_contentHash state))
      as [Hhash|_]; [|exact (IH Hrest _ _ Hnd Hi _ Hrun)].
    assert (Hother : ta_node textarea <> ta_node ta).
    { intros Hn.
      assert (j = i) as -> by (eapply same_node_same_region; eauto).
      assert (textarea = ta) as -> by congruence.
      apply (Hstale state); [left | exact Hhash]. }
    assert (Hji : i <> j).
    { intros ->. apply Hother. congruence. }
    destruct (decide (ta_toggleId textarea = cl_toggleId cl)) as [_|_].
    + destruct (cl_toggle_isOpen cl);
        [|exact (IH Hrest _ _ Hnd Hi _ Hrun)].
      destruct (IH Hrest (S k)
                  (requestAnimationFrame (TargetRestoreCb (ta_node textarea) state) w)
                  Hnd Hi _ Hrun) as [Hta Hfr].
      split; [exact Hta|]. intros st Hin.
      specialize (Hfr st Hin). simpl in Hfr.
      apply elem_of_app in Hfr as [Hfr|Hfr]; [exact Hfr|].
      apply list_elem_of_singleton in Hfr. congruence.
    + refine (IH Hrest _ _ _ _ _ Hrun).
      * rewrite write_scrollTop_nodes. exact Hnd.
      * apply write_scrollTop_other; assumption.
Qed.

(** Pass 2 leaves a stale region as it finds it. *)
Lemma final_loop_stale (cl : RestoreClosure) (i : nat) (ta : Textarea)
    (entries : list (Z * ScrollState)) :
  (forall state, (ta_toggleId ta, state) ∈ entries ->
     _hashContent (value ta) <> ss_contentHash state) ->
  forall (k : nat) (w : World),
    textareas w !! i = Some ta ->
    forall w', (final_loop cl k entries w = Normal w'
                \/ final_loop cl k entries w = Throw w') ->
      textareas w' !! i = Some ta.
Proof.
  induction entries as [|[id state] rest IH]; intros Hstale k w Hi w' Hrun.
  - simpl in Hrun. destruct Hrun as [[= <-]|[=]]. exact Hi.
  - simpl in Hrun. destruct (throws PhPass2 k).
    { destruct Hrun as [[=]|[= <-]]. exact Hi. }
    assert (Hrest : forall st, (ta_toggleId ta, st) ∈ rest ->
                      _hashContent (value ta) <> ss_contentHash st).
    { intros st Hin. apply Hstale. right. exact Hin. }
    destruct (decide (id <> cl_toggleId cl)) as [_|_];
      [|exact (IH Hrest _ _ Hi _ Hrun)].
    destruct (querySelector id w) as [[j textarea]|] eqn:Hq;
      [|exact (IH Hrest _ _ Hi _ Hrun)].
    apply querySelector_Some in Hq as [Hj Hid]. subst id.
    destruct (decide (_hashContent (value textarea) = ss_contentHash state))
      as [Hhash|_]; [|exact (IH Hrest _ _ Hi _ Hrun)].
    assert (Hji : i <> j).
    { intros ->. assert (textarea = ta) as -> by congruence.
      apply (Hstale state); [left | exact Hhash]. }
    refine (IH Hrest _ _ _ _ Hrun).
    apply write_scrollTop_other; assumption.
Qed.

(** A loop is left by an exception only where the oracle says so. *)
Lemma restore_loop_Throw (cl : RestoreClosure) (entries : list (Z * ScrollState)) :
  forall (k : nat) (w w' : World),
    restore_loop cl k entries w = Throw w' ->
    exists k', (k <= k' < k + length entries)%nat /\ throws PhPass1 k' = true.
Proof.
  induction entries as [|[id state] rest IH]; intros k w w' Hrun; simpl in Hrun.
  - discriminate.
  - destruct (throws PhPass1 k) eqn:Hk.
    + exists k. simpl. split; [lia | exact Hk].
    + apply IH in Hrun as (k' & Hk' & Ht). exists k'. simpl. split; [lia | exact Ht].
Qed.

Lemma final_loop_Throw (cl : RestoreClosure) (entries : list (Z * ScrollState)) :
  forall (k : nat) (w w' : World),
    final_loop cl k entries w = Throw w' ->
    exists k', (k <= k' < k + length entries)%nat /\ throws PhPass2 k' = true.
Proof.
  induction entries as [|[id state] rest IH]; intros k w w' Hrun; simpl in Hrun.
  - discriminate.
  - destruct (throws PhPass2 k) eqn:Hk.
    + exists k. simpl. split; [lia | exact Hk].
    + apply IH in Hrun as (k' & Hk' & Ht). exists k'. simpl. split; [lia | exact Ht].
Qed.

(** ... and it is left there. *)
Lemma restore_loop_faulty (cl : RestoreClosure) (entries : list (Z * ScrollState)) :
  forall (k k' : nat) (w : World),
    (k <= k' < k + length entries)%nat -> throws PhPass1 k' = true ->
    exists w', restore_loop cl k entries w = Throw w'.
Proof.
  induction entries as [|[id state] rest IH]; intros k k' w Hk Ht; simpl in *.
  - lia.
  - destruct (throws PhPass1 k) eqn:Hthrow; [eauto|].
    apply (IH (S k) k'); [|exact Ht].
    assert (k <> k') by congruence. lia.
Qed.

Lemma final_loop_faulty (cl : RestoreClosure) (entries : list (Z * ScrollState)) :
  forall (k k' : nat) (w : World),
    (k <= k' < k + length entries)%nat -> throws PhPass2 k' = true ->
    exists w', final_loop cl k entries w = Throw w'.
Proof.
  induction entries as [|[id state] rest IH]; intros k k' w Hk Ht; simpl in *.
  - lia.
  - destruct (throws PhPass2 k) eqn:Hthrow; [eauto|].
    apply (IH (S k) k'); [|exact Ht].
    assert (k <> k') by congruence. lia.
Qed.

Lemma capture_loop_faulty (toggles : list Toggle) :
  forall (k k' : nat) (w : World) (scrollPositions : list (Z * ScrollState)),
    (k <= k' < k + length toggles)%nat -> throws PhCapture k' = true ->
    capture_loop k toggles w scrollPositions = None.
Proof.
  induction toggles as [|toggle rest IH]; intros k k' w sp Hk Ht; simpl in *.
  - lia.
  - destruct (throws PhCapture k) eqn:Hthrow; [reflexivity|].
    apply (IH (S k) k'); [|exact Ht].
    assert (k <> k') by congruence. lia.
Qed.

Lemma capture_loop_safe (toggles : list Toggle) :
  (forall k, throws PhCapture k = false) ->
  forall (k : nat) (w : World) (scrollPositions : list (Z * ScrollState)),
    exists captured, capture_loop k toggles w scrollPositions = Some captured.
Proof.
  intros Hsafe. induction toggles as [|toggle rest IH]; intros k w sp; simpl.
  - eauto.
  - rewrite Hsafe. apply IH.
Qed.

(** The hash guard of the two passes.  In pass 1 and in pass 2 alike, a
    region whose live content hash differs from the hash the closure
    captured for it is left exactly as the pass finds it: its scrollTop is
    not written, and pass 1 requests no deferred write to its element.  Each
    pass checks the region as it is when that pass runs, so the statement
    for pass 2 holds whatever pass 1 did to the region before.  (The write
    pass 1 defers is made a frame later without another comparison:
    [targetRestore_unguarded] below.) *)
Theorem stale_region_untouched (cl : RestoreClosure) (w : World) (i : nat)
    (ta : Textarea) :
  textareas w !! i = Some ta ->
  stale cl ta ->
  NoDup (ta_node <$> textareas w) ->
  ((forall k, throws PhPass1 k = false) ->
     textareas (restoreFrame cl w) !! i = Some ta
     /\ (forall state,
           TargetRestoreCb (ta_node ta) state ∈ frames (restoreFrame cl w) ->
           TargetRestoreCb (ta_node ta) state ∈ frames w))
  /\ ((forall k, throws PhPass2 k = false) ->
        textareas (finalCheck cl w) !! i = Some ta).
Proof.
  intros Hi Hstale Hnd.
  assert (Hentries : forall state, (ta_toggleId ta, state) ∈ cl_scrollPositions cl ->
                       _hashContent (value ta) <> ss_contentHash state).
  { intros state Hin. apply Hstale. left. exact Hin. }
  split.
  - intros Hsafe. unfold restoreFrame.
    set (w1 := match editorContent w with
               | Some _ => set_editorContent (Some (cl_editorScrollTop cl)) w
               | None => w
               end).
    assert (Hi1 : textareas w1 !! i = Some ta)
      by (subst w1; destruct (editorContent w); exact Hi).
    assert (Hnd1 : NoDup (ta_node <$> textareas w1))
      by (subst w1; destruct (editorContent w); exact Hnd).
    assert (Hf1 : frames w1 = frames w)
      by (subst w1; destruct (editorContent w); reflexivity).
    destruct (restore_loop cl 0 (cl_scrollPositions cl) w1) as [w2|w2] eqn:Hloop.
    + destruct (restore_loop_stale cl i ta _ Hentries 0%nat w1 Hnd1 Hi1 w2
                  (or_introl Hloop)) as [Hta Hfr].
      simpl. split; [exact Hta|].
      intros state Hin. rewrite <- Hf1. apply Hfr. exact Hin.
    + apply restore_loop_Throw in Hloop as (k' & _ & Ht).
      rewrite Hsafe in Ht. discriminate.
  - intros Hsafe. unfold finalCheck.
    set (w1 := match cl_toggle_isOpen cl, cl_toggleScrollState cl with
               | true, Some toggleScrollState =>
                   match querySelector (cl_toggleId cl) w with
                   | Some (j, textarea) =>
                       if decide (_hashContent (value textarea)
                                  = ss_contentHash toggleScrollState)
                       then write_scrollTop j (ss_scrollTop toggleScrollState) w
                       else w
                   | None => w
                   end
               | _, _ => w
               end).
    assert (Hi1 : textareas w1 !! i = Some ta).
    { subst w1. destruct (cl_toggle_isOpen cl); [|exact Hi].
      destruct (cl_toggleScrollState cl) as [tss|] eqn:Htss; [|exact Hi].
      destruct (querySelector (cl_toggleId cl) w) as [[j textarea]|] eqn:Hq;
        [|exact Hi].
      apply querySelector_Some in Hq as [Hj Hid].
      destruct (decide (_hashContent (value textarea) = ss_contentHash tss))
        as [Hhash|_]; [|exact Hi].
      apply write_scrollTop_other; [|exact Hi].
      intros ->. assert (textarea = ta) as -> by congruence.
      apply (Hstale tss); [right; auto | exact Hhash]. }
    destruct (final_loop cl 0 (cl_scrollPositions cl) w1) as [w2|w2] eqn:Hloop.
    + simpl. exact (final_loop_stale cl i ta _ Hentries 0%nat w1 Hi1 w2
                      (or_introl Hloop)).
    + apply final_loop_Throw in Hloop as (k' & _ & Ht).
      rewrite Hsafe in Ht. discriminate.
Qed.

(** What the passes can touch: the loops write scroll offsets and request
    deferred writes, and nothing else. *)

Lemma set_regions_id (w : World) :
  w = set_frames (frames w ++ []) (set_textareas (textareas w) w).
Proof. destruct w. simpl. rewrite app_nil_r. reflexivity. Qed.

Lemma restore_loop_effect (cl : RestoreClosure) (entries : list (Z * ScrollState)) :
  forall (k : nat) (w w' : World),
    (restore_loop cl k entries w = Normal w'
     \/ restore_loop cl k entries w = Throw w') ->
    exists tas new,
      w' = set_frames (frames w ++ new) (set_textareas tas w)
      /\ Forall is_target_restore new.
Proof.
  induction entries as [|[id state] rest IH]; intros k w w' Hrun; simpl in Hrun.
  - destruct Hrun as [[= <-]|[=]]. exists (textareas w), [].
    split; [apply set_regions_id | constructor].
  - destruct (throws PhPass1 k).
    { destruct Hrun as [[=]|[= <-]]. exists (textareas w), [].
      split; [apply set_regions_id | constructor]. }
    apply IH in Hrun as (tas & new & -> & Hnew).
    destruct (querySelector id w) as [[j textarea]|]; [|eauto].
    destruct (decide (_hashContent (value textarea) = ss_contentHash state));
      [|eauto].
    destruct (decide (id = cl_toggleId cl)).
    + destruct (cl_toggle_isOpen cl); [|eauto].
      exists tas, (TargetRestoreCb (ta_node textarea) state :: new). split.
      * simpl. rewrite <- app_assoc. reflexivity.
      * constructor; [exact I | exact Hnew].
    + exists tas, new. split; [reflexivity | exact Hnew].
Qed.

Lemma final_loop_effect (cl : RestoreClosure) (entries : list (Z * ScrollState)) :
  forall (k : nat) (w w' : World),
    (final_loop cl k entries w = Normal w'
     \/ final_loop cl k entries w = Throw w') ->
    exists tas, w' = set_textareas tas w.
Proof.
  induction entries as [|[id state] rest IH]; intros k w w' Hrun; simpl in Hrun.
  - destruct Hrun as [[= <-]|[=]]. exists (textareas w). destruct w; reflexivity.
  - destruct (throws PhPass2 k).
    { destruct Hrun as [[=]|[= <-]]. exists (textareas w). destruct w; reflexivity. }
    apply IH in Hrun as (tas & ->).
    destruct (decide (id <> cl_toggleId cl)); [|eauto].
    destruct (querySelector id w) as [[j textarea]|]; [|eauto].
    destruct (decide (_hashContent (value textarea) = ss_contentHash state));
      eauto.
Qed.

Lemma reset_zeroes (w : World) :
  Forall (fun ta => scrollTop ta = 0) (textareas (_resetScrollPositions w))
  /\ editorContent (_resetScrollPositions w) = (fun _ => 0) <$> editorContent w.
Proof.
  unfold _resetScrollPositions. split.
  - simpl. apply Forall_fmap, Forall_forall. intros ta _. reflexivity.
  - destruct (editorContent w) eqn:He; simpl; [reflexivity | exact He].
Qed.

(** C4, as the code has it.  An exception raised by a region access in pass 1
    or in pass 2 is caught and answered by the hard reset: afterwards every
    textarea is scrolled to 0, the container (if there is one) is scrolled to
    0 and the guard is released.  An exception that leaves the capture
    phase, the oracle's or the program's own (toggle not found), is caught by
    the outer handler, which releases the guard and resets nothing: the
    world is as it was before the call. *)
Theorem restoration_failure_resets (cl : RestoreClosure) (w : World) :
  ((exists k, (k < length (cl_scrollPositions cl))%nat /\ throws PhPass1 k = true) ->
     let w' := restoreFrame cl w in
     Forall (fun ta => scrollTop ta = 0) (textareas w')
     /\ editorContent w' = (fun _ => 0) <$> editorContent w
     /\ isRestoring w' = false)
  /\ ((exists k, (k < length (cl_scrollPositions cl))%nat /\ throws PhPass2 k = true) ->
        let w' := finalCheck cl w in
        Forall (fun ta => scrollTop ta = 0) (textareas w')
        /\ editorContent w' = (fun _ => 0) <$> editorContent w
        /\ isRestoring w' = false)
  /\ (forall toggleId note,
        currentNote w = Some note -> isRestoring w = false ->
        (exists k, (k < length (n_toggles note))%nat /\ throws PhCapture k = true)
        \/ find_toggle toggleId note = None ->
        _handleToggleSection toggleId w = w).
Proof.
  split; [|split].
  - intros (k & Hk & Ht). unfold restoreFrame.
    set (w1 := match editorContent w with
               | Some _ => set_editorContent (Some (cl_editorScrollTop cl)) w
               | None => w
               end).
    destruct (restore_loop_faulty cl (cl_scrollPositions cl) 0 k w1
                ltac:(lia) Ht) as [w2 Hloop].
    rewrite Hloop.
    destruct (restore_loop_effect cl _ 0%nat w1 w2 (or_intror Hloop))
      as (tas & new & -> & _).
    destruct (reset_zeroes (set_frames (frames w1 ++ new) (set_textareas tas w1)))
      as [Hz Hc].
    simpl. split; [exact Hz|]. split; [|reflexivity].
    simpl in Hc. rewrite Hc. subst w1. destruct (editorContent w) eqn:He; simpl.
    + reflexivity.
    + rewrite He. reflexivity.
  - intros (k & Hk & Ht). unfold finalCheck.
    set (w1 := match cl_toggle_isOpen cl, cl_toggleScrollState cl with
               | true, Some _ => _ | _, _ => w end).
    assert (He1 : editorContent w1 = editorContent w).
    { subst w1. destruct (cl_toggle_isOpen cl); [|reflexivity].
      destruct (cl_toggleScrollState cl); [|reflexivity].
      destruct (querySelector (cl_toggleId cl) w) as [[j textarea]|]; [|reflexivity].
      destruct (decide _); reflexivity. }
    destruct (final_loop_faulty cl (cl_scrollPositions cl) 0 k w1
                ltac:(lia) Ht) as [w2 Hloop].
    rewrite Hloop.
    destruct (final_loop_effect cl _ 0%nat w1 w2 (or_intror Hloop)) as (tas & ->).
    destruct (reset_zeroes (set_textareas tas w1)) as [Hz Hc].
    simpl. split; [exact Hz|]. split; [|reflexivity].
    simpl in Hc. rewrite Hc, He1. reflexivity.
  - intros toggleId note Hnote Hguard Hfail.
    unfold _handleToggleSection. rewrite Hnote, Hguard.
    assert (Hback : set_isRestoring false (set_isRestoring true w) = w).
    { destruct w. simpl in *. subst. reflexivity. }
    destruct Hfail as [(k & Hk & Ht)|Hnone].
    + rewrite (capture_loop_faulty (n_toggles note) 0 k); [exact Hback | lia | exact Ht].
    + destruct (capture_loop 0 (n_toggles note) (set_isRestoring true w) []);
        [|exact Hback].
      rewrite Hnone. exact Hback.
Qed.

(** *** The event loop *)

Lemma run_app (evs1 evs2 : list Event) (w : World) :
  run (evs1 ++ evs2) w = run evs2 (run evs1 w).
Proof. unfold run. apply fold_left_app. Qed.

Lemma run_cons (ev : Event) (evs : list Event) (w : World) :
  run (ev :: evs) w = run evs (step w ev).
Proof. reflexivity. Qed.

Lemma ticks_S (n : nat) : ticks (S n) = ticks n ++ [EvTick].
Proof.
  unfold ticks. induction n as [|n IH]; [reflexivity|].
  simpl in *. f_equal. exact IH.
Qed.

Lemma no_timer_due (ts : list Timer) (now : Z) :
  Forall (fun t => now < tm_due t) ts ->
  filter (fun t => tm_due t <= now) ts = [].
Proof.
  induction 1 as [|t ts Ht _ IH]; [reflexivity|].
  rewrite filter_cons_False by lia. exact IH.
Qed.

(** A millisecond in which no timer is due only moves the clock. *)
Lemma tick_wait (w : World) :
  Forall (fun t => clock w + 1 < tm_due t) (timers w) ->
  tick w = set_clock (clock w + 1) w.
Proof.
  intros Hdue. unfold tick. simpl.
  rewrite no_timer_due by exact Hdue. reflexivity.
Qed.

Lemma ticks_wait (n : nat) :
  forall w : World,
    Forall (fun t => clock w + Z.of_nat n < tm_due t) (timers w) ->
    run (ticks n) w = set_clock (clock w + Z.of_nat n) w.
Proof.
  induction n as [|n IH]; intros w Hdue.
  - destruct w; world_eq.
  - change (run (ticks (S n)) w) with (run (ticks n) (tick w)).
    rewrite tick_wait.
    + rewrite IH.
      * destruct w; world_eq.
      * simpl. eapply Forall_impl; [exact Hdue|]. simpl. intros t Ht. lia.
    + eapply Forall_impl; [exact Hdue|]. simpl. intros t Ht. lia.
Qed.

(** The millisecond in which the only pending timer is due runs its
    callback, with the timer gone from the pending list. *)
Lemma tick_fire (w : World) (handle : positive) (cb : Callback) :
  timers w = [mkTimer handle (clock w + 1) cb] ->
  tick w = run_callback cb (set_timers [] (set_clock (clock w + 1) w)).
Proof.
  intros Ht. unfold tick. simpl. rewrite Ht.
  rewrite filter_cons_True by (simpl; lia). rewrite filter_nil.
  simpl. rewrite Ht. simpl.
  destruct (decide (handle ∈ [handle])) as [_|Hno].
  - unfold clearTimeout. simpl. rewrite Ht.
    rewrite filter_cons_False by (simpl; intros Hne; apply Hne; reflexivity).
    rewrite filter_nil. destruct w; reflexivity.
  - exfalso. apply Hno. left.
Qed.

(** Waiting out a delay: a timer set [n + 1] milliseconds ahead, alone in the
    pending list, fires at the last of [n + 1] ticks. *)
Lemma ticks_fire (n : nat) (w : World) (handle : positive) (cb : Callback) :
  timers w = [mkTimer handle (clock w + Z.of_nat (S n)) cb] ->
  run (ticks (S n)) w
  = run_callback cb (set_timers [] (set_clock (clock w + Z.of_nat (S n)) w)).
Proof.
  intros Ht. rewrite ticks_S, run_app, ticks_wait.
  - simpl run. unfold step.
    rewrite (tick_fire _ handle cb).
    + f_equal. destruct w; world_eq.
    + simpl. rewrite Ht. do 2 f_equal. lia.
  - rewrite Ht. constructor; [simpl; lia | constructor].
Qed.

(** Invariants of the event loop: a property that every pending callback
    preserves, and that does not depend on the clock or on which callbacks
    are pending, survives ticks and frames. *)
Lemma fire_due_invariant (Inv : World -> Prop) (Ok : Callback -> Prop) :
  (forall cb w, Ok cb -> Inv w -> Inv (run_callback cb w)) ->
  (forall handle w, Inv w -> Inv (clearTimeout handle w)) ->
  forall (due : list Timer) (w : World),
    Forall (fun t => Ok (tm_callback t)) due -> Inv w -> Inv (fire_due due w).
Proof.
  intros Hcb Hclear due. induction due as [|t rest IH]; intros w Hdue Hw.
  - exact Hw.
  - inversion Hdue as [|? ? Ht Hrest]; subst. simpl. apply IH; [exact Hrest|].
    destruct (decide (tm_handle t ∈ tm_handle <$> timers w)); [|exact Hw].
    apply Hcb; [exact Ht|]. apply Hclear. exact Hw.
Qed.

Lemma frame_invariant (Inv : World -> Prop) (Ok : Callback -> Prop) :
  (forall cb w, Ok cb -> Inv w -> Inv (run_callback cb w)) ->
  forall (cbs : list Callback) (w : World),
    Forall Ok cbs -> Inv w ->
    Inv (fold_left (fun w cb => run_callback cb w) cbs w).
Proof.
  intros Hcb cbs. induction cbs as [|cb rest IH]; intros w Hcbs Hw.
  - exact Hw.
  - inversion Hcbs as [|? ? Hok Hrest]; subst. simpl.
    apply IH; [exact Hrest|]. apply Hcb; assumption.
Qed.

Lemma passive_invariant (Inv : World -> Prop) (Ok : Callback -> Prop) :
  (forall w, Inv w ->
     Forall (fun t => Ok (tm_callback t)) (timers w) /\ Forall Ok (frames w)) ->
  (forall cb w, Ok cb -> Inv w -> Inv (run_callback cb w)) ->
  (forall handle w, Inv w -> Inv (clearTimeout handle w)) ->
  (forall now w, Inv w -> Inv (set_clock now w)) ->
  (forall w, Inv w -> Inv (set_frames [] w)) ->
  (forall tas w, Inv w -> Inv (set_textareas tas w)) ->
  forall (ev : Event) (w : World), passive ev -> Inv w -> Inv (step w ev).
Proof.
  intros Hpending Hcb Hclear Hclock Hframes Htas ev w Hpassive Hw.
  destruct ev; simpl in Hpassive; try contradiction; simpl.
  - destruct (attached node w) as [[i ?]|]; [apply Htas|]; exact Hw.
  - unfold frame. apply (frame_invariant Inv Ok Hcb).
    + apply Hpending, Hw.
    + apply Hframes, Hw.
  - unfold tick. apply (fire_due_invariant Inv Ok Hcb Hclear).
    + simpl. apply Forall_forall. intros t [_ Hin]%list_elem_of_filter.
      destruct (Hpending w Hw) as [Hts _].
      rewrite Forall_forall in Hts. apply Hts, Hin.
    + apply Hclock, Hw.
Qed.

(** *** The commit timer of the title *)

Lemma updateNote_current_effect (w : World) :
  exists ns ls,
    updateNote_current w
    = set_localStorage ls
        (set_notes ns
           (set_currentNote (set_n_updated (clock w) <$> currentNote w) w)).
Proof.
  unfold updateNote_current, noteManager_updateNote, NoteManager.updateNote.
  destruct (currentNote w) as [note|] eqn:Hnote.
  - simpl. destruct (NoteManager.findIndex (n_id note) (notes w)) as [index|].
    + exists (<[index := deep_copy (set_n_updated (clock w) note)]> (notes w)),
        (NoteManager.saveNotes
           (<[index := deep_copy (set_n_updated (clock w) note)]> (notes w))
           (localStorage w)).
      destruct w; world_eq.
    + exists (notes w), (localStorage w). destruct w; world_eq.
  - exists (notes w), (localStorage w). destruct w; world_eq.
Qed.

(** An edit of the title changes the live note at once, replaces whatever
    commit timer was pending by a new one that holds the note as it was just
    before this edit, and pushes nothing. *)
Lemma handleNoteChange_arms (w : World) (note : Note) (v : JSString) :
  currentNote w = Some note -> at_most_armed w ->
  let w' := handleNoteChange NoteTitle v w in
  armed note (clock w + 500) w'
  /\ currentNote w' = Some (set_n_title v note)
  /\ history w' = history w
  /\ clock w' = clock w.
Proof.
  intros Hnote Hpending. unfold handleNoteChange. rewrite Hnote.
  assert (Hclear : timers (match autoSaveTimeout w with
                           | Some handle => clearTimeout handle w
                           | None => w
                           end) = []).
  { destruct Hpending as [Hnil|(p & due & handle & Ht & Ha)].
    - destruct (autoSaveTimeout w); simpl; rewrite Hnil; reflexivity.
    - rewrite Ha. simpl. rewrite Ht.
      rewrite filter_cons_False by (simpl; intros Hne; apply Hne; reflexivity).
      reflexivity. }
  set (w1 := match autoSaveTimeout w with
             | Some handle => clearTimeout handle w
             | None => w
             end) in *.
  assert (Hrest : history w1 = history w /\ clock w1 = clock w
                  /\ nextHandle w1 = nextHandle w).
  { subst w1. destruct (autoSaveTimeout w); auto. }
  destruct Hrest as (Hh & Hc & Hn).
  simpl. rewrite Hclear, Hh, Hc. repeat split; try reflexivity.
  exists (nextHandle w1). split; reflexivity.
Qed.

Lemma edit_then_wait (w : World) (note : Note) (v : JSString) (gap : nat) :
  currentNote w = Some note -> at_most_armed w -> (gap < 500)%nat ->
  let w' := run (EvTitleInput v :: ticks gap) w in
  at_most_armed w'
  /\ currentNote w' = Some (set_n_title v note)
  /\ history w' = history w.
Proof.
  intros Hnote Hpending Hgap.
  destruct (handleNoteChange_arms w note v Hnote Hpending)
    as ((handle & Ht & Ha) & Hcur & Hh & Hc).
  change (run (EvTitleInput v :: ticks gap) w)
    with (run (ticks gap) (handleNoteChange NoteTitle v w)).
  cbv zeta. rewrite ticks_wait.
  - simpl. repeat split; [|exact Hcur | exact Hh].
    right. exists note, (clock w + 500), handle. simpl. auto.
  - rewrite Ht. constructor; [simpl; lia | constructor].
Qed.

Lemma last_title_cons (v : JSString) (gap : nat) (rest : list (JSString * nat))
    (note : Note) :
  last_title ((v, gap) :: rest) note = last_title rest (set_n_title v note).
Proof.
  unfold last_title. rewrite fmap_cons, last_cons.
  destruct (last (fst <$> rest)); reflexivity.
Qed.

(** During a burst nothing is pushed; the live note follows the edits. *)
Lemma burst_pending (edits : list (JSString * nat)) :
  forall (w : World) (note : Note),
    currentNote w = Some note -> at_most_armed w ->
    Forall (fun e => (e.2 < 500)%nat) edits ->
    let w' := run (burst edits) w in
    at_most_armed w'
    /\ currentNote w' = Some (set_n_title (last_title edits note) note)
    /\ history w' = history w.
Proof.
  induction edits as [|[v gap] rest IH]; intros w note Hnote Hpending Hgaps.
  - simpl. repeat split; [exact Hpending|]. rewrite Hnote. destruct note; reflexivity.
  - inversion Hgaps as [|? ? Hgap Hrest]; subst. simpl in Hgap.
    destruct (edit_then_wait w note v gap Hnote Hpending Hgap) as (Hp1 & Hn1 & Hh1).
    change (burst ((v, gap) :: rest))
      with ((EvTitleInput v :: ticks gap) ++ burst rest).
    cbv zeta. rewrite run_app.
    destruct (IH _ _ Hn1 Hp1 Hrest) as (Hp2 & Hn2 & Hh2).
    repeat split; [exact Hp2 | | congruence].
    rewrite Hn2, last_title_cons. reflexivity.
Qed.

(** The last edit of a burst, and the commit 500 ms later: the snapshot the
    last call took is pushed when it differs from the live note. *)
Lemma last_edit_commits (w : World) (note : Note) (v : JSString) :
  currentNote w = Some note -> at_most_armed w ->
  let w' := run (EvTitleInput v :: ticks 500) w in
  timers w' = []
  /\ n_title <$> currentNote w' = Some v
  /\ history w'
     = if decide (note = set_n_title v note) then history w
       else HistoryManager.push note (history w).
Proof.
  intros Hnote Hpending.
  destruct (handleNoteChange_arms w note v Hnote Hpending)
    as ((handle & Ht & Ha) & Hcur & Hh & Hc).
  cbv zeta. rewrite run_cons.
  change (step w (EvTitleInput v)) with (handleNoteChange NoteTitle v w).
  rewrite (ticks_fire 499 _ handle (AutoSaveCb note)).
  2:{ rewrite Ht, Hc. reflexivity. }
  set (w1 := set_timers [] _).
  assert (H1 : currentNote w1 = Some (set_n_title v note)) by exact Hcur.
  assert (H2 : history w1 = history w) by exact Hh.
  assert (H3 : timers w1 = []) by reflexivity.
  simpl run_callback. unfold autoSave. rewrite H1.
  unfold json_differs.
  destruct (decide (note = set_n_title v note)) as [Heq|Hne].
  - rewrite bool_decide_eq_false_2 by (intros Hn; apply Hn; exact Heq).
    rewrite ?H1, ?H2, ?H3. auto.
  - rewrite bool_decide_eq_true_2 by exact Hne.
    destruct (updateNote_current_effect (history_push note w1)) as (ns & ls & ->).
    simpl. rewrite Hcur, Hh. auto.
Qed.

(** An edit of a toggle's content is committed at once: the note as it was
    before the edit goes on the undo stack, and no timer is involved. *)
Lemma updateToggleContent_pushes (w : World) (note : Note) (toggleId : Z)
    (v : JSString) (i : nat) (toggle : Toggle) :
  currentNote w = Some note -> find_toggle toggleId note = Some (i, toggle) ->
  let w' := updateToggleContent toggleId v w in
  history w' = HistoryManager.push note (history w)
  /\ timers w' = timers w.
Proof.
  intros Hnote Hfind. unfold updateToggleContent. rewrite Hnote, Hfind.
  match goal with
  | |- context [updateNote_current ?x] =>
      destruct (updateNote_current_effect x) as (ns & ls & ->)
  end.
  simpl. auto.
Qed.

(** What a burst of title edits leaves behind, exactly: the commit timer of
    the last edit compares the note with the snapshot that last call took. *)
Lemma title_burst_exact (w : World) (note : Note) (edits : list (JSString * nat))
    (v_last : JSString) :
  currentNote w = Some note -> at_most_armed w ->
  Forall (fun e => (e.2 < 500)%nat) edits ->
  let w' := run (burst edits ++ EvTitleInput v_last :: ticks 500) w in
  let before_last := set_n_title (last_title edits note) note in
  timers w' = []
  /\ n_title <$> currentNote w' = Some v_last
  /\ history w'
     = if decide (before_last = set_n_title v_last before_last) then history w
       else HistoryManager.push before_last (history w).
Proof.
  intros Hnote Hpending Hgaps. cbv zeta. rewrite run_app.
  destruct (burst_pending edits w note Hnote Hpending Hgaps) as (Hp & Hn & Hh).
  destruct (last_edit_commits _ _ v_last Hn Hp) as (Ht & Hv & Hhist).
  rewrite Hh in Hhist. auto.
Qed.

(** C1, as the code has it.  Every edit of the title changes the live note
    at once and pushes nothing by itself.  A burst of title edits, each
    arriving less than 500 ms after the one before, followed by 500 quiet
    milliseconds, leaves the last value in the live title, no timer pending,
    and at most one new entry on the undo stack for the whole burst.  An edit
    of a toggle's content is not coalesced: it pushes the note as it was
    before that edit at once. *)
Theorem title_burst_one_commit (w : World) (note : Note)
    (edits : list (JSString * nat)) (v_last : JSString) :
  quiescent w -> currentNote w = Some note ->
  Forall (fun e => (e.2 < 500)%nat) edits ->
  let w' := run (burst edits ++ EvTitleInput v_last :: ticks 500) w in
  (forall w0 n v, currentNote w0 = Some n ->
     currentNote (step w0 (EvTitleInput v)) = Some (set_n_title v n)
     /\ history (step w0 (EvTitleInput v)) = history w0)
  /\ n_title <$> currentNote w' = Some v_last
  /\ (exists pushed,
        HistoryManager.undoStack (history w')
        = pushed ++ HistoryManager.undoStack (history w)
        /\ (length pushed <= 1)%nat)
  /\ timers w' = []
  /\ (forall w0 n toggleId v i toggle,
        currentNote w0 = Some n -> find_toggle toggleId n = Some (i, toggle) ->
        HistoryManager.undoStack (history (updateToggleContent toggleId v w0))
        = n :: HistoryManager.undoStack (history w0)).
Proof.
  intros [Hquiet _] Hnote Hgaps.
  destruct (title_burst_exact w note edits v_last Hnote (or_introl Hquiet) Hgaps)
    as (Ht & Hv & Hh).
  cbv zeta. split; [|split; [exact Hv | split; [|split; [exact Ht|]]]].
  - intros w0 n v Hn. simpl. unfold handleNoteChange. rewrite Hn.
    destruct (autoSaveTimeout w0); simpl; auto.
  - rewrite Hh. destruct (decide _).
    + exists []. split; [reflexivity | simpl; lia].
    + eexists [_]. split; [reflexivity | simpl; lia].
  - intros w0 n toggleId v i toggle Hn Hfind.
    destruct (updateToggleContent_pushes w0 n toggleId v i toggle Hn Hfind)
      as [-> _].
    reflexivity.
Qed.

(** *** A guard that stays held *)

Lemma alter_content_flags (v : JSString) (i : nat) (toggles : list Toggle) :
  t_isOpen <$> alter (set_t_content v) i toggles = t_isOpen <$> toggles.
Proof.
  apply list_eq. intros j. rewrite !list_lookup_fmap.
  destruct (decide (i = j)) as [->|Hne].
  - rewrite list_lookup_alter_eq. destruct (toggles !! j); reflexivity.
  - rewrite list_lookup_alter_ne by exact Hne. reflexivity.
Qed.

Lemma autoSave_effect (previousState : Note) (w : World) :
  exists h ns ls stamp,
    autoSave previousState w
    = set_localStorage ls
        (set_notes ns
           (set_currentNote (stamp <$> currentNote w) (set_history h w)))
    /\ (stamp = id \/ exists now, stamp = set_n_updated now).
Proof.
  unfold autoSave. destruct (currentNote w) as [note|] eqn:Hnote.
  - destruct (json_differs previousState note).
    + destruct (updateNote_current_effect (history_push previousState w))
        as (ns & ls & ->).
      exists (HistoryManager.push previousState (history w)), ns, ls,
        (set_n_updated (clock w)).
      split; [|eauto]. unfold history_push. destruct w; world_eq.
    + exists (history w), (notes w), (localStorage w), id.
      split; [|auto]. destruct w; world_eq.
  - exists (HistoryManager.push previousState (history w)), (notes w),
      (localStorage w), id.
    split; [|auto]. unfold history_push. destruct w; world_eq.
Qed.

(** The deferred write of pass 1 compares no hash: the element, when it is
    still in the document, is assigned whatever text it holds by then. *)
Lemma targetRestore_unguarded (node : nat) (state : ScrollState) (w : World)
    (i : nat) (textarea : Textarea) :
  attached node w = Some (i, textarea) ->
  textareas (targetRestore node state w) !! i
  = Some (set_scrollTop (restored_scrollTop state textarea) textarea).
Proof.
  intros Hattached. unfold targetRestore. rewrite Hattached.
  unfold attached in Hattached. apply list_find_Some in Hattached as (Hi & _).
  cbn [write_scrollTop textareas set_textareas].
  rewrite list_lookup_alter_eq, Hi. reflexivity.
Qed.

Lemma targetRestore_effect (node : nat) (state : ScrollState) (w : World) :
  exists tas, targetRestore node state w = set_textareas tas w.
Proof.
  unfold targetRestore. destruct (attached node w) as [[i textarea]|].
  - eexists. reflexivity.
  - exists (textareas w). destruct w; reflexivity.
Qed.

Lemma stuck_same (flags : option (list bool)) (n : nat) (w w' : World) :
  isRestoring w' = isRestoring w -> timers w' = timers w ->
  frames w' = frames w -> open_flags w' = open_flags w ->
  renders w' = renders w ->
  stuck flags n w -> stuck flags n w'.
Proof.
  unfold stuck, no_release_pending. intros -> -> -> -> ->. tauto.
Qed.

Lemma stuck_callback (flags : option (list bool)) (n : nat) (cb : Callback)
    (w : World) :
  ~ releasing_callback cb -> stuck flags n w -> stuck flags n (run_callback cb w).
Proof.
  intros Hcb (Hguard & [Hts Hfs] & Hflags & Hrenders).
  destruct cb as [previousState|toggleId|cl|node state|cl]; simpl in *;
    try (exfalso; apply Hcb; exact I).
  - destruct (autoSave_effect previousState w) as (h & ns & ls & stamp & -> & Hstamp).
    repeat split; try assumption.
    unfold open_flags in *. simpl. rewrite <- Hflags.
    destruct (currentNote w) as [note|]; [|reflexivity].
    destruct Hstamp as [->|[now ->]]; reflexivity.
  - unfold _handleToggleSection. rewrite Hguard.
    destruct (currentNote w); repeat split; assumption.
  - destruct (targetRestore_effect node state w) as [tas ->].
    repeat split; assumption.
Qed.

Lemma stuck_clearTimeout (flags : option (list bool)) (n : nat)
    (handle : positive) (w : World) :
  stuck flags n w -> stuck flags n (clearTimeout handle w).
Proof.
  intros (Hguard & [Hts Hfs] & Hflags & Hrenders).
  repeat split; try assumption.
  simpl. apply Forall_forall. intros t [_ Hin]%list_elem_of_filter.
  rewrite Forall_forall in Hts. apply Hts, Hin.
Qed.

Lemma stuck_passive (flags : option (list bool)) (n : nat) (ev : Event)
    (w : World) :
  passive ev -> stuck flags n w -> stuck flags n (step w ev).
Proof.
  apply (passive_invariant (stuck flags n) (fun cb => ~ releasing_callback cb)).
  - intros w0 (_ & Hp & _). exact Hp.
  - intros cb w0. apply stuck_callback.
  - intros handle w0. apply stuck_clearTimeout.
  - intros now w0 H0. exact H0.
  - intros w0 (? & [? ?] & ? & ?). repeat split; try assumption. constructor.
  - intros tas w0 H0. exact H0.
Qed.

(** Once the guard is held with nothing pending that can release it, no
    event releases it, and no toggle of the note is ever flipped again. *)
Lemma stuck_step (flags : option (list bool)) (n : nat) (ev : Event) (w : World) :
  stuck flags n w -> stuck flags n (step w ev).
Proof.
  intros Hw.
  destruct ev as [v|id v|id|node top height| |].
  - (* title input *)
    simpl. unfold handleNoteChange.
    destruct (currentNote w) as [note|] eqn:Hnote; [|exact Hw].
    assert (Hw1 : stuck flags n (match autoSaveTimeout w with
                                 | Some handle => clearTimeout handle w
                                 | None => w
                                 end)).
    { destruct (autoSaveTimeout w); [apply stuck_clearTimeout|]; exact Hw. }
    set (w1 := match autoSaveTimeout w with
               | Some handle => clearTimeout handle w
               | None => w
               end) in *.
    assert (Hn1 : currentNote w1 = Some note)
      by (subst w1; destruct (autoSaveTimeout w); exact Hnote).
    destruct Hw1 as (Hguard & [Hts Hfs] & Hflags & Hrenders).
    repeat split; try assumption.
    + simpl. apply Forall_app. split; [exact Hts|].
      constructor; [simpl; tauto | constructor].
    + unfold open_flags in *. rewrite Hn1 in Hflags. simpl. exact Hflags.
  - (* textarea input *)
    simpl. destruct (querySelector id w) as [[i ta]|]; [|exact Hw].
    unfold updateToggleContent. simpl.
    destruct (currentNote w) as [note|] eqn:Hnote;
      [|apply (stuck_same flags n w); auto; unfold open_flags; simpl;
        rewrite Hnote; reflexivity].
    destruct (find_toggle id note) as [[j toggle]|];
      [|apply (stuck_same flags n w); auto; unfold open_flags; simpl;
        rewrite Hnote; reflexivity].
    match goal with
    | |- context [updateNote_current ?x] =>
        destruct (updateNote_current_effect x) as (ns & ls & ->)
    end.
    apply (stuck_same flags n w); auto.
    unfold open_flags. simpl. rewrite Hnote. simpl.
    rewrite alter_content_flags. reflexivity.
  - (* toggle click *)
    simpl. unfold toggleSection.
    destruct (currentNote w) as [note|] eqn:Hnote; [|exact Hw].
    assert (Hw1 : stuck flags n
                    (match toggleDebounce w with
                     | Some handle => set_toggleDebounce None (clearTimeout handle w)
                     | None => w
                     end)).
    { destruct (toggleDebounce w); [|exact Hw].
      apply (stuck_clearTimeout _ _ p) in Hw. exact Hw. }
    set (w1 := match toggleDebounce w with
               | Some handle => set_toggleDebounce None (clearTimeout handle w)
               | None => w
               end) in *.
    assert (Hw2 : stuck flags n
                    (match scrollRestoreTimeout w1 with
                     | Some handle =>
                         set_scrollRestoreTimeout None (clearTimeout handle w1)
                     | None => w1
                     end)).
    { destruct (scrollRestoreTimeout w1); [|exact Hw1].
      apply (stuck_clearTimeout _ _ p) in Hw1. exact Hw1. }
    set (w2 := match scrollRestoreTimeout w1 with
               | Some handle =>
                   set_scrollRestoreTimeout None (clearTimeout handle w1)
               | None => w1
               end) in *.
    destruct Hw2 as (Hguard & [Hts Hfs] & Hflags & Hrenders).
    repeat split; try assumption.
    simpl. apply Forall_app. split; [exact Hts|].
    constructor; [simpl; tauto | constructor].
  - apply stuck_passive; [exact I | exact Hw].
  - apply stuck_passive; [exact I | exact Hw].
  - apply stuck_passive; [exact I | exact Hw].
Qed.

Lemma stuck_forever (flags : option (list bool)) (n : nat) (evs : list Event) :
  forall w : World, stuck flags n w -> stuck flags n (run evs w).
Proof.
  induction evs as [|ev rest IH]; intros w Hw; [exact Hw|].
  rewrite run_cons. apply IH, stuck_step, Hw.
Qed.

(** *** Debounced toggle requests *)

(** A toggle request replaces whatever debounce timer was pending by a new
    one, due 50 ms later, that names the toggle of this request. *)
Lemma toggleSection_rearms (w : World) (note : Note) (toggleId : Z) :
  currentNote w = Some note -> at_most_debouncing w ->
  exists restoreHandle,
    toggleSection toggleId w
    = set_toggleDebounce (Some (nextHandle w))
        (set_scrollRestoreTimeout restoreHandle
           (set_nextHandle (Pos.succ (nextHandle w))
              (set_timers
                 [mkTimer (nextHandle w) (clock w + 50) (ToggleDebounceCb toggleId)]
                 w))).
Proof.
  intros Hnote Hpending. unfold toggleSection. rewrite Hnote.
  destruct Hpending as [Hnil|(handle & due & a & Ht & Hd)].
  - destruct (toggleDebounce w) as [h|] eqn:Hd;
      destruct (scrollRestoreTimeout w) as [h'|] eqn:Hs; simpl;
      rewrite ?Hs; simpl; rewrite ?Hnil; simpl.
    + exists None. destruct w; world_eq.
    + exists None. destruct w; world_eq.
    + exists None. destruct w; world_eq.
    + exists None. destruct w; world_eq.
  - rewrite Hd. simpl.
    assert (Hgone : filter (fun t => tm_handle t <> handle) (timers w) = []).
    { rewrite Ht.
      rewrite filter_cons_False by (simpl; intros Hne; apply Hne; reflexivity).
      reflexivity. }
    destruct (scrollRestoreTimeout w) as [h'|] eqn:Hs; simpl;
      rewrite ?Hgone; simpl.
    + exists None. destruct w; world_eq.
    + exists None. destruct w; world_eq.
Qed.

(** The debounce callback on an idle reconciler whose target exists: one
    push, one render, the target flipped, pass 1 requested. *)
Lemma handleToggleSection_mutates (w : World) (note : Note) (toggleId : Z)
    (i : nat) (toggle : Toggle) :
  currentNote w = Some note -> isRestoring w = false ->
  (forall k, throws PhCapture k = false) ->
  find_toggle toggleId note = Some (i, toggle) ->
  let w' := _handleToggleSection toggleId w in
  history w' = HistoryManager.push note (history w)
  /\ renders w' = S (renders w)
  /\ currentNote w'
     = Some (set_n_updated (clock w)
               (set_n_toggles (alter flip_isOpen i (n_toggles note)) note))
  /\ timers w' = timers w
  /\ (exists cl, frames w' = frames w ++ [RestoreFrameCb cl])
  /\ isRestoring w' = true.
Proof.
  intros Hnote Hguard Hsafe Hfind.
  unfold _handleToggleSection. rewrite Hnote, Hguard.
  destruct (capture_loop_safe (n_toggles note) Hsafe 0 (set_isRestoring true w) [])
    as [captured ->].
  rewrite Hfind.
  match goal with
  | |- context [updateNote_current ?x] =>
      destruct (updateNote_current_effect x) as (ns & ls & ->)
  end.
  cbv zeta. unfold renderEditor. simpl.
  repeat split; eauto.
Qed.








(** *** What the passes write *)

(** Writing a scroll offset changes no region's toggle id, so every selector
    finds the region it found before. *)
Lemma list_find_alter_scrollTop (id : Z) (v : Z) (tas : list Textarea) :
  forall j : nat,
    list_find (fun ta => ta_toggleId ta = id) (alter (set_scrollTop v) j tas)
    = (fun '(i, ta) => (i, if decide (i = j) then set_scrollTop v ta else ta))
        <$> list_find (fun ta => ta_toggleId ta = id) tas.
Proof.
  induction tas as [|ta rest IH]; intros j; [reflexivity|].
  destruct j as [|j]; simpl.
  - destruct (decide (ta_toggleId ta = id)); simpl; [reflexivity|].
    destruct (list_find _ rest) as [[i x]|]; reflexivity.
  - destruct (decide (ta_toggleId ta = id)); simpl; [reflexivity|].
    change (list_alter (set_scrollTop v) j rest)
      with (alter (set_scrollTop v) j rest).
    rewrite IH. destruct (list_find _ rest) as [[i x]|]; simpl; [|reflexivity].
    destruct (decide (i = j)); destruct (decide (S i = S j)); try lia; reflexivity.
Qed.

Lemma querySelector_write (id : Z) (j : nat) (v : Z) (w : World) :
  querySelector id (write_scrollTop j v w)
  = (fun '(i, ta) => (i, if decide (i = j) then set_scrollTop v ta else ta))
      <$> querySelector id w.
Proof. apply list_find_alter_scrollTop. Qed.

(** In pass 1 the entries of other regions leave a region as it is. *)
Lemma restore_loop_other (cl : RestoreClosure) (id : Z) (i : nat) (ta : Textarea)
    (entries : list (Z * ScrollState)) :
  id ∉ fst <$> entries ->
  forall (k : nat) (w w' : World),
    querySelector id w = Some (i, ta) ->
    restore_loop cl k entries w = Normal w' ->
    querySelector id w' = Some (i, ta).
Proof.
  induction entries as [|[id' state'] rest IH]; intros Hno k w w' Hq Hrun;
    simpl in Hrun.
  - injection Hrun as <-. exact Hq.
  - destruct (throws PhPass1 k); [discriminate|].
    assert (Hne : id' <> id) by (intros ->; apply Hno; left).
    assert (Hrest : id ∉ fst <$> rest) by (intros Hin; apply Hno; right; exact Hin).
    refine (IH Hrest _ _ _ _ Hrun).
    destruct (querySelector id' w) as [[j textarea]|] eqn:Hq'; [|exact Hq].
    destruct (decide (_hashContent (value textarea) = ss_contentHash state'));
      [|exact Hq].
    destruct (decide (id' = cl_toggleId cl)).
    { destruct (cl_toggle_isOpen cl); exact Hq. }
    rewrite querySelector_write, Hq. simpl.
    destruct (decide (i = j)) as [->|_]; [|reflexivity].
    apply querySelector_Some in Hq as [Hi Hid].
    apply querySelector_Some in Hq' as [Hj Hid'].
    congruence.
Qed.

(** Pass 1 rescales: a region other than the toggled one whose hash still
    matches is written with [restored_scrollTop], the captured offset times
    the ratio of the heights, rounded, when the height changed. *)
Lemma restore_loop_rescales (cl : RestoreClosure) (id : Z) (state : ScrollState)
    (i : nat) (entries : list (Z * ScrollState)) :
  (forall k, throws PhPass1 k = false) ->
  id <> cl_toggleId cl ->
  NoDup (fst <$> entries) -> (id, state) ∈ entries ->
  forall (k : nat) (w : World) (ta : Textarea),
    querySelector id w = Some (i, ta) ->
    _hashContent (value ta) = ss_contentHash state ->
    exists w',
      restore_loop cl k entries w = Normal w'
      /\ querySelector id w'
         = Some (i, set_scrollTop (restored_scrollTop state ta) ta).
Proof.
  intros Hsafe Hid.
  induction entries as [|[id' state'] rest IH]; intros Hnd Hin k w ta Hq Hhash.
  - inversion Hin.
  - rewrite fmap_cons in Hnd. apply NoDup_cons in Hnd as [Hfresh Hnd].
    cbn [fst] in Hfresh. cbn [restore_loop]. rewrite Hsafe.
    apply elem_of_cons in Hin as [[= <- <-]|Hin].
    + rewrite Hq. destruct (decide _) as [_|Hno]; [|contradiction].
      destruct (decide (id = cl_toggleId cl)); [contradiction|].
      assert (Hq1 : querySelector id
                      (write_scrollTop i (restored_scrollTop state ta) w)
                    = Some (i, set_scrollTop (restored_scrollTop state ta) ta)).
      { rewrite querySelector_write, Hq. simpl.
        destruct (decide (i = i)); [reflexivity | contradiction]. }
      destruct (restore_loop cl (S k) rest
                  (write_scrollTop i (restored_scrollTop state ta) w))
        as [w'|w'] eqn:Hrun.
      * exists w'. split; [reflexivity|].
        exact (restore_loop_other cl id i _ rest Hfresh _ _ _ Hq1 Hrun).
      * apply restore_loop_Throw in Hrun as (k' & _ & Hk).
        rewrite Hsafe in Hk. discriminate.
    + assert (Hne : id' <> id).
      { intros ->. apply Hfresh.
        apply list_elem_of_fmap. exists (id, state). auto. }
      apply (IH Hnd Hin); [|exact Hhash].
      destruct (querySelector id' w) as [[j textarea]|] eqn:Hq'; [|exact Hq].
      destruct (decide (_hashContent (value textarea) = ss_contentHash state'));
        [|exact Hq].
      destruct (decide (id' = cl_toggleId cl)).
      { destruct (cl_toggle_isOpen cl); exact Hq. }
      rewrite querySelector_write, Hq. simpl.
      destruct (decide (i = j)) as [->|_]; [|reflexivity].
      apply querySelector_Some in Hq as [Hi Hid0].
      apply querySelector_Some in Hq' as [Hj Hid'].
      congruence.
Qed.

Lemma restoreFrame_rescales (cl : RestoreClosure) (w : World) (id : Z)
    (state : ScrollState) (i : nat) (ta : Textarea) :
  (forall k, throws PhPass1 k = false) ->
  id <> cl_toggleId cl ->
  NoDup (fst <$> cl_scrollPositions cl) -> (id, state) ∈ cl_scrollPositions cl ->
  querySelector id w = Some (i, ta) ->
  _hashContent (value ta) = ss_contentHash state ->
  querySelector id (restoreFrame cl w)
  = Some (i, set_scrollTop (restored_scrollTop state ta) ta).
Proof.
  intros Hsafe Hid Hnd Hin Hq Hhash. unfold restoreFrame.
  set (w1 := match editorContent w with
             | Some _ => set_editorContent (Some (cl_editorScrollTop cl)) w
             | None => w
             end).
  assert (Hq1 : querySelector id w1 = Some (i, ta))
    by (subst w1; destruct (editorContent w); exact Hq).
  destruct (restore_loop_rescales cl id state i _ Hsafe Hid Hnd Hin 0%nat w1 ta
              Hq1 Hhash) as (w2 & -> & Hq2).
  exact Hq2.
Qed.

(** The entries of other regions leave a region as it is. *)
Lemma final_loop_other (cl : RestoreClosure) (id : Z) (i : nat) (ta : Textarea)
    (entries : list (Z * ScrollState)) :
  id ∉ fst <$> entries ->
  forall (k : nat) (w w' : World),
    querySelector id w = Some (i, ta) ->
    final_loop cl k entries w = Normal w' ->
    querySelector id w' = Some (i, ta).
Proof.
  induction entries as [|[id' state'] rest IH]; intros Hno k w w' Hq Hrun;
    simpl in Hrun.
  - injection Hrun as <-. exact Hq.
  - destruct (throws PhPass2 k); [discriminate|].
    assert (Hne : id' <> id) by (intros ->; apply Hno; left).
    assert (Hrest : id ∉ fst <$> rest) by (intros Hin; apply Hno; right; exact Hin).
    refine (IH Hrest _ _ _ _ Hrun).
    destruct (decide (id' <> cl_toggleId cl)); [|exact Hq].
    destruct (querySelector id' w) as [[j textarea]|] eqn:Hq'; [|exact Hq].
    destruct (decide (_hashContent (value textarea) = ss_contentHash state'));
      [|exact Hq].
    rewrite querySelector_write, Hq. simpl.
    destruct (decide (i = j)) as [->|_]; [|reflexivity].
    apply querySelector_Some in Hq as [Hi Hid].
    apply querySelector_Some in Hq' as [Hj Hid'].
    congruence.
Qed.

(** Pass 2 assigns the captured offset as it is: a region other than the
    toggled one whose hash still matches ends at the captured scrollTop,
    whatever its scroll height was at capture and is now. *)
Lemma final_loop_verbatim (cl : RestoreClosure) (id : Z) (state : ScrollState)
    (i : nat) (entries : list (Z * ScrollState)) :
  (forall k, throws PhPass2 k = false) ->
  id <> cl_toggleId cl ->
  NoDup (fst <$> entries) -> (id, state) ∈ entries ->
  forall (k : nat) (w : World) (ta : Textarea),
    querySelector id w = Some (i, ta) ->
    _hashContent (value ta) = ss_contentHash state ->
    exists w',
      final_loop cl k entries w = Normal w'
      /\ querySelector id w' = Some (i, set_scrollTop (ss_scrollTop state) ta).
Proof.
  intros Hsafe Hid.
  induction entries as [|[id' state'] rest IH]; intros Hnd Hin k w ta Hq Hhash.
  - inversion Hin.
  - rewrite fmap_cons in Hnd. apply NoDup_cons in Hnd as [Hfresh Hnd].
    cbn [fst] in Hfresh. cbn [final_loop]. rewrite Hsafe.
    apply elem_of_cons in Hin as [[= <- <-]|Hin].
    + destruct (decide (id <> cl_toggleId cl)); [|contradiction].
      rewrite Hq. destruct (decide _) as [_|Hno]; [|contradiction].
      assert (Hq1 : querySelector id (write_scrollTop i (ss_scrollTop state) w)
                    = Some (i, set_scrollTop (ss_scrollTop state) ta)).
      { rewrite querySelector_write, Hq. simpl.
        destruct (decide (i = i)); [reflexivity | contradiction]. }
      destruct (final_loop cl (S k) rest
                  (write_scrollTop i (ss_scrollTop state) w)) as [w'|w'] eqn:Hrun.
      * exists w'. split; [reflexivity|].
        exact (final_loop_other cl id i _ rest Hfresh _ _ _ Hq1 Hrun).
      * apply final_loop_Throw in Hrun as (k' & _ & Hk).
        rewrite Hsafe in Hk. discriminate.
    + assert (Hne : id' <> id).
      { intros ->. apply Hfresh.
        apply list_elem_of_fmap. exists (id, state). auto. }
      apply (IH Hnd Hin); [|exact Hhash].
      destruct (decide (id' <> cl_toggleId cl)); [|exact Hq].
      destruct (querySelector id' w) as [[j textarea]|] eqn:Hq'; [|exact Hq].
      destruct (decide (_hashContent (value textarea) = ss_contentHash state'));
        [|exact Hq].
      rewrite querySelector_write, Hq. simpl.
      destruct (decide (i = j)) as [->|_]; [|reflexivity].
      apply querySelector_Some in Hq as [Hi Hid0].
      apply querySelector_Some in Hq' as [Hj Hid'].
      congruence.
Qed.

Lemma finalCheck_verbatim (cl : RestoreClosure) (w : World) (id : Z)
    (state : ScrollState) (i : nat) (ta : Textarea) :
  (forall k, throws PhPass2 k = false) ->
  id <> cl_toggleId cl ->
  NoDup (fst <$> cl_scrollPositions cl) -> (id, state) ∈ cl_scrollPositions cl ->
  querySelector id w = Some (i, ta) ->
  _hashContent (value ta) = ss_contentHash state ->
  querySelector id (finalCheck cl w)
  = Some (i, set_scrollTop (ss_scrollTop state) ta).
Proof.
  intros Hsafe Hid Hnd Hin Hq Hhash. unfold finalCheck.
  set (w1 := match cl_toggle_isOpen cl, cl_toggleScrollState cl with
             | true, Some _ => _ | _, _ => w end).
  assert (Hq1 : querySelector id w1 = Some (i, ta)).
  { subst w1. destruct (cl_toggle_isOpen cl); [|exact Hq].
    destruct (cl_toggleScrollState cl) as [tss|]; [|exact Hq].
    destruct (querySelector (cl_toggleId cl) w) as [[j textarea]|] eqn:Hq';
      [|exact Hq].
    destruct (decide _); [|exact Hq].
    rewrite querySelector_write, Hq. simpl.
    destruct (decide (i = j)) as [->|_]; [|reflexivity].
    apply querySelector_Some in Hq as [Hi Hid0].
    apply querySelector_Some in Hq' as [Hj Hid'].
    congruence. }
  destruct (final_loop_verbatim cl id state i _ Hsafe Hid Hnd Hin 0%nat w1 ta
              Hq1 Hhash) as (w2 & -> & Hq2).
  exact Hq2.
Qed.

(** *** A request that arrives while pass 2 is pending *)

(** Pass 1 without an exception: the container and the regions are written,
    deferred writes are requested, and pass 2 is armed for 100 ms later under
    [scrollRestoreTimeout]. *)
Lemma restoreFrame_normal (cl : RestoreClosure) (w : World) :
  (forall k, throws PhPass1 k = false) ->
  exists tas new,
    restoreFrame cl w
    = set_scrollRestoreTimeout (Some (nextHandle w))
        (set_nextHandle (Pos.succ (nextHandle w))
           (set_timers
              (timers w ++ [mkTimer (nextHandle w) (clock w + 100) (FinalCheckCb cl)])
              (set_frames (frames w ++ new)
                 (set_textareas tas
                    (set_editorContent
                       ((fun _ => cl_editorScrollTop cl) <$> editorContent w) w)))))
    /\ Forall is_target_restore new.
Proof.
  intros Hsafe. unfold restoreFrame.
  set (w1 := match editorContent w with
             | Some _ => set_editorContent (Some (cl_editorScrollTop cl)) w
             | None => w
             end).
  assert (Hw1 : w1 = set_editorContent
                       ((fun _ => cl_editorScrollTop cl) <$> editorContent w) w).
  { subst w1. destruct w as [? ? ? ? ? ? ? [ec|] ? ? ? ? ? ? ? ?]; reflexivity. }
  destruct (restore_loop cl 0 (cl_scrollPositions cl) w1) as [w2|w2] eqn:Hloop.
  - destruct (restore_loop_effect cl _ 0%nat w1 w2 (or_introl Hloop))
      as (tas & new & -> & Hnew).
    exists tas, new. split; [|exact Hnew].
    rewrite Hw1. destruct w; world_eq.
  - apply restore_loop_Throw in Hloop as (k & _ & Hk).
    rewrite Hsafe in Hk. discriminate.
Qed.

(** A toggle request that finds pass 2 pending clears it, and leaves the
    guard held with nothing pending that could release it. *)
Lemma toggleSection_cancels_pass2 (w : World) (note : Note) (handle : positive)
    (due : Z) (cl : RestoreClosure) (toggleId : Z) :
  currentNote w = Some note -> isRestoring w = true ->
  timers w = [mkTimer handle due (FinalCheckCb cl)] ->
  scrollRestoreTimeout w = Some handle ->
  Forall (fun cb => ~ releasing_callback cb) (frames w) ->
  stuck (open_flags w) (renders w) (toggleSection toggleId w).
Proof.
  intros Hnote Hguard Ht Hs Hf. unfold toggleSection. rewrite Hnote.
  assert (Hcleared :
            forall h,
              filter (fun t => tm_handle t <> handle)
                (filter (fun t => tm_handle t <> h) (timers w)) = []).
  { intros h. rewrite Ht.
    destruct (decide (handle = h)) as [<-|Hne].
    - rewrite filter_cons_False by (simpl; intros H; apply H; reflexivity).
      reflexivity.
    - rewrite filter_cons_True by (simpl; congruence).
      rewrite filter_cons_False by (simpl; intros H; apply H; reflexivity).
      reflexivity. }
  destruct (toggleDebounce w) as [h|] eqn:Hd; simpl; rewrite Hs; simpl.
  - repeat split; try assumption; try reflexivity.
    simpl. rewrite Hcleared. constructor; [simpl; tauto | constructor].
  - repeat split; try assumption; try reflexivity.
    simpl. rewrite Ht.
    rewrite filter_cons_False by (simpl; intros H; apply H; reflexivity).
    constructor; [simpl; tauto | constructor].
Qed.

(** A debounced toggle request from Idle is reconciled after 50 ms: the guard
    is held and pass 1 is the only pending callback. *)
Lemma first_reconciliation (w : World) (note : Note) (first : Z)
    (i : nat) (toggle : Toggle) :
  Idle w -> currentNote w = Some note ->
  find_toggle first note = Some (i, toggle) ->
  (forall k, throws PhCapture k = false) ->
  exists cl note',
    let w3 := run (EvToggleClick first :: ticks 50) w in
    currentNote w3 = Some note' /\ timers w3 = []
    /\ frames w3 = [RestoreFrameCb cl] /\ isRestoring w3 = true.
Proof.
  intros [[Hnil Hfr] Hguard] Hnote Hfind Hcapture.
  rewrite run_cons. change (step w (EvToggleClick first)) with (toggleSection first w).
  destruct (toggleSection_rearms w note first Hnote (or_introl Hnil)) as [sr1 ->].
  set (w1 := set_toggleDebounce _ _).
  rewrite (ticks_fire 49 w1 (nextHandle w) (ToggleDebounceCb first)) by reflexivity.
  set (w2 := set_timers [] _).
  simpl run_callback.
  destruct (handleToggleSection_mutates w2 note first i toggle Hnote Hguard
              Hcapture Hfind) as (_ & _ & Hn3 & Ht3 & (cl & Hf3) & Hg3).
  exists cl. eexists. cbv zeta. split; [exact Hn3|]. split; [exact Ht3|].
  split; [|exact Hg3]. rewrite Hf3. change (frames w2) with (frames w).
  rewrite Hfr. reflexivity.
Qed.

(** Pass 1, at the next frame, arms pass 2 for 100 ms later and records its
    handle in [scrollRestoreTimeout]. *)
Lemma pass1_arms_pass2 (w3 : World) (cl : RestoreClosure) :
  (forall k, throws PhPass1 k = false) ->
  timers w3 = [] -> frames w3 = [RestoreFrameCb cl] ->
  let w4 := step w3 EvFrame in
  timers w4 = [mkTimer (nextHandle w3) (clock w3 + 100) (FinalCheckCb cl)]
  /\ scrollRestoreTimeout w4 = Some (nextHandle w3)
  /\ Forall is_target_restore (frames w4)
  /\ currentNote w4 = currentNote w3
  /\ isRestoring w4 = isRestoring w3
  /\ clock w4 = clock w3.
Proof.
  intros Hpass1 Ht3 Hf3. cbv zeta. cbn [step]. unfold frame. rewrite Hf3.
  simpl fold_left.
  destruct (restoreFrame_normal cl (set_frames [] w3) Hpass1)
    as (tas & new & -> & Hnew).
  simpl. rewrite Ht3. repeat split; try reflexivity. exact Hnew.
Qed.

(** A toggle request made while pass 2 is still pending, however long after
    pass 1, cancels it and leaves the guard held for good. *)
Lemma late_request_cancels_pass2 (w3 w4 : World) (note : Note)
    (cl : RestoreClosure) (gap : nat) (second : Z) :
  currentNote w3 = Some note ->
  isRestoring w3 = true ->
  timers w4 = [mkTimer (nextHandle w3) (clock w3 + 100) (FinalCheckCb cl)] ->
  scrollRestoreTimeout w4 = Some (nextHandle w3) ->
  Forall is_target_restore (frames w4) ->
  currentNote w4 = currentNote w3 ->
  isRestoring w4 = isRestoring w3 ->
  let w5 := set_clock (clock w4 + Z.of_nat gap) w4 in
  stuck (open_flags w5) (renders w5) (toggleSection second w5).
Proof.
  intros Hn3 Hg3 Ht4 Hs4 Hf4 Hn4 Hg4 w5.
  apply (toggleSection_cancels_pass2 w5 note (nextHandle w3) (clock w3 + 100) cl).
  - rewrite <- Hn3, <- Hn4. reflexivity.
  - rewrite <- Hg3, <- Hg4. reflexivity.
  - exact Ht4.
  - exact Hs4.
  - eapply Forall_impl; [exact Hf4|]. intros [ | | | | ]; simpl; tauto.
Qed.

(** The deadlock.  From Idle, a toggle request is debounced and reconciled
    and pass 1 runs at the next frame; any toggle request within the 100 ms
    before pass 2 clears [scrollRestoreTimeout], and from then on the guard is
    held under every sequence of events. *)
Lemma request_during_restore_deadlocks (w : World) (note : Note) (first : Z)
    (i : nat) (toggle : Toggle) (gap : nat) (second : Z) (evs : list Event) :
  Idle w -> currentNote w = Some note ->
  find_toggle first note = Some (i, toggle) ->
  (forall k, throws PhCapture k = false) ->
  (forall k, throws PhPass1 k = false) ->
  (gap < 100)%nat ->
  isRestoring
    (run (EvToggleClick first :: ticks 50
            ++ EvFrame :: ticks gap ++ EvToggleClick second :: evs) w)
  = true.
Proof.
  intros Hidle Hnote Hfind Hcapture Hpass1 Hgap.
  destruct (first_reconciliation w note first i toggle Hidle Hnote Hfind Hcapture)
    as (cl & note' & Hn3 & Ht3 & Hf3 & Hg3).
  rewrite app_comm_cons, run_app.
  set (w3 := run (EvToggleClick first :: ticks 50) w) in *. clearbody w3.
  destruct (pass1_arms_pass2 w3 cl Hpass1 Ht3 Hf3)
    as (Ht4 & Hs4 & Hf4 & Hn4 & Hg4 & Hc4).
  rewrite run_cons.
  set (w4 := step w3 EvFrame) in *. clearbody w4.
  rewrite run_app, ticks_wait
    by (rewrite Ht4, Hc4; constructor; [simpl; lia | constructor]).
  rewrite run_cons.
  pose proof (late_request_cancels_pass2 w3 w4 note' cl gap second
                Hn3 Hg3 Ht4 Hs4 Hf4 Hn4 Hg4) as Hstuck.
  cbv zeta in Hstuck.
  destruct (stuck_forever _ _ evs _ Hstuck) as [H _].
  exact H.
Qed.


(** *** What editing keeps *)

Lemma carried_over_refl (w : World) : carried_over w w.
Proof. unfold carried_over. auto. Qed.

Lemma carried_over_trans (w1 w2 w3 : World) :
  carried_over w1 w2 -> carried_over w2 w3 -> carried_over w1 w3.
Proof.
  unfold carried_over. intros (Ha & Hb & Hc & Hd) (Ha' & Hb' & Hc' & Hd').
  split; [|split; [|split]]; [auto | congruence | congruence | auto].
Qed.

(** Two worlds with the same note, list, storage and region ids. *)
Lemma carried_over_same (w w' : World) :
  currentNote w' = currentNote w -> notes w' = notes w ->
  localStorage w' = localStorage w ->
  ta_toggleId <$> textareas w' = ta_toggleId <$> textareas w ->
  carried_over w w'.
Proof.
  unfold carried_over, regions_mirror_toggles, in_step, persisted.
  intros -> -> -> ->. auto.
Qed.

Lemma write_scrollTop_ids (j : nat) (v : Z) (w : World) :
  ta_toggleId <$> textareas (write_scrollTop j v w) = ta_toggleId <$> textareas w.
Proof.
  simpl. apply list_eq. intros i.
  rewrite !list_lookup_fmap.
  destruct (decide (j = i)) as [->|Hne].
  - rewrite list_lookup_alter_eq. destruct (textareas w !! i); reflexivity.
  - rewrite list_lookup_alter_ne by exact Hne. reflexivity.
Qed.

Lemma restore_loop_ids (cl : RestoreClosure) (entries : list (Z * ScrollState)) :
  forall (k : nat) (w w' : World),
    (restore_loop cl k entries w = Normal w'
     \/ restore_loop cl k entries w = Throw w') ->
    ta_toggleId <$> textareas w' = ta_toggleId <$> textareas w.
Proof.
  induction entries as [|[id state] rest IH]; intros k w w' Hrun; simpl in Hrun.
  - destruct Hrun as [[= <-]|[=]]. reflexivity.
  - destruct (throws PhPass1 k).
    { destruct Hrun as [[=]|[= <-]]. reflexivity. }
    apply IH in Hrun as ->.
    destruct (querySelector id w) as [[j textarea]|]; [|reflexivity].
    destruct (decide (_hashContent (value textarea) = ss_contentHash state));
      [|reflexivity].
    destruct (decide (id = cl_toggleId cl)).
    + destruct (cl_toggle_isOpen cl); reflexivity.
    + apply write_scrollTop_ids.
Qed.

Lemma final_loop_ids (cl : RestoreClosure) (entries : list (Z * ScrollState)) :
  forall (k : nat) (w w' : World),
    (final_loop cl k entries w = Normal w'
     \/ final_loop cl k entries w = Throw w') ->
    ta_toggleId <$> textareas w' = ta_toggleId <$> textareas w.
Proof.
  induction entries as [|[id state] rest IH]; intros k w w' Hrun; simpl in Hrun.
  - destruct Hrun as [[= <-]|[=]]. reflexivity.
  - destruct (throws PhPass2 k).
    { destruct Hrun as [[=]|[= <-]]. reflexivity. }
    apply IH in Hrun as ->.
    destruct (decide (id <> cl_toggleId cl)); [|reflexivity].
    destruct (querySelector id w) as [[j textarea]|]; [|reflexivity].
    destruct (decide (_hashContent (value textarea) = ss_contentHash state));
      [apply write_scrollTop_ids | reflexivity].
Qed.

Lemma reset_ids (w : World) :
  ta_toggleId <$> textareas (_resetScrollPositions w) = ta_toggleId <$> textareas w.
Proof.
  unfold _resetScrollPositions.
  destruct (editorContent w); simpl; rewrite <- list_fmap_compose; reflexivity.
Qed.

(** [updateNote] on the live note: the note is stamped, and the list keeps
    its ids and stays in step with the storage. *)
Lemma updateNote_current_carried (w : World) :
  currentNote (updateNote_current w) = set_n_updated (clock w) <$> currentNote w
  /\ textareas (updateNote_current w) = textareas w
  /\ history (updateNote_current w) = history w
  /\ n_id <$> notes (updateNote_current w) = n_id <$> notes w
  /\ (in_step w -> in_step (updateNote_current w)).
Proof.
  unfold updateNote_current, noteManager_updateNote, NoteManager.updateNote,
    in_step, persisted.
  destruct (currentNote w) as [note|] eqn:Hnote; [|rewrite Hnote; auto].
  cbv zeta. change (n_id (set_n_updated (clock w) note)) with (n_id note).
  destruct (NoteManager.findIndex (n_id note) (notes w)) as [index|] eqn:Hfind.
  - destruct (findIndex_Some _ _ _ Hfind) as (n & Hn & Hid & _).
    cbn [currentNote textareas history notes localStorage set_currentNote
         set_localStorage set_notes].
    split; [reflexivity|]. split; [reflexivity|]. split; [reflexivity|]. split.
    + rewrite list_fmap_insert. apply list_insert_id.
      rewrite list_lookup_fmap, Hn. simpl. rewrite Hid. reflexivity.
    + intros [Hreliable _]. split.
      * intros k. rewrite (proj2 (saveNotes_calls _ _)). apply Hreliable.
      * apply constructor_saveNotes, Hreliable.
  - simpl. auto.
Qed.

(** A world whose note was edited in place: same id, same toggle ids. *)
Lemma carried_over_edit (f : Note -> Note) (w w' : World) :
  currentNote w' = f <$> currentNote w ->
  (forall n, n_id (f n) = n_id n) ->
  (forall n, t_id <$> n_toggles (f n) = t_id <$> n_toggles n) ->
  ta_toggleId <$> textareas w' = ta_toggleId <$> textareas w ->
  n_id <$> notes w' = n_id <$> notes w ->
  (in_step w -> in_step w') ->
  carried_over w w'.
Proof.
  intros Hnote Hid Htoggles Htas Hnotes Hpersisted.
  unfold carried_over, regions_mirror_toggles.
  split; [|split; [|split]]; [| |exact Hnotes|exact Hpersisted].
  - intros Hmirror note' Hnote'. rewrite Hnote in Hnote'.
    destruct (currentNote w) as [note|]; [|discriminate].
    injection Hnote' as <-. rewrite Htas, Htoggles. apply Hmirror. reflexivity.
  - rewrite Hnote. destruct (currentNote w) as [note|]; [|reflexivity].
    simpl. rewrite Hid. reflexivity.
Qed.

Lemma alter_toggle_ids (f : Toggle -> Toggle) (i : nat) (toggles : list Toggle) :
  (forall t, t_id (f t) = t_id t) ->
  t_id <$> alter f i toggles = t_id <$> toggles.
Proof.
  intros Hf. apply list_eq. intros j. rewrite !list_lookup_fmap.
  destruct (decide (i = j)) as [->|Hne].
  - rewrite list_lookup_alter_eq. destruct (toggles !! j); simpl; [|reflexivity].
    rewrite Hf. reflexivity.
  - rewrite list_lookup_alter_ne by exact Hne. reflexivity.
Qed.

Lemma autoSave_carried (previousState : Note) (w : World) :
  carried_over w (autoSave previousState w).
Proof.
  unfold autoSave. destruct (currentNote w) as [note|] eqn:Hnote.
  - destruct (json_differs previousState note); [|apply carried_over_refl].
    destruct (updateNote_current_carried (history_push previousState w))
      as (Hn & Ht & _ & Hids & Hp).
    apply (carried_over_edit (set_n_updated (clock w)));
      [exact Hn | reflexivity | reflexivity | rewrite Ht; reflexivity
      | exact Hids | exact Hp].
  - apply carried_over_same; reflexivity.
Qed.

Lemma renderEditor_mirror (w : World) :
  regions_mirror_toggles (renderEditor w)
  /\ currentNote (renderEditor w) = currentNote w
  /\ notes (renderEditor w) = notes w
  /\ localStorage (renderEditor w) = localStorage w.
Proof.
  unfold renderEditor, regions_mirror_toggles.
  destruct (currentNote w) as [note|] eqn:Hnote.
  - split; [|split; [|split]]; [|exact Hnote|reflexivity|reflexivity].
    simpl. intros note' Hnote'. rewrite Hnote in Hnote'. injection Hnote' as <-.
    apply list_eq. intros i. rewrite !list_lookup_fmap, list_lookup_imap.
    destruct (n_toggles note !! i); reflexivity.
  - split; [|split; [|split]]; [|exact Hnote|reflexivity|reflexivity].
    intros note'. rewrite Hnote. discriminate.
Qed.

Lemma handleToggleSection_carried (toggleId : Z) (w : World) :
  carried_over w (_handleToggleSection toggleId w).
Proof.
  unfold _handleToggleSection.
  destruct (currentNote w) as [note|] eqn:Hnote; [|apply carried_over_refl].
  destruct (isRestoring w); [apply carried_over_refl|].
  destruct (capture_loop 0 (n_toggles note) (set_isRestoring true w) [])
    as [scrollPositions|]; [|apply carried_over_same; reflexivity].
  destruct (find_toggle toggleId note) as [[i toggle]|];
    [|apply carried_over_same; reflexivity].
  set (w1 := history_push _ _).
  destruct (updateNote_current_carried w1) as (Hn & _ & _ & Hids & Hp).
  destruct (renderEditor_mirror (updateNote_current w1)) as (Hm & Hn2 & Hns2 & Hls2).
  unfold carried_over, in_step, persisted in *.
  cbn [requestAnimationFrame currentNote notes localStorage textareas
       set_frames].
  split; [|split; [|split]].
  - intros _. unfold regions_mirror_toggles in *. exact Hm.
  - rewrite Hn2, Hn. subst w1. simpl. rewrite Hnote. reflexivity.
  - rewrite Hns2, Hids. reflexivity.
  - rewrite Hns2, Hls2. exact Hp.
Qed.

Lemma restoreFrame_carried (cl : RestoreClosure) (w : World) :
  carried_over w (restoreFrame cl w).
Proof.
  unfold restoreFrame.
  set (w1 := match editorContent w with
             | Some _ => set_editorContent (Some (cl_editorScrollTop cl)) w
             | None => w
             end).
  assert (H1 : carried_over w w1)
    by (subst w1; destruct (editorContent w);
        [apply carried_over_same; reflexivity | apply carried_over_refl]).
  apply (carried_over_trans _ _ _ H1).
  destruct (restore_loop cl 0 (cl_scrollPositions cl) w1) as [w2|w2] eqn:Hloop.
  - pose proof (restore_loop_ids cl _ 0%nat w1 w2 (or_introl Hloop)) as Hids.
    destruct (restore_loop_effect cl _ 0%nat w1 w2 (or_introl Hloop))
      as (tas & new & -> & _).
    apply carried_over_same; try reflexivity. exact Hids.
  - pose proof (restore_loop_ids cl _ 0%nat w1 w2 (or_intror Hloop)) as Hids.
    destruct (restore_loop_effect cl _ 0%nat w1 w2 (or_intror Hloop))
      as (tas & new & -> & _).
    apply carried_over_same; try reflexivity;
      try (unfold _resetScrollPositions; cbn;
           destruct (editorContent w1); reflexivity).
    cbn [set_isRestoring textareas]. rewrite reset_ids. exact Hids.
Qed.

Lemma targetRestore_carried (node : nat) (state : ScrollState) (w : World) :
  carried_over w (targetRestore node state w).
Proof.
  unfold targetRestore. destruct (attached node w) as [[i textarea]|].
  - apply carried_over_same; try reflexivity. apply write_scrollTop_ids.
  - apply carried_over_refl.
Qed.

Lemma finalCheck_carried (cl : RestoreClosure) (w : World) :
  carried_over w (finalCheck cl w).
Proof.
  unfold finalCheck.
  set (w1 := match cl_toggle_isOpen cl, cl_toggleScrollState cl with
             | true, Some _ => _ | _, _ => w end).
  assert (H1 : carried_over w w1).
  { subst w1. destruct (cl_toggle_isOpen cl); [|apply carried_over_refl].
    destruct (cl_toggleScrollState cl); [|apply carried_over_refl].
    destruct (querySelector (cl_toggleId cl) w) as [[j textarea]|];
      [|apply carried_over_refl].
    destruct (decide _); [|apply carried_over_refl].
    apply carried_over_same; try reflexivity. apply write_scrollTop_ids. }
  apply (carried_over_trans _ _ _ H1).
  destruct (final_loop cl 0 (cl_scrollPositions cl) w1) as [w2|w2] eqn:Hloop.
  - pose proof (final_loop_ids cl _ 0%nat w1 w2 (or_introl Hloop)) as Hids.
    destruct (final_loop_effect cl _ 0%nat w1 w2 (or_introl Hloop)) as (tas & ->).
    apply carried_over_same; try reflexivity. exact Hids.
  - pose proof (final_loop_ids cl _ 0%nat w1 w2 (or_intror Hloop)) as Hids.
    destruct (final_loop_effect cl _ 0%nat w1 w2 (or_intror Hloop)) as (tas & ->).
    apply carried_over_same; try reflexivity;
      try (unfold _resetScrollPositions; cbn;
           destruct (editorContent w1); reflexivity).
    cbn [set_isRestoring textareas]. rewrite reset_ids. exact Hids.
Qed.

Lemma callback_carried (cb : Callback) (w : World) :
  carried_over w (run_callback cb w).
Proof.
  destruct cb; simpl.
  - apply autoSave_carried.
  - apply handleToggleSection_carried.
  - apply restoreFrame_carried.
  - apply targetRestore_carried.
  - apply finalCheck_carried.
Qed.

Lemma edit_toggle_carried (f : Toggle -> Toggle) (i : nat) (note : Note)
    (w : World) :
  currentNote w = Some note ->
  (forall t, t_id (f t) = t_id t) ->
  carried_over w
    (updateNote_current
       (history_push (deep_copy note)
          (set_currentNote
             (Some (set_n_toggles (alter f i (n_toggles note)) note)) w))).
Proof.
  intros Hnote Hf.
  set (w1 := history_push _ _).
  destruct (updateNote_current_carried w1) as (Hn & Ht & _ & Hids & Hp).
  apply (carried_over_edit
           (fun n => set_n_updated (clock w)
                       (set_n_toggles (alter f i (n_toggles n)) n)));
    [|reflexivity| |rewrite Ht; reflexivity|exact Hids|exact Hp].
  - rewrite Hn, Hnote. reflexivity.
  - intros n. simpl. apply alter_toggle_ids, Hf.
Qed.

Lemma step_carried (ev : Event) (w : World) : carried_over w (step w ev).
Proof.
  destruct ev as [v|id v|id|node top height| |].
  - simpl. unfold handleNoteChange.
    destruct (currentNote w) as [note|] eqn:Hnote; [|apply carried_over_refl].
    apply (carried_over_edit (set_n_title v)); try reflexivity; auto.
    + cbn. destruct (autoSaveTimeout w); cbn; rewrite Hnote; reflexivity.
    + cbn. destruct (autoSaveTimeout w); reflexivity.
    + cbn. destruct (autoSaveTimeout w); reflexivity.
    + unfold in_step, persisted. cbn. destruct (autoSaveTimeout w); auto.
  - simpl. destruct (querySelector id w) as [[i textarea]|];
      [|apply carried_over_refl].
    set (w1 := set_textareas _ w).
    assert (H1 : carried_over w w1).
    { apply carried_over_same; try reflexivity. subst w1. simpl.
      apply list_eq. intros j. rewrite !list_lookup_fmap.
      destruct (decide (i = j)) as [->|Hne].
      - rewrite list_lookup_alter_eq. destruct (textareas w !! j); reflexivity.
      - rewrite list_lookup_alter_ne by exact Hne. reflexivity. }
    apply (carried_over_trans _ _ _ H1).
    unfold updateToggleContent.
    destruct (currentNote w1) as [note|] eqn:Hnote; [|apply carried_over_refl].
    destruct (find_toggle id note) as [[k toggle]|]; [|apply carried_over_refl].
    apply edit_toggle_carried; [exact Hnote | reflexivity].
  - simpl. unfold toggleSection.
    destruct (currentNote w); [|apply carried_over_refl].
    apply carried_over_same;
      (destruct (toggleDebounce w); cbn;
       destruct (scrollRestoreTimeout w); reflexivity).
  - simpl. destruct (attached node w) as [[i textarea]|];
      [|apply carried_over_refl].
    apply carried_over_same; try reflexivity. simpl.
    apply list_eq. intros j. rewrite !list_lookup_fmap.
    destruct (decide (i = j)) as [->|Hne].
    + rewrite list_lookup_alter_eq. destruct (textareas w !! j); reflexivity.
    + rewrite list_lookup_alter_ne by exact Hne. reflexivity.
  - simpl. unfold frame.
    apply (frame_invariant (carried_over w) (fun _ => True)).
    + intros cb w' _ Hw'. eapply carried_over_trans; [exact Hw'|].
      apply callback_carried.
    + apply Forall_forall. auto.
    + apply carried_over_same; reflexivity.
  - simpl. unfold tick.
    apply (fire_due_invariant (carried_over w) (fun _ => True)).
    + intros cb w' _ Hw'. eapply carried_over_trans; [exact Hw'|].
      apply callback_carried.
    + intros handle w' Hw'. eapply carried_over_trans; [exact Hw'|].
      apply carried_over_same; reflexivity.
    + apply Forall_forall. auto.
    + apply carried_over_same; reflexivity.
Qed.

Lemma run_carried (evs : list Event) (w : World) : carried_over w (run evs w).
Proof.
  revert w. induction evs as [|ev evs IH]; intros w.
  - apply carried_over_refl.
  - rewrite run_cons. eapply carried_over_trans; [apply step_carried | apply IH].
Qed.


(** X9.  uiManager.js, [renderEditor] with the handlers and callbacks of the
    editor.  Once the regions mirror the toggles of the open note, one
    region for each toggle and in the same order, they go on doing so
    whatever is typed or clicked and whichever timers and frames run. *)
Theorem regions_follow_toggles (evs : list Event) (w : World) :
  regions_mirror_toggles w -> regions_mirror_toggles (run evs w).
Proof. apply run_carried. Qed.

(** X10.  uiManager.js with noteManager.js, [updateNote].  Editing never adds,
    removes or reorders notes: under every sequence of events the list has
    the same ids in the same order, and the open note keeps its id. *)
Theorem editing_keeps_note_ids (evs : list Event) (w : World) :
  n_id <$> notes (run evs w) = n_id <$> notes w
  /\ n_id <$> currentNote (run evs w) = n_id <$> currentNote w.
Proof.
  destruct (run_carried evs w) as (_ & Hnote & Hnotes & _). auto.
Qed.



(** *** Edits of a toggle *)

(** X12.  uiManager.js, [updateToggleTitle] and [updateToggleContent].  An edit
    addressed to a toggle id that the open note does not have, or made when
    no note is open, changes nothing: no history entry, no save. *)
Theorem toggle_edit_unknown_id (toggleId : Z) (v : JSString) (w : World) :
  (forall note, currentNote w = Some note -> find_toggle toggleId note = None) ->
  updateToggleTitle toggleId v w = w /\ updateToggleContent toggleId v w = w.
Proof.
  intros Hnone. unfold updateToggleTitle, updateToggleContent.
  destruct (currentNote w) as [note|]; [|auto].
  rewrite (Hnone note eq_refl). auto.
Qed.

Lemma find_toggle_Some (toggleId : Z) (note : Note) (i : nat) (toggle : Toggle) :
  find_toggle toggleId note = Some (i, toggle) ->
  n_toggles note !! i = Some toggle /\ t_id toggle = toggleId
  /\ forall j t, n_toggles note !! j = Some t -> (j < i)%nat -> t_id t <> toggleId.
Proof. unfold find_toggle. intros H%list_find_Some. exact H. Qed.

Lemma find_toggle_alter (f : Toggle -> Toggle) (toggleId : Z) (note : Note)
    (i : nat) (toggle : Toggle) :
  (forall t, t_id (f t) = t_id t) ->
  find_toggle toggleId note = Some (i, toggle) ->
  find_toggle toggleId (set_n_toggles (alter f i (n_toggles note)) note)
  = Some (i, f toggle).
Proof.
  intros Hf (Hi & Hid & Hfirst)%find_toggle_Some.
  unfold find_toggle. apply list_find_Some. simpl. split; [|split].
  - rewrite list_lookup_alter_eq, Hi. reflexivity.
  - rewrite Hf. exact Hid.
  - intros j t Hj Hlt. rewrite list_lookup_alter_ne in Hj by lia.
    exact (Hfirst j t Hj Hlt).
Qed.

Lemma updateToggleTitle_effect (toggleId : Z) (newTitle : JSString)
    (w : World) (note : Note) (i : nat) (toggle : Toggle) :
  currentNote w = Some note ->
  find_toggle toggleId note = Some (i, toggle) ->
  let w' := updateToggleTitle toggleId newTitle w in
  currentNote w'
  = Some (set_n_updated (clock w)
            (set_n_toggles (<[i := set_t_title newTitle toggle]> (n_toggles note))
               note))
  /\ (forall j t, n_toggles note !! j = Some t -> (j < i)%nat -> t_id t <> toggleId)
  /\ HistoryManager.undoStack (history w')
     = note :: HistoryManager.undoStack (history w)
  /\ HistoryManager.redoStack (history w') = []
  /\ timers w' = timers w
  /\ textareas w' = textareas w.
Proof.
  intros Hnote Hfind. cbv zeta. unfold updateToggleTitle. rewrite Hnote, Hfind.
  destruct (find_toggle_Some _ _ _ _ Hfind) as (Hi & Hid & Hfirst).
  set (w1 := history_push _ _).
  destruct (updateNote_current_carried w1) as (Hn & Ht & Hh & _ & _).
  destruct (updateNote_current_effect w1) as (ns & ls & Heq).
  split; [|split; [exact Hfirst|]].
  - rewrite Hn. subst w1. simpl. do 3 f_equal.
    apply list_eq. intros j. destruct (decide (i = j)) as [->|Hne].
    + rewrite list_lookup_alter_eq, list_lookup_insert_eq, Hi;
        [reflexivity | eapply lookup_lt_Some, Hi].
    + rewrite list_lookup_alter_ne, list_lookup_insert_ne by exact Hne.
      reflexivity.
  - rewrite Hh, Ht, Heq. repeat split.
Qed.

(** X13.  uiManager.js, [updateToggleTitle].  The first toggle with the id gets
    the new title and every other toggle stays as it is; the note as it was
    before the edit is pushed on the undo stack, the redo stack is emptied,
    and no timer is set: the edit is committed at once. *)
Theorem updateToggleTitle_commits (toggleId : Z) (newTitle : JSString)
    (w : World) (note : Note) (i : nat) (toggle : Toggle) :
  currentNote w = Some note ->
  find_toggle toggleId note = Some (i, toggle) ->
  let w' := updateToggleTitle toggleId newTitle w in
  currentNote w'
  = Some (set_n_updated (clock w)
            (set_n_toggles (<[i := set_t_title newTitle toggle]> (n_toggles note))
               note))
  /\ (forall j t, n_toggles note !! j = Some t -> (j < i)%nat -> t_id t <> toggleId)
  /\ HistoryManager.undoStack (history w')
     = note :: HistoryManager.undoStack (history w)
  /\ HistoryManager.redoStack (history w') = []
  /\ timers w' = timers w
  /\ textareas w' = textareas w.
Proof.
  exact (updateToggleTitle_effect toggleId newTitle w note i toggle).
Qed.

(** X14.  uiManager.js, [updateToggleTitle].  Edits of a toggle title are not
    coalesced and not compared with the note: each of a run of edits of a
    toggle the note has, also one that types the title there was, pushes an
    entry of its own on the undo stack. *)
Theorem toggle_title_edits_not_coalesced (toggleId : Z) (titles : list JSString)
    (w : World) (note : Note) (i : nat) (toggle : Toggle) :
  currentNote w = Some note ->
  find_toggle toggleId note = Some (i, toggle) ->
  let w' := fold_left (fun w v => updateToggleTitle toggleId v w) titles w in
  length (HistoryManager.undoStack (history w'))
  = (length titles + length (HistoryManager.undoStack (history w)))%nat.
Proof.
  cbv zeta. revert w note toggle.
  induction titles as [|v rest IH]; intros w note toggle Hnote Hfind;
    [reflexivity|].
  cbn [fold_left].
  destruct (updateToggleTitle_effect toggleId v w note i toggle Hnote Hfind)
    as (Hn & _ & Hu & _).
  rewrite (IH _ _ (set_t_title v toggle) Hn).
  - rewrite Hu. simpl. lia.
  - pose proof (find_toggle_alter (set_t_title v) toggleId note i toggle
                  ltac:(reflexivity) Hfind) as Hfa.
    destruct (find_toggle_Some _ _ _ _ Hfind) as (Hi & _).
    unfold find_toggle in *. simpl in *.
    rewrite <- Hfa. f_equal.
    apply list_eq. intros j. destruct (decide (i = j)) as [->|Hne].
    + rewrite list_lookup_alter_eq, list_lookup_insert_eq, Hi;
        [reflexivity | eapply lookup_lt_Some, Hi].
    + rewrite list_lookup_alter_ne, list_lookup_insert_ne by exact Hne.
      reflexivity.
Qed.

(** *** Text written into the page *)

Lemma escapeHtml_plain (unsafe : JSString) :
  Forall (fun c => c <> 38 /\ c <> 160 /\ c <> 60 /\ c <> 62) unsafe ->
  escapeHtml unsafe = unsafe.
Proof.
  intros Hplain.
  assert (Hbind : unsafe ≫= escape_unit = unsafe).
  { induction Hplain as [|c rest (H1 & H2 & H3 & H4) _ IH]; [reflexivity|].
    cbn [mbind list_bind]. rewrite IH. unfold escape_unit.
    repeat (case_decide; [contradiction|]). reflexivity. }
  destruct unsafe; [reflexivity | exact Hbind].
Qed.

(** X15.  uiManager.js, [escapeHtml].  The result holds no angle bracket; a text
    without ampersand, no-break space and angle brackets is returned as it
    is, quotes included. *)
Theorem escapeHtml_no_markup (unsafe : JSString) :
  Forall (fun c => c <> 60 /\ c <> 62) (escapeHtml unsafe)
  /\ (Forall (fun c => c <> 38 /\ c <> 160 /\ c <> 60 /\ c <> 62) unsafe ->
      escapeHtml unsafe = unsafe).
Proof.
  assert (Hbind : Forall (fun c => c <> 60 /\ c <> 62) (unsafe ≫= escape_unit)).
  { apply Forall_bind, Forall_forall. intros c _. unfold escape_unit, compose.
    repeat case_decide; try compute_done.
    constructor; [split; assumption | constructor]. }
  split.
  - destruct unsafe; [constructor | exact Hbind].
  - apply escapeHtml_plain.
Qed.

Lemma replace_lower_unit (c : Z) :
  let c' := lower_unit (replace_unit c) in
  48 <= c' <= 57 \/ 97 <= c' <= 122 \/ c' = 95.
Proof.
  cbv zeta. unfold lower_unit, replace_unit, alphanumeric.
  destruct (Z.leb_spec 48 c), (Z.leb_spec c 57), (Z.leb_spec 65 c),
    (Z.leb_spec c 90), (Z.leb_spec 97 c), (Z.leb_spec c 122); cbn;
    repeat match goal with
           | |- context [?a <=? ?b] => destruct (Z.leb_spec a b); cbn
           end; lia.
Qed.

(** X16.  uiManager.js, [handleExportCurrentNote].  The name of the exported
    file is made of lower-case ASCII letters, digits and underscores only,
    followed by .json; it has one character for each code unit of the
    title, and a note without a title is exported as untitled_note.json. *)
Theorem exportFileName_safe (title : JSString) :
  exists fileName,
    exportFileName title = fileName ++ str ".json"
    /\ Forall (fun c => 48 <= c <= 57 \/ 97 <= c <= 122 \/ c = 95) fileName
    /\ (title <> [] -> length fileName = length title)
    /\ (title = [] -> fileName = str "untitled_note").
Proof.
  unfold exportFileName. eexists. split; [reflexivity|]. split; [|split].
  - rewrite <- list_fmap_compose. apply Forall_fmap, Forall_forall.
    intros c _. apply replace_lower_unit.
  - intros Hne. rewrite !length_fmap. destruct title; [contradiction|reflexivity].
  - intros ->. reflexivity.
Qed.


(** *** Import *)

Lemma has_keys_true (keys : list JSString) (v : NoteImport.JSON) :
  keys <> [] ->
  NoteImport.has_keys keys v = Some true
  <-> exists fields, v = NoteImport.JObject fields
        /\ Forall (fun key => is_Some (NoteImport.field key fields)) keys.
Proof.
  intros Hne. split.
  - destruct v; simpl; try (destruct keys; [contradiction|discriminate]).
    intros [= Hall]. exists fields. split; [reflexivity|].
    apply Forall_forall. intros key Hin.
    rewrite forallb_forall in Hall.
    specialize (Hall key ltac:(apply list_elem_of_In, Hin)).
    apply bool_decide_eq_true in Hall. exact Hall.
  - intros (fields & -> & Hall). simpl. f_equal.
    apply forallb_forall. intros key Hin. apply bool_decide_eq_true.
    rewrite Forall_forall in Hall. apply Hall, list_elem_of_In, Hin.
Qed.

Lemma validate_toggles_spec (toggles : list NoteImport.JSON) :
  NoteImport.validate_toggles toggles = Some true
  <-> Forall NoteImport.toggle_shaped toggles.
Proof.
  induction toggles as [|toggle rest IH]; simpl.
  - split; [constructor | reflexivity].
  - pose proof (has_keys_true NoteImport.toggle_keys toggle ltac:(discriminate))
      as Hkeys.
    destruct (NoteImport.has_keys NoteImport.toggle_keys toggle) as [[|]|].
    + rewrite IH. split.
      * intros Hrest. constructor; [apply Hkeys; reflexivity | exact Hrest].
      * intros Hall. inversion Hall; assumption.
    + split; [discriminate|]. intros Hall. inversion Hall as [|? ? Hshape _]; subst.
      apply Hkeys in Hshape. discriminate.
    + split; [discriminate|]. intros Hall. inversion Hall as [|? ? Hshape _]; subst.
      apply Hkeys in Hshape. discriminate.
Qed.

Lemma validate_note_spec (note : NoteImport.JSON) :
  NoteImport.validate_note note = Some true <-> NoteImport.note_shaped note.
Proof.
  unfold NoteImport.validate_note, NoteImport.note_shaped.
  pose proof (has_keys_true NoteImport.note_keys note ltac:(discriminate)) as Hkeys.
  destruct (NoteImport.has_keys NoteImport.note_keys note) as [[|]|].
  - destruct (proj1 Hkeys eq_refl) as (fields & -> & Hall).
    destruct (NoteImport.field (str "toggles") fields) as [toggles|] eqn:Ht.
    + destruct toggles as [| | | |toggles|];
        try (split; [discriminate|];
             intros (fields' & toggles' & [= <-] & _ & Ht' & _); congruence).
      rewrite validate_toggles_spec. split.
      * intros Hshape. exists fields, toggles. auto.
      * intros (fields' & toggles' & [= <-] & _ & Ht' & Hshape). congruence.
    + split; [discriminate|].
      intros (fields' & toggles' & [= <-] & _ & Ht' & _). congruence.
  - split; [discriminate|]. intros (fields & toggles & -> & Hall & _).
    assert (Some false = Some true) by (apply Hkeys; eauto). discriminate.
  - split; [discriminate|]. intros (fields & toggles & -> & Hall & _).
    assert (@None bool = Some true) by (apply Hkeys; eauto). discriminate.
Qed.

Lemma validate_notes_spec (data : list NoteImport.JSON) :
  NoteImport.validate_notes data = Some true
  <-> Forall NoteImport.note_shaped data.
Proof.
  induction data as [|note rest IH]; simpl.
  - split; [constructor | reflexivity].
  - pose proof (validate_note_spec note) as Hnote.
    destruct (NoteImport.validate_note note) as [[|]|].
    + rewrite IH. split.
      * intros Hrest. constructor; [apply Hnote; reflexivity | exact Hrest].
      * intros Hall. inversion Hall; assumption.
    + split; [discriminate|]. intros Hall. inversion Hall as [|? ? Hshape _]; subst.
      apply Hnote in Hshape. discriminate.
    + split; [discriminate|]. intros Hall. inversion Hall as [|? ? Hshape _]; subst.
      apply Hnote in Hshape. discriminate.
Qed.

Lemma validateSingleNoteData_spec (v : NoteImport.JSON) :
  NoteImport._validateSingleNoteData v = Some true <-> NoteImport.note_shaped v.
Proof.
  destruct v; simpl; try apply validate_note_spec;
    (split; [discriminate | intros (? & ? & [=] & _)]).
Qed.

Lemma validateImportData_spec (v : NoteImport.JSON) :
  NoteImport._validateImportData v = Some true
  <-> exists notes, v = NoteImport.JArray notes
        /\ Forall NoteImport.note_shaped notes.
Proof.
  destruct v; simpl;
    try (split; [discriminate | intros (? & [=] & _)]).
  rewrite validate_notes_spec. split.
  - intros Hall. eauto.
  - intros (notes & [= <-] & Hall). exact Hall.
Qed.

(** X17.  part_000, [_validateSingleNoteData], and noteManager.js,
    [_validateImportData].  The first accepts exactly the objects that have
    the five keys of a note and whose [toggles] is an array of objects that
    each have the four keys of a toggle; the second accepts exactly the
    arrays of such objects.  What the keys hold is not looked at. *)
Theorem validators_accept_note_shapes (v : NoteImport.JSON) :
  (NoteImport._validateSingleNoteData v = Some true <-> NoteImport.note_shaped v)
  /\ (NoteImport._validateImportData v = Some true
      <-> exists notes, v = NoteImport.JArray notes
            /\ Forall NoteImport.note_shaped notes).
Proof.
  split; [apply validateSingleNoteData_spec | apply validateImportData_spec].
Qed.


Lemma field_set_field_eq (key : JSString) (v : NoteImport.JSON)
    (fields : list (JSString * NoteImport.JSON)) :
  NoteImport.field key (NoteImport.set_field key v fields) = Some v.
Proof.
  induction fields as [|[k x] rest IH]; simpl.
  - rewrite decide_True by reflexivity. reflexivity.
  - destruct (decide (k = key)) as [Heq|Hne]; simpl.
    + rewrite decide_True by exact Heq. reflexivity.
    + rewrite decide_False by exact Hne. exact IH.
Qed.

Lemma field_set_field_ne (key other : JSString) (v : NoteImport.JSON)
    (fields : list (JSString * NoteImport.JSON)) :
  other <> key ->
  NoteImport.field other (NoteImport.set_field key v fields)
  = NoteImport.field other fields.
Proof.
  intros Hne. induction fields as [|[k x] rest IH]; simpl.
  - rewrite decide_False by congruence. reflexivity.
  - destruct (decide (k = key)) as [Heq|Hk]; simpl.
    + subst k. rewrite !decide_False by congruence. reflexivity.
    + destruct (decide (k = other)); [reflexivity | exact IH].
Qed.

Lemma keys_set_field (key : JSString) (v : NoteImport.JSON)
    (fields : list (JSString * NoteImport.JSON)) :
  is_Some (NoteImport.field key fields) ->
  (NoteImport.set_field key v fields).*1 = fields.*1.
Proof.
  induction fields as [|[k x] rest IH]; cbn [NoteImport.set_field NoteImport.field];
    intros Hsome.
  - destruct Hsome as [? [=]].
  - destruct (decide (k = key)) as [Heq|Hk]; [reflexivity|].
    rewrite !fmap_cons, IH by exact Hsome. reflexivity.
Qed.

Lemma existing_ids_Some (notes : list NoteImport.JSON) :
  is_Some (NoteImport.existing_ids notes) <-> NoteImport.JNull ∉ notes.
Proof.
  unfold NoteImport.existing_ids. rewrite mapM_is_Some, Forall_forall. split.
  - intros Hall Hin. destruct (Hall _ Hin) as [? [=]].
  - intros Hno note Hin. destruct note; simpl; eauto.
    contradiction.
Qed.

Lemma imported_title_string (Number_toString : float -> JSString) (s : JSString) :
  NoteImport.imported_title Number_toString (Some (NoteImport.JString s))
  = Some (if decide (s = []) then str "Untitled Note (Imported)"
          else s ++ str " (Imported)").
Proof.
  simpl. destruct (decide (s = [])) as [->|Hne]; [reflexivity|].
  rewrite bool_decide_eq_false_2 by exact Hne. reflexivity.
Qed.

(** A title that is an object is converted exactly when the object has no
    property of its own under toString. *)
Lemma imported_title_object (Number_toString : float -> JSString)
    (properties : list (JSString * NoteImport.JSON)) :
  is_Some (NoteImport.imported_title Number_toString
             (Some (NoteImport.JObject properties)))
  <-> NoteImport.field (str "toString") properties = None.
Proof.
  simpl. destruct (NoteImport.field (str "toString") properties) as [v|].
  - rewrite decide_True by eauto. split; [intros [? [=]] | discriminate].
  - rewrite decide_False by (intros [? [=]]). split; [reflexivity | eauto].
Qed.

Lemma rename_None (Number_toString : float -> JSString) (newId : float)
    (fields : list (JSString * NoteImport.JSON)) :
  ~ NoteImport.title_converts Number_toString fields ->
  NoteImport.rename Number_toString newId fields = None.
Proof.
  unfold NoteImport.title_converts, NoteImport.rename. intros Hno.
  rewrite field_set_field_ne by discriminate.
  destruct (NoteImport.imported_title Number_toString
              (NoteImport.field (str "title") fields)); [|reflexivity].
  exfalso. apply Hno. eauto.
Qed.

(** What the conflict branch makes of a note that has the keys of a note
    and a title that can be converted: the keys stay as they are and in
    their order, the id is the new one, the title says that the note was
    imported, every key but id, title and toggles holds what it held, and
    the toggles are as many as before, each with its keys and with what they
    held, but for its id. *)
Lemma rename_spec (Number_toString : float -> JSString) (newId : float)
    (fields : list (JSString * NoteImport.JSON)) (toggles : list NoteImport.JSON)
    (title : JSString) :
  Forall (fun key => is_Some (NoteImport.field key fields)) NoteImport.note_keys ->
  NoteImport.field (str "toggles") fields = Some (NoteImport.JArray toggles) ->
  Forall NoteImport.toggle_shaped toggles ->
  NoteImport.imported_title Number_toString (NoteImport.field (str "title") fields)
  = Some title ->
  exists added,
    NoteImport.rename Number_toString newId fields = Some added
    /\ added.*1 = fields.*1
    /\ NoteImport.field (str "id") added = Some (NoteImport.JNumber newId)
    /\ NoteImport.field (str "title") added = Some (NoteImport.JString title)
    /\ (forall key, key ∉ [str "id"; str "title"; str "toggles"] ->
          NoteImport.field key added = NoteImport.field key fields)
    /\ exists toggles',
         NoteImport.field (str "toggles") added = Some (NoteImport.JArray toggles')
         /\ length toggles' = length toggles
         /\ forall i toggle, toggles !! i = Some (NoteImport.JObject toggle) ->
              exists toggle' n,
                toggles' !! i = Some (NoteImport.JObject toggle')
                /\ toggle'.*1 = toggle.*1
                /\ NoteImport.field (str "id") toggle' = Some (NoteImport.JNumber n)
                /\ forall key, key <> str "id" ->
                     NoteImport.field key toggle' = NoteImport.field key toggle.
Proof.
  intros Hkeys Htoggles Hshaped Hconverts. unfold NoteImport.rename.
  assert (Hid : is_Some (NoteImport.field (str "id") fields)).
  { rewrite Forall_forall in Hkeys. apply Hkeys. compute_done. }
  assert (Htitle : is_Some (NoteImport.field (str "title") fields)).
  { rewrite Forall_forall in Hkeys. apply Hkeys. compute_done. }
  set (f1 := NoteImport.set_field (str "id") (NoteImport.JNumber newId) fields).
  assert (Ht1 : NoteImport.field (str "title") f1
                = NoteImport.field (str "title") fields)
    by (apply field_set_field_ne; discriminate).
  rewrite Ht1, Hconverts. cbn [mbind option_bind].
  set (f2 := NoteImport.set_field (str "title") (NoteImport.JString title) f1).
  assert (Hg2 : NoteImport.field (str "toggles") f2
                = Some (NoteImport.JArray toggles)).
  { subst f2 f1. rewrite !field_set_field_ne by discriminate. exact Htoggles. }
  rewrite Hg2.
  set (toggles' := imap _ toggles).
  eexists. split; [reflexivity|].
  split; [|split; [|split; [|split]]].
  - rewrite keys_set_field.
    + subst f2. rewrite keys_set_field.
      * subst f1. apply keys_set_field, Hid.
      * rewrite Ht1. exact Htitle.
    + rewrite Hg2. eauto.
  - rewrite field_set_field_ne by discriminate. subst f2.
    rewrite field_set_field_ne by discriminate. apply field_set_field_eq.
  - rewrite field_set_field_ne by discriminate. subst f2.
    apply field_set_field_eq.
  - intros key Hkey.
    rewrite !not_elem_of_cons in Hkey. destruct Hkey as (H1 & H2 & H3 & _).
    subst f2 f1. rewrite !field_set_field_ne by assumption. reflexivity.
  - exists toggles'. split; [apply field_set_field_eq|].
    split; [apply length_imap|].
    intros i toggle Hi. subst toggles'. rewrite list_lookup_imap, Hi. simpl.
    rewrite Forall_forall in Hshaped.
    destruct (Hshaped _ (list_elem_of_lookup_2 _ _ _ Hi)) as (tf & [= <-] & Htk).
    eexists _, _. split; [reflexivity|]. split; [|split].
    + apply keys_set_field. rewrite Forall_forall in Htk. apply Htk. compute_done.
    + apply field_set_field_eq.
    + intros key Hne. apply field_set_field_ne. exact Hne.
Qed.

(** X18.  part_000, [importSingleNote].  An import that fails leaves the list as
    it was and saves nothing.  An import succeeds exactly when the text
    parses to an object of the shape of a note, no note of the list is null
    and, if the id of the note is taken, its title can be converted to a
    string (a title that is an object with a property of its own under
    toString cannot); it then puts one note in front of the notes there
    were, with the keys of the parsed object, and saves the new list. *)
Theorem importSingleNote_all_or_nothing (Number_toString : float -> JSString)
    (now : Z) (parsed : option NoteImport.JSON) (notes : list NoteImport.JSON) :
  let o := NoteImport.importSingleNote Number_toString now parsed notes in
  (NoteImport.result o = false ->
     NoteImport.notes_after o = notes /\ NoteImport.written o = None)
  /\ (NoteImport.result o = true ->
        exists fields added,
          parsed = Some (NoteImport.JObject fields)
          /\ NoteImport.notes_after o = NoteImport.JObject added :: notes
          /\ added.*1 = fields.*1
          /\ NoteImport.written o = Some (NoteImport.notes_after o))
  /\ (NoteImport.result o = true
      <-> exists fields existingIds,
            parsed = Some (NoteImport.JObject fields)
            /\ NoteImport.note_shaped (NoteImport.JObject fields)
            /\ NoteImport.existing_ids notes = Some existingIds
            /\ (NoteImport.has_id existingIds (NoteImport.field (str "id") fields)
                = true ->
                NoteImport.title_converts Number_toString fields))
  /\ (is_Some (NoteImport.existing_ids notes) <-> NoteImport.JNull ∉ notes)
  /\ (forall fields properties,
        NoteImport.field (str "title") fields
        = Some (NoteImport.JObject properties) ->
        NoteImport.title_converts Number_toString fields
        <-> NoteImport.field (str "toString") properties = None).
Proof.
  cbv zeta.
  assert (Hlast : forall fields properties,
            NoteImport.field (str "title") fields
            = Some (NoteImport.JObject properties) ->
            NoteImport.title_converts Number_toString fields
            <-> NoteImport.field (str "toString") properties = None).
  { intros fields properties Ht. unfold NoteImport.title_converts. rewrite Ht.
    apply imported_title_object. }
  pose proof (existing_ids_Some notes) as Hnull.
  unfold NoteImport.importSingleNote.
  destruct parsed as [note|]; simpl.
  2:{ split; [auto|]. split; [discriminate|].
      split; [|auto]. split; [discriminate | intros (? & ? & [=] & _)]. }
  pose proof (validateSingleNoteData_spec note) as Hvalid.
  destruct (NoteImport._validateSingleNoteData note) as [[|]|].
  - destruct (proj1 Hvalid eq_refl)
      as (fields & toggles & -> & Hkeys & Htoggles & Hshaped).
    cbn [NoteImport.spread].
    destruct (NoteImport.existing_ids notes) as [ids|]; simpl.
    + destruct (NoteImport.has_id ids (NoteImport.field (str "id") fields))
        eqn:Htaken.
      * destruct (NoteImport.imported_title Number_toString
                    (NoteImport.field (str "title") fields)) as [title|] eqn:Hc.
        -- destruct (rename_spec Number_toString (number_of_Z now) fields toggles
                       title Hkeys Htoggles Hshaped Hc)
             as (added & -> & Hk & _).
           simpl. split; [discriminate|]. split; [eauto 10|].
           split; [|auto]. split; [|reflexivity]. intros _.
           exists fields, ids. split; [reflexivity|].
           split; [apply Hvalid; reflexivity|]. split; [reflexivity|].
           intros _. unfold NoteImport.title_converts. rewrite Hc. eauto.
        -- rewrite rename_None
             by (unfold NoteImport.title_converts; rewrite Hc; intros [? [=]]).
           simpl. split; [auto|]. split; [discriminate|]. split; [|auto].
           split; [discriminate|].
           intros (fields' & ids' & [= <-] & _ & [= <-] & Hconv).
           specialize (Hconv Htaken). unfold NoteImport.title_converts in Hconv.
           rewrite Hc in Hconv. destruct Hconv as [? [=]].
      * simpl. split; [discriminate|]. split; [eauto 10|]. split; [|auto].
        split; [|reflexivity]. intros _. exists fields, ids.
        split; [reflexivity|]. split; [apply Hvalid; reflexivity|].
        split; [reflexivity | rewrite Htaken; discriminate].
    + split; [auto|]. split; [discriminate|]. split; [|auto].
      split; [discriminate | intros (? & ? & _ & _ & [=] & _)].
  - simpl. split; [auto|]. split; [discriminate|]. split; [|auto].
    split; [discriminate|].
    intros (fields & ids & [= ->] & Hshape & _). apply Hvalid in Hshape.
    discriminate.
  - simpl. split; [auto|]. split; [discriminate|]. split; [|auto].
    split; [discriminate|].
    intros (fields & ids & [= ->] & Hshape & _). apply Hvalid in Hshape.
    discriminate.
Qed.

(** X19.  part_000, [importSingleNote].  A note whose id no note of the list has
    enters the list exactly as it was parsed; a note whose id is taken and
    whose title can be converted to a string enters as a copy with the clock
    reading as its id, a title that ends in (Imported), renumbered toggles,
    and everything else as parsed; a note whose id is taken and whose title
    cannot be converted is not added, and the import returns false. *)
Theorem importSingleNote_adds (Number_toString : float -> JSString) (now : Z)
    (fields : list (JSString * NoteImport.JSON)) (notes : list NoteImport.JSON)
    (existingIds : list (option NoteImport.JSON)) :
  NoteImport.note_shaped (NoteImport.JObject fields) ->
  NoteImport.existing_ids notes = Some existingIds ->
  let taken :=
    NoteImport.has_id existingIds (NoteImport.field (str "id") fields) in
  let o :=
    NoteImport.importSingleNote Number_toString now
      (Some (NoteImport.JObject fields)) notes in
  (taken = false ->
     NoteImport.notes_after o = NoteImport.JObject fields :: notes)
  /\ (taken = true -> NoteImport.title_converts Number_toString fields ->
        exists added,
          NoteImport.notes_after o = NoteImport.JObject added :: notes
          /\ NoteImport.field (str "id") added
             = Some (NoteImport.JNumber (number_of_Z now))
          /\ (forall s,
                NoteImport.field (str "title") fields = Some (NoteImport.JString s) ->
                NoteImport.field (str "title") added
                = Some (NoteImport.JString
                          (if decide (s = []) then str "Untitled Note (Imported)"
                           else s ++ str " (Imported)")))
          /\ (forall key, key ∉ [str "id"; str "title"; str "toggles"] ->
                NoteImport.field key added = NoteImport.field key fields))
  /\ (taken = true -> ~ NoteImport.title_converts Number_toString fields ->
        NoteImport.result o = false /\ NoteImport.notes_after o = notes)
  /\ (forall s, NoteImport.field (str "title") fields = Some (NoteImport.JString s) ->
        NoteImport.title_converts Number_toString fields).
Proof.
  intros Hshape Hids. cbv zeta. unfold NoteImport.importSingleNote.
  rewrite (proj2 (validateSingleNoteData_spec _) Hshape), Hids.
  destruct Hshape as (fields' & toggles & [= <-] & Hkeys & Htoggles & Hshaped).
  cbn [NoteImport.spread]. split; [|split; [|split]].
  - intros ->. reflexivity.
  - intros -> [title Hc].
    destruct (rename_spec Number_toString (number_of_Z now) fields toggles title
                Hkeys Htoggles Hshaped Hc)
      as (added & -> & _ & Hid & Htitle & Hother & _).
    exists added. split; [reflexivity|]. split; [exact Hid|].
    split; [|exact Hother].
    intros s Hs. rewrite Hs, imported_title_string in Hc. injection Hc as <-.
    exact Htitle.
  - intros -> Hno. rewrite rename_None by exact Hno. split; reflexivity.
  - intros s Hs. unfold NoteImport.title_converts.
    rewrite Hs, imported_title_string. eauto.
Qed.

Lemma merge_loop_adds (Number_toString : float -> JSString) (reading : nat -> Z)
    (existingIds : list (option NoteImport.JSON)) (importedNotes : list NoteImport.JSON) :
  forall (newNotesAdded : nat) (notes : list NoteImport.JSON),
    exists added,
      snd (NoteImport.merge_loop Number_toString reading existingIds newNotesAdded
             importedNotes notes)
      = added ++ notes
      /\ (length added <= length importedNotes)%nat
      /\ (fst (NoteImport.merge_loop Number_toString reading existingIds
                 newNotesAdded importedNotes notes) = true ->
          length added = length importedNotes)
      /\ (Forall (NoteImport.fresh_id existingIds) importedNotes ->
          NoteImport.merge_loop Number_toString reading existingIds newNotesAdded
            importedNotes notes
          = (true, reverse importedNotes ++ notes)).
Proof.
  induction importedNotes as [|note rest IH]; intros k notes;
    cbn [NoteImport.merge_loop].
  - exists []. repeat split; auto.
  - set (noteToAdd := if NoteImport.has_id existingIds _ then _ else _).
    destruct noteToAdd as [fields|] eqn:Hadd.
    + destruct (IH (S k) (NoteImport.JObject fields :: notes))
        as (added & Heq & Hle & Hlen & Hfresh).
      exists (added ++ [NoteImport.JObject fields]).
      rewrite Heq, <- app_assoc, length_app. cbn [length app].
      split; [reflexivity|]. split; [lia|]. split; [intros H; rewrite Hlen by exact H; lia|].
      intros Hall. inversion Hall as [|? ? (fields' & -> & Hno) Hrest]; subst.
      subst noteToAdd. cbn [NoteImport.spread] in Hadd. rewrite Hno in Hadd.
      injection Hadd as <-.
      rewrite (Hfresh Hrest), reverse_cons, <- app_assoc. reflexivity.
    + exists []. cbn [fst snd length app]. split; [reflexivity|].
      split; [lia|]. split; [discriminate|].
      intros Hall. inversion Hall as [|? ? (fields' & -> & Hno) Hrest]; subst.
      subst noteToAdd. cbn [NoteImport.spread] in Hadd. rewrite Hno in Hadd.
      discriminate.
Qed.

(** The loop stops at the first note whose copy cannot be made, with the
    notes before it in the list. *)
Lemma merge_loop_stops (Number_toString : float -> JSString) (reading : nat -> Z)
    (existingIds : list (option NoteImport.JSON)) (before after : list NoteImport.JSON)
    (fields : list (JSString * NoteImport.JSON)) :
  Forall (NoteImport.fresh_id existingIds) before ->
  NoteImport.has_id existingIds (NoteImport.field (str "id") fields) = true ->
  ~ NoteImport.title_converts Number_toString fields ->
  forall (newNotesAdded : nat) (notes : list NoteImport.JSON),
    NoteImport.merge_loop Number_toString reading existingIds newNotesAdded
      (before ++ NoteImport.JObject fields :: after) notes
    = (false, reverse before ++ notes).
Proof.
  intros Hfresh Htaken Hno.
  induction Hfresh as [|note before (fields' & -> & Hfree) _ IH]; intros k notes.
  - cbn [app NoteImport.merge_loop NoteImport.spread]. rewrite Htaken.
    rewrite rename_None by exact Hno. reflexivity.
  - cbn [app NoteImport.merge_loop NoteImport.spread]. rewrite Hfree.
    rewrite IH, reverse_cons, <- app_assoc. reflexivity.
Qed.

(** X20.  noteManager.js, [importAndMergeNotes].  An import that succeeds puts
    as many notes in front of the notes there were as the file holds, and
    saves the new list.  The ids are looked up among the notes there were
    before the import: when none of the ids of the file is among them, the
    notes of the file enter the list as they were parsed, the last one
    first, also when two of them have the same id.  An import that fails
    saves nothing, and the list is as it was unless the failure is that of
    a copy: when a note of the file has an id that is taken and a title
    that cannot be converted to a string, the notes of the file before it
    (given that their ids are not taken) are in the list all the same. *)
Theorem importAndMergeNotes_adds_all (Number_toString : float -> JSString)
    (reading : nat -> Z) (parsed : option NoteImport.JSON)
    (notes : list NoteImport.JSON) :
  let o := NoteImport.importAndMergeNotes Number_toString reading parsed notes in
  (NoteImport.result o = false ->
     NoteImport.written o = None
     /\ exists added, NoteImport.notes_after o = added ++ notes)
  /\ (NoteImport.result o = true ->
        exists items added existingIds,
          parsed = Some (NoteImport.JArray items)
          /\ Forall NoteImport.note_shaped items
          /\ NoteImport.existing_ids notes = Some existingIds
          /\ NoteImport.notes_after o = added ++ notes
          /\ length added = length items
          /\ NoteImport.written o = Some (NoteImport.notes_after o)
          /\ (Forall (NoteImport.fresh_id existingIds) items -> added = reverse items))
  /\ (forall before fields after existingIds,
        parsed = Some (NoteImport.JArray (before ++ NoteImport.JObject fields :: after)) ->
        Forall NoteImport.note_shaped (before ++ NoteImport.JObject fields :: after) ->
        NoteImport.existing_ids notes = Some existingIds ->
        Forall (NoteImport.fresh_id existingIds) before ->
        NoteImport.has_id existingIds (NoteImport.field (str "id") fields) = true ->
        ~ NoteImport.title_converts Number_toString fields ->
        NoteImport.result o = false
        /\ NoteImport.notes_after o = reverse before ++ notes
        /\ NoteImport.written o = None)
  /\ ((forall items, parsed = Some (NoteImport.JArray items) ->
         ~ Forall NoteImport.note_shaped items) ->
      NoteImport.notes_after o = notes).
Proof.
  cbv zeta. unfold NoteImport.importAndMergeNotes.
  destruct parsed as [data|]; simpl;
    [|split; [intros _; split; [reflexivity | exists []; reflexivity]|];
      split; [discriminate|]; split; [intros ? ? ? ? [=] | reflexivity]].
  pose proof (validateImportData_spec data) as Hvalid.
  destruct (NoteImport._validateImportData data) as [[|]|]; simpl.
  2,3: (split; [intros _; split; [reflexivity | exists []; reflexivity]|];
        split; [discriminate|]; split; [|reflexivity];
        intros before fields after ids [= ->] Hall _ _ _ _;
        assert (Habs : _ = Some true) by (apply Hvalid; eauto);
        discriminate Habs).
  destruct (proj1 Hvalid eq_refl) as (items & -> & Hshaped).
  destruct (NoteImport.existing_ids notes) as [ids|]; simpl.
  2:{ split; [intros _; split; [reflexivity | exists []; reflexivity]|].
      split; [discriminate|]. split; [intros ? ? ? ? _ _ [=] | reflexivity]. }
  destruct (merge_loop_adds Number_toString reading ids items 0%nat notes)
    as (added & Heq & Hle & Hlen & Hfresh).
  destruct (NoteImport.merge_loop Number_toString reading ids 0 items notes)
    as [[|] notes'] eqn:Hloop; cbn [fst snd] in *; subst notes'; simpl.
  - split; [discriminate|]. split.
    + intros _. exists items, added, ids.
      split; [reflexivity|]. split; [exact Hshaped|]. split; [reflexivity|].
      split; [reflexivity|]. split; [apply Hlen; reflexivity|].
      split; [reflexivity|]. intros Hall. specialize (Hfresh Hall).
      injection Hfresh as Hfresh. apply app_inv_tail in Hfresh. exact Hfresh.
    + split.
      * intros before fields after ids' [= ->] _ [= <-] Hbefore Htaken Hno.
        rewrite (merge_loop_stops Number_toString reading ids before after fields
                   Hbefore Htaken Hno) in Hloop.
        discriminate.
      * intros Hnot. exfalso. exact (Hnot items eq_refl Hshaped).
  - split; [intros _; split; [reflexivity | eauto]|]. split; [discriminate|].
    split.
    + intros before fields after ids' [= ->] _ [= <-] Hbefore Htaken Hno.
      rewrite (merge_loop_stops Number_toString reading ids before after fields
                 Hbefore Htaken Hno) in Hloop.
      injection Hloop as Hloop. apply app_inv_tail in Hloop. subst added.
      auto.
    + intros Hnot. exfalso. exact (Hnot items eq_refl Hshaped).
Qed.

(** *** Undo and redo, new toggles, opening and closing *)

Lemma set_history_same (w : World) : set_history (history w) w = w.
Proof. destruct w; reflexivity. Qed.

Lemma saveEditorState_world (u u' : UI) :
  saveEditorState u = Some u' ->
  world u' = world u /\ ui_frames u' = ui_frames u /\ ui_timers u' = ui_timers u
  /\ noteTitle_value u' = noteTitle_value u /\ editorStates u' = editorStates u
  /\ notesList u' = notesList u
  /\ exists note, currentNote (world u) = Some note
       /\ savedToggleStates u' = Some (toggle_states note (world u)).
Proof.
  unfold saveEditorState. destruct (currentNote (world u)) as [note|]; [|discriminate].
  intros [= <-]. destruct (editorContent (world u)); simpl; eauto 10.
Qed.

(** X21.  uiManager.js, [handleUndo] and [handleRedo].  With nothing to undo (no
    note open, or an empty undo stack) [handleUndo] leaves the note, the
    list, the storage, the history and the regions as they are, renders
    nothing and requests no callback; likewise [handleRedo] with nothing to
    redo. *)
Theorem nothing_to_undo_or_redo (u : UI) :
  (currentNote (world u) = None
   \/ HistoryManager.undoStack (history (world u)) = [] ->
   world (handleUndo u) = world u
   /\ ui_frames (handleUndo u) = ui_frames u
   /\ ui_timers (handleUndo u) = ui_timers u
   /\ noteTitle_value (handleUndo u) = noteTitle_value u)
  /\ (currentNote (world u) = None
      \/ HistoryManager.redoStack (history (world u)) = [] ->
      world (handleRedo u) = world u
      /\ ui_frames (handleRedo u) = ui_frames u
      /\ ui_timers (handleRedo u) = ui_timers u
      /\ noteTitle_value (handleRedo u) = noteTitle_value u).
Proof.
  split; intros Hnothing.
  - unfold handleUndo.
    destruct (saveEditorState u) as [u'|] eqn:Hsave; [|auto].
    destruct (saveEditorState_world u u' Hsave)
      as (Hw & Hf & Ht & Hv & _ & _ & note & Hnote & _).
    rewrite Hw, Hnote.
    destruct Hnothing as [Hnone|Hempty]; [congruence|].
    unfold HistoryManager.undo. rewrite Hempty. simpl.
    rewrite Hw, set_history_same. auto.
  - unfold handleRedo.
    destruct (saveEditorState u) as [u'|] eqn:Hsave; [|auto].
    destruct (saveEditorState_world u u' Hsave)
      as (Hw & Hf & Ht & Hv & _ & _ & note & Hnote & _).
    rewrite Hw, Hnote.
    destruct Hnothing as [Hnone|Hempty]; [congruence|].
    unfold HistoryManager.redo. rewrite Hempty. simpl.
    rewrite Hw, set_history_same. auto.
Qed.


Lemma renderEditor_effect (w : World) (note : Note) :
  currentNote w = Some note ->
  renderEditor w
  = set_renders (S (renders w))
      (set_nextNode (nextNode w + length (n_toggles note))%nat
         (set_textareas (fresh_regions (nextNode w) (n_toggles note)) w)).
Proof. intros Hnote. unfold renderEditor. rewrite Hnote. reflexivity. Qed.

Lemma fresh_regions_ids (first : nat) (toggles : list Toggle) :
  ta_toggleId <$> fresh_regions first toggles = t_id <$> toggles.
Proof.
  apply list_eq. intros i. unfold fresh_regions.
  rewrite !list_lookup_fmap, list_lookup_imap.
  destruct (toggles !! i); reflexivity.
Qed.

Lemma fresh_regions_lookup (first : nat) (toggles : list Toggle) (i : nat)
    (toggle : Toggle) :
  toggles !! i = Some toggle ->
  fresh_regions first toggles !! i
  = Some (mkTextarea (first + i) (t_id toggle) (fst (browser_render toggle)) 0
            (snd (browser_render toggle))).
Proof.
  intros Hi. unfold fresh_regions. rewrite list_lookup_imap, Hi. reflexivity.
Qed.

(** The common end of [handleUndo] and [handleRedo]: the state the history
    returned becomes the live note, is stamped and written to the list, and
    the editor is rendered with a request to restore the view state. *)
Lemma install_state (state : Note) (h : HistoryManager.t) (u : UI) :
  let u' :=
    UI_renderEditor true
      (on_world updateNote_current
         (on_world (set_currentNote (Some state)) (on_world (set_history h) u))) in
  currentNote (world u') = Some (set_n_updated (clock (world u)) state)
  /\ history (world u') = h
  /\ textareas (world u')
     = fresh_regions (nextNode (world u)) (n_toggles state)
  /\ renders (world u') = S (renders (world u))
  /\ editorContent (world u') = editorContent (world u)
  /\ clock (world u') = clock (world u)
  /\ timers (world u') = timers (world u)
  /\ frames (world u') = frames (world u)
  /\ n_id <$> notes (world u') = n_id <$> notes (world u)
  /\ (in_step (world u) -> in_step (world u'))
  /\ noteTitle_value u' = escapeHtml (n_title state)
  /\ ui_frames u' = ui_frames u ++ [RestoreStateFrameCb]
  /\ ui_timers u' = ui_timers u
  /\ savedToggleStates u' = savedToggleStates u
  /\ lastKnownScrollPosition u' = lastKnownScrollPosition u.
Proof.
  cbv zeta.
  set (w1 := set_currentNote (Some state) (set_history h (world u))).
  destruct (updateNote_current_carried w1) as (Hn & Ht & Hh & Hids & Hp).
  destruct (updateNote_current_effect w1) as (ns & ls & Heq).
  unfold UI_renderEditor, on_world.
  cbn [world set_world].
  change (set_currentNote (Some state) (set_history h (world u))) with w1.
  rewrite Hn. cbn [currentNote w1 set_currentNote fmap option_fmap option_map].
  cbn [restoreEditorState ui_requestAnimationFrame world set_world set_ui_frames
       set_noteTitle_value noteTitle_value ui_frames ui_timers savedToggleStates
       lastKnownScrollPosition].
  rewrite (renderEditor_effect _ (set_n_updated (clock w1) state)) by exact Hn.
  rewrite Heq.
  repeat match goal with |- _ /\ _ => split end; try reflexivity.
  - rewrite Heq in Hids. exact Hids.
  - intros Hstep. rewrite Heq in Hp. apply Hp. exact Hstep.
Qed.


Lemma handlers_install_state (u : UI) (note state : Note)
    (h : HistoryManager.t) :
  currentNote (world u) = Some note ->
  forall u',
    (HistoryManager.undo note (history (world u)) = (Some state, h)
     /\ u' = handleUndo u)
    \/ (HistoryManager.redo note (history (world u)) = (Some state, h)
        /\ u' = handleRedo u) ->
    currentNote (world u') = Some (set_n_updated (clock (world u)) state)
    /\ history (world u') = h
    /\ textareas (world u')
       = fresh_regions (nextNode (world u)) (n_toggles state)
    /\ n_id <$> notes (world u') = n_id <$> notes (world u)
    /\ (in_step (world u) -> in_step (world u'))
    /\ savedToggleStates u' = Some (toggle_states note (world u))
    /\ ui_frames u' = ui_frames u ++ [RestoreStateFrameCb].
Proof.
  intros Hnote u' Hcall.
  destruct (saveEditorState u) as [u1|] eqn:Hsave;
    [|unfold saveEditorState in Hsave; rewrite Hnote in Hsave; discriminate].
  destruct (saveEditorState_world u u1 Hsave)
    as (Hw & Hf & Ht & Hv & _ & _ & note' & Hnote' & Hsaved).
  assert (note' = note) as -> by congruence.
  assert (Hu' : u' = UI_renderEditor true
                       (on_world updateNote_current
                          (on_world (set_currentNote (Some state))
                             (on_world (set_history h) u1)))).
  { destruct Hcall as [[Hundo ->]|[Hredo ->]].
    - unfold handleUndo. rewrite Hsave, Hw, Hnote, Hundo. reflexivity.
    - unfold handleRedo. rewrite Hsave, Hw, Hnote, Hredo. reflexivity. }
  destruct (install_state state h u1)
    as (H1 & H2 & H3 & _ & _ & _ & _ & _ & H9 & H10 & _ & H12 & _ & H14 & _).
  rewrite <- Hu' in *. rewrite Hw in *. rewrite Hf in H12. rewrite Hsaved in H14.
  auto 10.
Qed.

(** X22.  uiManager.js, [handleUndo] and [handleRedo].  Whatever state the
    history returns becomes the live note, stamped with the time of the
    call; the list keeps its ids and the storage stays in step with it; the
    editor is rendered anew, one region for each toggle of that state and
    each scrolled to the top; the view state saved is the one of the regions
    there were, and its restoration is requested for the next frame. *)
Theorem undo_redo_install_state (u : UI) (note state : Note)
    (h : HistoryManager.t) :
  currentNote (world u) = Some note ->
  forall u',
    (HistoryManager.undo note (history (world u)) = (Some state, h)
     /\ u' = handleUndo u)
    \/ (HistoryManager.redo note (history (world u)) = (Some state, h)
        /\ u' = handleRedo u) ->
    currentNote (world u') = Some (set_n_updated (clock (world u)) state)
    /\ history (world u') = h
    /\ textareas (world u')
       = fresh_regions (nextNode (world u)) (n_toggles state)
    /\ n_id <$> notes (world u') = n_id <$> notes (world u)
    /\ (in_step (world u) -> in_step (world u'))
    /\ savedToggleStates u' = Some (toggle_states note (world u))
    /\ ui_frames u' = ui_frames u ++ [RestoreStateFrameCb].
Proof.
  exact (handlers_install_state u note state h).
Qed.

(** X23.  uiManager.js, [updateToggleContent], [handleUndo] and [handleRedo], on
    the history of the design (history.js is not among the sources).  After
    an edit of a toggle's content, undo brings back the note as it was
    before the edit, with a new time stamp, and redo brings back the edited
    note; in between redo is possible and afterwards it is not. *)
Theorem edit_undo_redo (u : UI) (note : Note) (toggleId : Z) (i : nat)
    (toggle : Toggle) (v : JSString) :
  currentNote (world u) = Some note ->
  find_toggle toggleId note = Some (i, toggle) ->
  let u1 := on_world (updateToggleContent toggleId v) u in
  let u2 := handleUndo u1 in
  let u3 := handleRedo u2 in
  currentNote (world u2) = Some (set_n_updated (clock (world u)) note)
  /\ currentNote (world u3) = currentNote (world u1)
  /\ n_toggles <$> currentNote (world u3)
     = Some (<[i := set_t_content v toggle]> (n_toggles note))
  /\ HistoryManager.undoStack (history (world u2))
     = HistoryManager.undoStack (history (world u))
  /\ HistoryManager.canRedo (history (world u2)) = true
  /\ HistoryManager.canRedo (history (world u3)) = false.
Proof.
  intros Hnote Hfind. cbv zeta.
  set (u1 := on_world (updateToggleContent toggleId v) u).
  set (edited := set_n_toggles (alter (set_t_content v) i (n_toggles note)) note).
  assert (Hw1 : world u1
                = updateNote_current
                    (history_push (deep_copy note)
                       (set_currentNote (Some edited) (world u)))).
  { subst u1. unfold on_world, updateToggleContent. cbn [world set_world].
    rewrite Hnote, Hfind. reflexivity. }
  clearbody u1.
  destruct (updateNote_current_carried
              (history_push (deep_copy note)
                 (set_currentNote (Some edited) (world u))))
    as (Hn1 & _ & Hh1 & _ & _).
  destruct (updateNote_current_effect
              (history_push (deep_copy note)
                 (set_currentNote (Some edited) (world u))))
    as (ns & ls & Heq1).
  rewrite <- Hw1 in Hn1, Hh1, Heq1.
  cbn in Hn1, Hh1.
  assert (Hc1 : clock (world u1) = clock (world u)) by (rewrite Heq1; reflexivity).
  set (cur1 := set_n_updated (clock (world u)) edited) in *.
  destruct (handlers_install_state u1 cur1 note
              (HistoryManager.notify
                 (HistoryManager.mk (HistoryManager.undoStack (history (world u)))
                    [cur1]
                    (HistoryManager.notified
                       (HistoryManager.push note (history (world u))))))
              Hn1 (handleUndo u1))
    as (Hn2 & Hh2 & _).
  { left. split; [|reflexivity]. rewrite Hh1. reflexivity. }
  rewrite Hc1 in Hn2.
  set (cur2 := set_n_updated (clock (world u)) note) in *.
  assert (Hc2 : clock (world (handleUndo u1)) = clock (world u)).
  { unfold handleUndo.
    destruct (saveEditorState u1) as [u1'|] eqn:Hsave;
      [|unfold saveEditorState in Hsave; rewrite Hn1 in Hsave; discriminate].
    destruct (saveEditorState_world u1 u1' Hsave) as (Hw & _).
    rewrite Hw, Hn1, Hh1. cbn [HistoryManager.undo HistoryManager.push
      HistoryManager.notify HistoryManager.undoStack].
    destruct (install_state note
                (HistoryManager.notify
                   (HistoryManager.mk (HistoryManager.undoStack (history (world u)))
                      (cur1 :: HistoryManager.redoStack
                                 (HistoryManager.notify
                                    (HistoryManager.mk
                                       (note :: HistoryManager.undoStack
                                                  (history (world u)))
                                       [] (HistoryManager.notified (history (world u))))))
                      (HistoryManager.notified
                         (HistoryManager.notify
                            (HistoryManager.mk
                               (note :: HistoryManager.undoStack (history (world u)))
                               [] (HistoryManager.notified (history (world u))))))))
                u1') as (_ & _ & _ & _ & _ & Hc & _).
    rewrite Hw, Hc1 in Hc. exact Hc. }
  destruct (handlers_install_state (handleUndo u1) cur2 cur1
              (HistoryManager.notify
                 (HistoryManager.mk
                    (cur2 :: HistoryManager.undoStack (history (world u)))
                    []
                    (HistoryManager.notified (history (world (handleUndo u1))))))
              Hn2 (handleRedo (handleUndo u1)))
    as (Hn3 & Hh3 & _).
  { right. split; [|reflexivity]. rewrite Hh2. reflexivity. }
  rewrite Hc2 in Hn3.
  split; [exact Hn2|]. split; [rewrite Hn3, Hn1; reflexivity|].
  split.
  { rewrite Hn3. cbn. f_equal.
    destruct (find_toggle_Some _ _ _ _ Hfind) as (Hi & _).
    apply list_eq. intros j. destruct (decide (i = j)) as [->|Hne].
    - rewrite list_lookup_alter_eq, list_lookup_insert_eq, Hi;
        [reflexivity | eapply lookup_lt_Some, Hi].
    - rewrite list_lookup_alter_ne, list_lookup_insert_ne by exact Hne.
      reflexivity. }
  rewrite Hh2, Hh3. repeat split.
Qed.


Lemma set_scrollTop_same (ta : Textarea) : set_scrollTop (scrollTop ta) ta = ta.
Proof. destruct ta; reflexivity. Qed.

Lemma querySelector_NoDup (w : World) (i : nat) (ta : Textarea) :
  NoDup (ta_toggleId <$> textareas w) ->
  textareas w !! i = Some ta ->
  querySelector (ta_toggleId ta) w = Some (i, ta).
Proof.
  intros Hnd Hi. unfold querySelector. apply list_find_Some.
  split; [exact Hi|]. split; [reflexivity|].
  intros j y Hj Hlt Hid.
  assert (j = i); [|lia].
  apply (NoDup_lookup _ j i (ta_toggleId ta) Hnd).
  - rewrite list_lookup_fmap, Hj. simpl. rewrite Hid. reflexivity.
  - rewrite list_lookup_fmap, Hi. reflexivity.
Qed.

Lemma restore_states_effect (check : bool) (states : list SavedToggleState) :
  forall w : World,
    exists tas,
      restore_states check states w = set_textareas tas w
      /\ ta_toggleId <$> tas = ta_toggleId <$> textareas w.
Proof.
  induction states as [|state rest IH]; intros w; cbn [restore_states].
  - exists (textareas w). split; [destruct w; reflexivity | reflexivity].
  - destruct (querySelector (st_id state) w) as [[j textarea]|]; [|apply IH].
    destruct (check && bool_decide (scrollTop textarea = st_scrollTop state));
      [apply IH|].
    destruct (IH (write_scrollTop j (st_scrollTop state) w)) as (tas & -> & Hids).
    exists tas. split; [reflexivity|].
    rewrite Hids. apply write_scrollTop_ids.
Qed.

(** What a loop over saved states does to one region, when no two regions
    and no two saved states have the same id: the region gets the offset of
    the state saved under its id, and stays as it is when there is none. *)
Lemma restore_states_lookup (check : bool) (states : list SavedToggleState) :
  forall (w : World) (i : nat) (ta : Textarea),
    NoDup (ta_toggleId <$> textareas w) ->
    NoDup (st_id <$> states) ->
    textareas w !! i = Some ta ->
    exists top,
      textareas (restore_states check states w) !! i = Some (set_scrollTop top ta)
      /\ (forall st, st ∈ states -> st_id st = ta_toggleId ta ->
            top = st_scrollTop st)
      /\ ((forall st, st ∈ states -> st_id st <> ta_toggleId ta) ->
          top = scrollTop ta).
Proof.
  induction states as [|state rest IH]; intros w i ta Hnd Hstates Hi;
    cbn [restore_states].
  - exists (scrollTop ta). rewrite set_scrollTop_same.
    split; [exact Hi|]. split; [|reflexivity]. intros st Hin. inversion Hin.
  - rewrite fmap_cons in Hstates. apply NoDup_cons in Hstates as [Hfresh Hrest].
    set (w1 := match querySelector (st_id state) w with
               | Some (j, textarea) => _ | None => w end).
    assert (Hnd1 : NoDup (ta_toggleId <$> textareas w1)).
    { subst w1. destruct (querySelector (st_id state) w) as [[j textarea]|];
        [|exact Hnd].
      destruct (check && bool_decide (scrollTop textarea = st_scrollTop state));
        [exact Hnd|].
      rewrite write_scrollTop_ids. exact Hnd. }
    destruct (decide (st_id state = ta_toggleId ta)) as [Heq|Hne].
    + assert (Hi1 : textareas w1 !! i
                    = Some (set_scrollTop (st_scrollTop state) ta)).
      { subst w1. rewrite Heq, (querySelector_NoDup w i ta Hnd Hi).
        destruct (check && bool_decide (scrollTop ta = st_scrollTop state))
          eqn:Hskip.
        - apply andb_true_iff in Hskip as [_ Hsame].
          apply bool_decide_eq_true in Hsame.
          rewrite <- Hsame, set_scrollTop_same. exact Hi.
        - simpl. rewrite list_lookup_alter_eq, Hi. reflexivity. }
      destruct (IH w1 i _ Hnd1 Hrest Hi1) as (top & Htop & _ & Hnone).
      assert (top = st_scrollTop state) as ->.
      { apply Hnone. intros st Hin Hid. apply Hfresh.
        apply list_elem_of_fmap. exists st. split; [|exact Hin].
        simpl in Hid. congruence. }
      exists (st_scrollTop state). split; [exact Htop|]. split.
      * intros st Hin Hid. apply elem_of_cons in Hin as [->|Hin]; [reflexivity|].
        exfalso. apply Hfresh. apply list_elem_of_fmap. exists st.
        split; [congruence | exact Hin].
      * intros Hno. exfalso. apply (Hno state); [left | exact Heq].
    + assert (Hi1 : textareas w1 !! i = Some ta).
      { subst w1. destruct (querySelector (st_id state) w) as [[j textarea]|] eqn:Hq;
          [|exact Hi].
        destruct (check && bool_decide (scrollTop textarea = st_scrollTop state));
          [exact Hi|].
        apply querySelector_Some in Hq as [Hj Hid].
        apply write_scrollTop_other; [|exact Hi].
        intros ->. apply Hne. congruence. }
      destruct (IH w1 i ta Hnd1 Hrest Hi1) as (top & Htop & Hsome & Hnone).
      exists top. split; [exact Htop|]. split.
      * intros st Hin Hid. apply elem_of_cons in Hin as [->|Hin];
          [contradiction | exact (Hsome st Hin Hid)].
      * intros Hno. apply Hnone. intros st Hin. apply Hno. right. exact Hin.
Qed.

Lemma toggle_states_ids (note : Note) (w : World) :
  sublist (st_id <$> toggle_states note w) (t_id <$> n_toggles note).
Proof.
  unfold toggle_states. induction (n_toggles note) as [|toggle rest IH];
    [constructor|].
  cbn [omap list_omap]. rewrite fmap_cons.
  destruct (querySelector (t_id toggle) w) as [[j textarea]|].
  - rewrite fmap_cons. apply sublist_skip, IH.
  - apply sublist_cons, IH.
Qed.

Lemma toggle_states_saved (note : Note) (w : World) (i : nat) (ta : Textarea) :
  ta_toggleId <$> textareas w = t_id <$> n_toggles note ->
  NoDup (t_id <$> n_toggles note) ->
  textareas w !! i = Some ta ->
  mkSavedToggleState (ta_toggleId ta) (scrollTop ta) (scrollHeight ta)
    ∈ toggle_states note w.
Proof.
  intros Hmirror Hnd Hi. unfold toggle_states.
  assert (Htoggle : exists toggle, n_toggles note !! i = Some toggle
                                   /\ t_id toggle = ta_toggleId ta).
  { assert (Hl : (ta_toggleId <$> textareas w) !! i = Some (ta_toggleId ta))
      by (rewrite list_lookup_fmap, Hi; reflexivity).
    rewrite Hmirror, list_lookup_fmap in Hl.
    destruct (n_toggles note !! i) as [toggle|]; [|discriminate].
    injection Hl as Hl. eauto. }
  destruct Htoggle as (toggle & Ht & Hid).
  apply list_elem_of_omap. exists toggle.
  split; [eapply list_elem_of_lookup_2, Ht|].
  rewrite Hid, (querySelector_NoDup w i ta); [reflexivity | | exact Hi].
  rewrite Hmirror. exact Hnd.
Qed.


Lemma addNewToggle_eq (u u1 : UI) (note : Note) :
  currentNote (world u) = Some note ->
  saveEditorState u = Some u1 ->
  addNewToggle u
  = UI_renderEditor true
      (on_world updateNote_current
         (on_world
            (set_currentNote
               (Some
                  (set_n_toggles
                     (n_toggles note
                      ++ [mkToggle (clock (world u))
                            (str "Section " ++ decimal (length (n_toggles note) + 1))
                            [] true])
                     note)))
            (on_world
               (set_history (HistoryManager.push note (history (world u)))) u1))).
Proof.
  intros Hnote Hsave. unfold addNewToggle. rewrite Hnote, Hsave.
  destruct (saveEditorState_world u u1 Hsave) as (Hw & _).
  rewrite <- Hw. reflexivity.
Qed.

(** X24.  uiManager.js, [addNewToggle] and [handleUndo].  The new toggle is put
    after the toggles there are: open, empty, titled Section n + 1 and with
    the clock reading as its id.  The note as it was is pushed on the undo
    stack, the editor is rendered with one region for each toggle, and an
    undo brings back the note without the new toggle. *)
Theorem addNewToggle_appends (u : UI) (note : Note) :
  currentNote (world u) = Some note ->
  let newToggle :=
    mkToggle (clock (world u))
      (str "Section " ++ decimal (length (n_toggles note) + 1)) [] true in
  let u' := addNewToggle u in
  currentNote (world u')
  = Some (set_n_updated (clock (world u))
            (set_n_toggles (n_toggles note ++ [newToggle]) note))
  /\ HistoryManager.undoStack (history (world u'))
     = note :: HistoryManager.undoStack (history (world u))
  /\ textareas (world u')
     = fresh_regions (nextNode (world u)) (n_toggles note ++ [newToggle])
  /\ currentNote (world (handleUndo u'))
     = Some (set_n_updated (clock (world u)) note).
Proof.
  intros Hnote. cbv zeta.
  destruct (saveEditorState u) as [u1|] eqn:Hsave;
    [|unfold saveEditorState in Hsave; rewrite Hnote in Hsave; discriminate].
  destruct (saveEditorState_world u u1 Hsave) as (Hw & _).
  rewrite (addNewToggle_eq u u1 note Hnote Hsave).
  set (note' := set_n_toggles _ note).
  set (h := HistoryManager.push note (history (world u))).
  destruct (install_state note' h u1)
    as (H1 & H2 & H3 & _ & _ & H6 & _).
  set (u' := UI_renderEditor true _) in *. clearbody u'.
  rewrite Hw in *.
  split; [exact H1|]. split; [rewrite H2; reflexivity|]. split; [exact H3|].
  destruct (handlers_install_state u' _ note
              (HistoryManager.notify
                 (HistoryManager.mk (HistoryManager.undoStack (history (world u)))
                    [set_n_updated (clock (world u)) note']
                    (HistoryManager.notified h)))
              H1 (handleUndo u')) as (Hn & _).
  { left. split; [|reflexivity]. rewrite H2. reflexivity. }
  rewrite Hn, H6. reflexivity.
Qed.

(** The frame callback of [restoreEditorState] after a render.  When the
    states saved are those of the regions of a world [w0] that mirrored the
    toggles of [note], and no two toggles of [note] and no two regions now
    in the page have the same id, every region now in the page that has the
    id of a region of [w0] gets the offset that region had. *)
Lemma restoreStateFrame_restores (u : UI) (w0 : World) (note : Note) :
  savedToggleStates u = Some (toggle_states note w0) ->
  ta_toggleId <$> textareas w0 = t_id <$> n_toggles note ->
  NoDup (t_id <$> n_toggles note) ->
  NoDup (ta_toggleId <$> textareas (world u)) ->
  let u' := restoreStateFrame u in
  (forall j new i old,
     textareas (world u) !! j = Some new ->
     textareas w0 !! i = Some old ->
     ta_toggleId new = ta_toggleId old ->
     textareas (world u') !! j = Some (set_scrollTop (scrollTop old) new))
  /\ (forall j new,
        textareas (world u) !! j = Some new ->
        ta_toggleId new ∉ ta_toggleId <$> textareas w0 ->
        textareas (world u') !! j = Some new)
  /\ editorContent (world u')
     = (fun _ => lastKnownScrollPosition u) <$> editorContent (world u)
  /\ ui_timers u'
     = ui_timers u
       ++ [mkUITimer (nextHandle (world u)) (clock (world u) + 50)
             RestoreStateCheckCb].
Proof.
  intros Hsaved Hmirror Hnd0 Hnd. cbv zeta. unfold restoreStateFrame.
  rewrite Hsaved.
  destruct (restore_states_effect false (toggle_states note w0) (world u))
    as (tas & Heq & _).
  assert (Hstates : NoDup (st_id <$> toggle_states note w0))
    by (exact (sublist_NoDup _ _ Hnd0 (toggle_states_ids note w0))).
  assert (Htas : forall j new, textareas (world u) !! j = Some new ->
            exists top, tas !! j = Some (set_scrollTop top new)
              /\ (forall st, st ∈ toggle_states note w0 ->
                    st_id st = ta_toggleId new -> top = st_scrollTop st)
              /\ ((forall st, st ∈ toggle_states note w0 ->
                     st_id st <> ta_toggleId new) -> top = scrollTop new)).
  { intros j new Hj.
    destruct (restore_states_lookup false _ (world u) j new Hnd Hstates Hj)
      as (top & Htop & Hrest).
    rewrite Heq in Htop. exists top. split; [exact Htop | exact Hrest]. }
  unfold on_world, ui_setTimeout. cbn [world set_world ui_timers set_ui_timers
    savedToggleStates lastKnownScrollPosition].
  rewrite Heq. cbn [editorContent set_textareas].
  assert (Hregions :
            textareas
              (world
                 match editorContent (world u) with
                 | Some _ =>
                     set_world
                       (set_editorContent (Some (lastKnownScrollPosition u))
                          (set_textareas tas (world u)))
                       (set_world (set_textareas tas (world u)) u)
                 | None => set_world (set_textareas tas (world u)) u
                 end) = tas)
    by (destruct (editorContent (world u)); reflexivity).
  split; [|split; [|split]].
  - intros j new i old Hj Hi Hid.
    destruct (Htas j new Hj) as (top & Htop & Hsome & _).
    cbn [on_world world set_world set_nextHandle textareas].
    rewrite Hregions, Htop. do 2 f_equal.
    apply (Hsome _ (toggle_states_saved note w0 i old Hmirror Hnd0 Hi)).
    simpl. congruence.
  - intros j new Hj Hfresh.
    destruct (Htas j new Hj) as (top & Htop & _ & Hnone).
    cbn [on_world world set_world set_nextHandle textareas].
    rewrite Hregions, Htop, Hnone; [rewrite set_scrollTop_same; reflexivity|].
    intros st Hin Hid. apply Hfresh. rewrite Hmirror, <- Hid.
    apply (elem_of_sublist _ _ _ (list_elem_of_fmap_2 st_id _ _ Hin)
             (toggle_states_ids note w0)).
  - destruct (editorContent (world u)) eqn:He; cbn; rewrite ?He; reflexivity.
  - destruct (editorContent (world u)); reflexivity.
Qed.

(** X25.  uiManager.js, [addNewToggle] with [saveEditorState] and
    [restoreEditorState].  When the regions mirror the toggles of the note,
    no two toggles have the same id and the clock reading is the id of none,
    the frame after [addNewToggle] gives every region there was the offset
    it had, leaves the region of the new toggle at the top, and scrolls the
    container to where it was. *)
Theorem addNewToggle_keeps_scroll (u : UI) (note : Note) :
  currentNote (world u) = Some note ->
  regions_mirror_toggles (world u) ->
  NoDup (t_id <$> n_toggles note) ->
  clock (world u) ∉ t_id <$> n_toggles note ->
  let u1 := addNewToggle u in
  let u2 := run_ui_callback RestoreStateFrameCb u1 in
  ui_frames u1 = ui_frames u ++ [RestoreStateFrameCb]
  /\ (forall i old, textareas (world u) !! i = Some old ->
        exists new,
          textareas (world u2) !! i = Some new
          /\ ta_toggleId new = ta_toggleId old
          /\ scrollTop new = scrollTop old)
  /\ (exists new,
        textareas (world u2) !! length (n_toggles note) = Some new
        /\ ta_toggleId new = clock (world u)
        /\ scrollTop new = 0)
  /\ editorContent (world u2) = editorContent (world u).
Proof.
  intros Hnote Hmirror Hnd Hfresh. cbv zeta.
  specialize (Hmirror note Hnote).
  destruct (saveEditorState u) as [u1|] eqn:Hsave;
    [|unfold saveEditorState in Hsave; rewrite Hnote in Hsave; discriminate].
  assert (Hlast : lastKnownScrollPosition u1
                  = default (lastKnownScrollPosition u) (editorContent (world u))).
  { unfold saveEditorState in Hsave. rewrite Hnote in Hsave.
    injection Hsave as <-. destruct (editorContent (world u)); reflexivity. }
  destruct (saveEditorState_world u u1 Hsave)
    as (Hw & Hf & _ & _ & _ & _ & note' & Hnote' & Hsaved).
  assert (note' = note) as -> by congruence.
  rewrite (addNewToggle_eq u u1 note Hnote Hsave).
  set (newToggle := mkToggle _ _ _ _).
  set (note1 := set_n_toggles _ note).
  destruct (install_state note1 (HistoryManager.push note (history (world u))) u1)
    as (_ & _ & H3 & _ & H5 & _ & _ & _ & _ & _ & _ & H12 & _ & H14 & H15).
  set (u' := UI_renderEditor true _) in *. clearbody u'.
  rewrite Hw in *. rewrite Hf in H12. rewrite Hsaved in H14.
  assert (Hnd' : NoDup (ta_toggleId <$> textareas (world u'))).
  { rewrite H3, fresh_regions_ids. subst note1. cbn [n_toggles set_n_toggles].
    rewrite fmap_app. apply NoDup_app. split; [exact Hnd|]. split.
    - intros id Hin Hin'. apply list_elem_of_singleton in Hin'. subst id.
      exact (Hfresh Hin).
    - apply NoDup_singleton. }
  destruct (restoreStateFrame_restores u' (world u) note H14 Hmirror Hnd Hnd')
    as (Hold & Hnew & Hcontainer & _).
  split; [exact H12|]. split; [|split].
  - intros i old Hi.
    assert (Htoggle : exists toggle, n_toggles note !! i = Some toggle
                                     /\ t_id toggle = ta_toggleId old).
    { assert (Hl : (ta_toggleId <$> textareas (world u)) !! i
                   = Some (ta_toggleId old))
        by (rewrite list_lookup_fmap, Hi; reflexivity).
      rewrite Hmirror, list_lookup_fmap in Hl.
      destruct (n_toggles note !! i) as [toggle|]; [|discriminate].
      injection Hl as Hl. eauto. }
    destruct Htoggle as (toggle & Ht & Hid).
    pose proof (fresh_regions_lookup (nextNode (world u)) (n_toggles note1)
                  i toggle) as Hfr.
    rewrite <- H3 in Hfr.
    specialize (Hfr (lookup_app_l_Some _ _ _ _ Ht)).
    eexists. split; [exact (Hold i _ i old Hfr Hi Hid)|].
    split; [exact Hid | reflexivity].
  - pose proof (fresh_regions_lookup (nextNode (world u)) (n_toggles note1)
                  (length (n_toggles note)) newToggle) as Hfr.
    rewrite <- H3 in Hfr.
    assert (Hlast' : n_toggles note1 !! length (n_toggles note) = Some newToggle).
    { subst note1. cbn [n_toggles set_n_toggles].
      rewrite lookup_app_r by lia. rewrite Nat.sub_diag. reflexivity. }
    specialize (Hfr Hlast').
    eexists. split; [apply (Hnew _ _ Hfr)|split; reflexivity].
    simpl. rewrite Hmirror. exact Hfresh.
  - cbn [run_ui_callback]. rewrite Hcontainer, H5, H15, Hlast.
    destruct (editorContent (world u)); reflexivity.
Qed.


Lemma restore_saved_regions (check : bool) (w w0 : World) (note : Note) :
  ta_toggleId <$> textareas w0 = t_id <$> n_toggles note ->
  NoDup (t_id <$> n_toggles note) ->
  NoDup (ta_toggleId <$> textareas w) ->
  exists tas,
    restore_states check (toggle_states note w0) w = set_textareas tas w
    /\ (forall j new i old,
          textareas w !! j = Some new ->
          textareas w0 !! i = Some old ->
          ta_toggleId new = ta_toggleId old ->
          tas !! j = Some (set_scrollTop (scrollTop old) new))
    /\ (forall j new,
          textareas w !! j = Some new ->
          ta_toggleId new ∉ ta_toggleId <$> textareas w0 ->
          tas !! j = Some new).
Proof.
  intros Hmirror Hnd0 Hnd.
  destruct (restore_states_effect check (toggle_states note w0) w)
    as (tas & Heq & _).
  assert (Hstates : NoDup (st_id <$> toggle_states note w0))
    by (exact (sublist_NoDup _ _ Hnd0 (toggle_states_ids note w0))).
  exists tas. split; [exact Heq|]. split.
  - intros j new i old Hj Hi Hid.
    destruct (restore_states_lookup check _ w j new Hnd Hstates Hj)
      as (top & Htop & Hsome & _).
    rewrite Heq in Htop. cbn in Htop. rewrite Htop. do 2 f_equal.
    apply (Hsome _ (toggle_states_saved note w0 i old Hmirror Hnd0 Hi)).
    simpl. congruence.
  - intros j new Hj Hfresh.
    destruct (restore_states_lookup check _ w j new Hnd Hstates Hj)
      as (top & Htop & _ & Hnone).
    rewrite Heq in Htop. cbn in Htop.
    rewrite Htop, Hnone; [rewrite set_scrollTop_same; reflexivity|].
    intros st Hin Hid. apply Hfresh. rewrite Hmirror, <- Hid.
    apply (elem_of_sublist _ _ _ (list_elem_of_fmap_2 st_id _ _ Hin)
             (toggle_states_ids note w0)).
Qed.

Lemma closeEditor_effect (toLowerCase : JSString -> JSString) (u : UI)
    (note : Note) :
  currentNote (world u) = Some note ->
  let u' := closeEditor toLowerCase u in
  let ls := localStorage (world u) in
  world u'
  = set_history (HistoryManager.clear (history (world u)))
      (set_currentNote None (set_localStorage (called ls) (world u)))
  /\ editorStates u'
     = (if setItem_throws ls (setItemCalls ls) then editorStates u
        else
          Some (<[n_id note :=
                    mkSessionViewState (toggle_states note (world u))
                      (default 0 (editorContent (world u)))
                      (lastActiveToggleId u) (clock (world u))]> (load_states u)))
  /\ notesList u' = createNoteCardElement <$> notes (world u)
  /\ ui_frames u' = ui_frames u
  /\ ui_timers u' = ui_timers u
  /\ editor_hidden u' = true
  /\ listView_hidden u' = false.
Proof.
  intros Hnote. cbv zeta. unfold closeEditor, saveEditorStateToStorage.
  rewrite Hnote. unfold renderNotesList, save_states. cbv zeta.
  destruct (setItem_throws (localStorage (world u))
              (setItemCalls (localStorage (world u))));
    unfold on_world;
    cbn [world set_world set_editorStates set_listView_hidden set_editor_hidden
         set_notesList editorStates notesList ui_frames ui_timers editor_hidden
         listView_hidden];
    rewrite getNotes_nil; repeat split; reflexivity.
Qed.

Lemma UI_renderEditor_false (u : UI) (note : Note) :
  currentNote (world u) = Some note ->
  let u' := UI_renderEditor false u in
  world u' = renderEditor (world u)
  /\ noteTitle_value u' = escapeHtml (n_title note)
  /\ savedToggleStates u' = Some (toggle_states note (world u))
  /\ editor_hidden u' = editor_hidden u
  /\ listView_hidden u' = listView_hidden u
  /\ editorStates u' = editorStates u
  /\ ui_timers u' = ui_timers u
  /\ ui_frames u' = ui_frames u.
Proof.
  intros Hnote. cbv zeta. unfold UI_renderEditor, saveEditorState.
  rewrite Hnote. cbn [default world set_savedToggleStates].
  destruct (editorContent (world u)); repeat split; reflexivity.
Qed.

Lemma loadEditorStateFromStorage_effect (u : UI) (note : Note) :
  currentNote (world u) = Some note ->
  let u' := loadEditorStateFromStorage u in
  world u' = world u
  /\ noteTitle_value u' = noteTitle_value u
  /\ editor_hidden u' = editor_hidden u
  /\ listView_hidden u' = listView_hidden u
  /\ editorStates u' = editorStates u
  /\ ui_timers u' = ui_timers u
  /\ ui_frames u'
     = ui_frames u
       ++ match load_states u !! n_id note with
          | Some savedState => [LoadStateFrameCb savedState]
          | None => []
          end.
Proof.
  intros Hnote. cbv zeta. unfold loadEditorStateFromStorage. rewrite Hnote.
  destruct (load_states u !! n_id note);
    repeat split; try reflexivity. rewrite app_nil_r. reflexivity.
Qed.

Lemma openEditor_effect (note : Note) (u : UI) :
  let u' := openEditor note u in
  world u'
  = renderEditor
      (set_history (HistoryManager.clear (history (world u)))
         (set_currentNote (Some note) (world u)))
  /\ noteTitle_value u' = escapeHtml (n_title note)
  /\ editor_hidden u' = false
  /\ listView_hidden u' = true
  /\ editorStates u' = editorStates u
  /\ ui_timers u' = ui_timers u
  /\ ui_frames u'
     = ui_frames u
       ++ match load_states u !! n_id note with
          | Some savedState => [LoadStateFrameCb savedState]
          | None => []
          end.
Proof.
  cbv zeta. unfold openEditor.
  set (u1 := on_world _ (set_listView_hidden true _)).
  assert (Hn1 : currentNote (world u1) = Some note) by reflexivity.
  destruct (UI_renderEditor_false u1 note Hn1)
    as (Hw & Hv & _ & He & Hl & Hs & Ht & Hf).
  set (u2 := UI_renderEditor false u1) in *.
  assert (Hn2 : currentNote (world u2) = Some note).
  { rewrite Hw. destruct (renderEditor_mirror (world u1)) as (_ & -> & _).
    exact Hn1. }
  destruct (loadEditorStateFromStorage_effect u2 note Hn2)
    as (Hw' & Hv' & He' & Hl' & Hs' & Ht' & Hf').
  clearbody u2.
  rewrite Hw', Hv', He', Hl', Hs', Ht', Hf', Hw, Hv, He, Hl, Hs, Ht, Hf.
  unfold load_states. rewrite Hs.
  repeat split; reflexivity.
Qed.

Lemma renderEditor_after_open (w : World) (note : Note) :
  let w' :=
    renderEditor
      (set_history (HistoryManager.clear (history w))
         (set_currentNote (Some note) w)) in
  currentNote w' = Some note
  /\ history w' = HistoryManager.clear (history w)
  /\ textareas w' = fresh_regions (nextNode w) (n_toggles note)
  /\ editorContent w' = editorContent w
  /\ notes w' = notes w
  /\ localStorage w' = localStorage w
  /\ clock w' = clock w
  /\ nextHandle w' = nextHandle w.
Proof.
  cbv zeta. rewrite (renderEditor_effect _ note) by reflexivity.
  repeat split; reflexivity.
Qed.

(** *** The id a card carries *)

Lemma str_cons (a : Ascii.ascii) (s : string) :
  str (String a s) = Z.of_N (Ascii.N_of_ascii a) :: str s.
Proof. reflexivity. Qed.

Ltac read_digit IH :=
  match goal with
  | |- context [digit_value 10 ?c] =>
      let v := eval vm_compute in (digit_value 10 c) in
      change (digit_value 10 c) with v
  end;
  cbn [from_option]; unfold id;
  match goal with
  | |- parse_digits 10 _ (Some ?z) = Some (Z.of_nat (Nat.of_uint_acc _ ?n)) =>
      replace z with (Z.of_nat n) by (rewrite Nat.tail_mul_spec; lia);
      apply IH
  end.

Lemma parse_uint_acc (d : Decimal.uint) :
  forall a : nat,
    parse_digits 10 (str (NilEmpty.string_of_uint d)) (Some (Z.of_nat a))
    = Some (Z.of_nat (Nat.of_uint_acc d a)).
Proof.
  induction d as [|d IH|d IH|d IH|d IH|d IH|d IH|d IH|d IH|d IH|d IH];
    intros a; cbn [NilEmpty.string_of_uint Nat.of_uint_acc];
    [reflexivity|..]; rewrite str_cons; cbn [parse_digits]; read_digit IH.
Qed.

Lemma decimal_digits (d : Decimal.uint) :
  Forall (fun c => 48 <= c <= 57) (str (NilEmpty.string_of_uint d)).
Proof.
  induction d; cbn [NilEmpty.string_of_uint]; [constructor|..];
    rewrite str_cons; (constructor; [vm_compute; split; discriminate | assumption]).
Qed.

Lemma decimal_cons (n : nat) :
  exists c rest, decimal n = c :: rest /\ Forall (fun c => 48 <= c <= 57) (c :: rest).
Proof.
  unfold decimal.
  pose proof (decimal_digits (Nat.to_uint n)) as Hdigits.
  destruct (str (NilEmpty.string_of_uint (Nat.to_uint n))) as [|c rest] eqn:Hs.
  - exfalso. pose proof (DecimalNat.Unsigned.of_to n) as Hof.
    destruct (Nat.to_uint n) eqn:Hd; try discriminate Hs.
    cbn in Hof. subst n. discriminate Hd.
  - eauto.
Qed.

Lemma digit_value_decimal (c : Z) :
  48 <= c <= 57 -> digit_value 10 c = Some (c - 48).
Proof.
  intros Hc. unfold digit_value.
  replace ((48 <=? c) && (c <=? 57)) with true by lia.
  replace (c - 48 <? 10) with true by lia. reflexivity.
Qed.

Lemma parse_decimal (n : nat) :
  parse_digits 10 (decimal n) None = Some (Z.of_nat n)
  /\ strip_sign (skip_white_space (decimal n)) = (1, decimal n)
  /\ strip_prefix (decimal n) = (10, decimal n).
Proof.
  pose proof (parse_uint_acc (Nat.to_uint n) 0) as Hacc.
  change (Nat.of_uint_acc (Nat.to_uint n) 0) with (Nat.of_uint (Nat.to_uint n)) in Hacc.
  rewrite DecimalNat.Unsigned.of_to in Hacc. fold (decimal n) in Hacc.
  destruct (decimal_cons n) as (c & rest & Heq & Hdigits).
  rewrite Heq in *.
  inversion Hdigits as [|? ? Hc Hrest]; subst.
  split; [|split].
  - cbn [parse_digits] in *. rewrite digit_value_decimal in * by exact Hc.
    exact Hacc.
  - cbn [skip_white_space]. unfold is_white_space.
    rewrite bool_decide_eq_false_2
      by (rewrite !elem_of_cons, elem_of_nil; lia).
    unfold strip_sign. rewrite !decide_False by lia. reflexivity.
  - unfold strip_prefix. destruct rest as [|x rest]; [reflexivity|].
    inversion Hrest; subst. rewrite decide_False by lia. reflexivity.
Qed.

(** Reading back the attribute of a card gives the id that was assigned. *)
Lemma parseInt_integer_toString (large : Z -> JSString) (x : Z) :
  Z.abs x <= 2 ^ 53 -> parseInt (integer_toString large x) = Some x.
Proof.
  intros Hsafe. unfold integer_toString.
  replace (Z.abs x <=? 2 ^ 53) with true by lia.
  destruct (parse_decimal (Z.abs_nat x)) as (Hparse & Hsign & Hprefix).
  unfold parseInt. destruct (x <? 0) eqn:Hneg.
  - change (skip_white_space (str "-" ++ decimal (Z.abs_nat x)))
      with (45 :: decimal (Z.abs_nat x)).
    cbn [strip_sign]. rewrite decide_True by reflexivity.
    rewrite Hprefix, Hparse. cbn [mbind option_bind]. unfold nearest_Number.
    rewrite Zabs2Nat.id_abs.
    replace (Z.abs (Z.abs x) <=? 2 ^ 53) with true by lia.
    cbn [mbind option_bind]. f_equal. lia.
  - cbn [app]. rewrite Hsign, Hprefix, Hparse. cbn [mbind option_bind].
    unfold nearest_Number. rewrite Zabs2Nat.id_abs.
    replace (Z.abs (Z.abs x) <=? 2 ^ 53) with true by lia.
    cbn [mbind option_bind]. f_equal. lia.
Qed.

(** X26.  uiManager.js, [createNoteCardElement] and the click listener of a
    card with [openEditor].  The id a card carries in its attribute is read
    back as the id of its note when that id is an integer of magnitude up
    to 2^53, as a clock reading is.  A click on the card then opens the
    first note of the list that has this id: it becomes the live note, the
    history is emptied, the editor is shown with one region for each
    toggle, each at the top, and the title field holds the escaped title,
    which is the title itself when it has no ampersand, no-break space or
    angle bracket. *)
Theorem cardClick_opens_note (large : Z -> JSString) (u : UI) (i : nat)
    (note : Note) :
  notes (world u) !! i = Some note ->
  (forall j other, notes (world u) !! j = Some other -> (j < i)%nat ->
     n_id other <> n_id note) ->
  Z.abs (n_id note) <= 2 ^ 53 ->
  let u' := cardClick large (createNoteCardElement note) u in
  parseInt (dataset_noteId large (createNoteCardElement note)) = Some (n_id note)
  /\ currentNote (world u') = Some note
  /\ HistoryManager.canUndo (history (world u')) = false
  /\ HistoryManager.canRedo (history (world u')) = false
  /\ textareas (world u') = fresh_regions (nextNode (world u)) (n_toggles note)
  /\ regions_mirror_toggles (world u')
  /\ notes (world u') = notes (world u)
  /\ editor_hidden u' = false
  /\ listView_hidden u' = true
  /\ noteTitle_value u' = escapeHtml (n_title note)
  /\ (Forall (fun c => c <> 38 /\ c <> 160 /\ c <> 60 /\ c <> 62) (n_title note) ->
      noteTitle_value u' = n_title note).
Proof.
  intros Hi Hfirst Hsafe. cbv zeta. unfold cardClick.
  assert (Hid : parseInt (dataset_noteId large (createNoteCardElement note))
                = Some (n_id note))
    by (apply parseInt_integer_toString; exact Hsafe).
  rewrite Hid. split; [reflexivity|].
  assert (Hfind : list_find (fun n => n_id n = n_id note) (notes (world u))
                  = Some (i, note)).
  { apply list_find_Some. split; [exact Hi|]. split; [reflexivity|].
    exact Hfirst. }
  rewrite Hfind.
  destruct (openEditor_effect note u) as (Hw & Hv & He & Hl & _).
  destruct (renderEditor_after_open (world u) note)
    as (Hn & Hh & Ht & _ & Hns & _).
  rewrite Hw, Hn, Hh, Ht, Hns, He, Hl, Hv.
  split; [reflexivity|]. split; [reflexivity|]. split; [reflexivity|].
  split; [reflexivity|]. split.
  { intros note' Hnote'. rewrite Hn in Hnote'. injection Hnote' as <-.
    rewrite Ht. apply fresh_regions_ids. }
  repeat split. apply escapeHtml_plain.
Qed.

Lemma loadStateFrame_world (savedState : SessionViewState) (u : UI) :
  textareas (world (loadStateFrame savedState u))
  = textareas (restore_states false (sv_toggleStates savedState) (world u))
  /\ editorContent (world (loadStateFrame savedState u))
     = (fun top =>
          if decide (sv_editorScrollTop savedState <> 0)
          then sv_editorScrollTop savedState else top)
       <$> editorContent (world u).
Proof.
  unfold loadStateFrame, on_world, ui_setTimeout.
  destruct (restore_states_effect false (sv_toggleStates savedState) (world u))
    as (tas & Heq & _).
  cbn [world set_world]. rewrite Heq. cbn [editorContent set_textareas].
  destruct (editorContent (world u)) as [top|] eqn:Hc.
  - destruct (decide (sv_editorScrollTop savedState <> 0));
      cbn; rewrite ?Hc; split; reflexivity.
  - cbn. rewrite Hc. split; reflexivity.
Qed.

(** X27.  uiManager.js, [closeEditor] and [openEditor] with
    [saveEditorStateToStorage] and [loadEditorStateFromStorage].  When the
    regions mirror the toggles of the open note and no two toggles have the
    same id, closing the editor and opening a note with the same id and the
    same toggle ids requests one frame callback, and that callback gives
    every region of the new render the offset its region had at the close
    and leaves the container where it was; this when the [setItem] call of
    the close stored the view state.  When that call raised, the callback
    requested is the one for the view state the storage held before, if it
    held one for the note, and none is requested otherwise. *)
Theorem close_then_open_restores_scroll (toLowerCase : JSString -> JSString)
    (u : UI) (note stored : Note) :
  currentNote (world u) = Some note ->
  regions_mirror_toggles (world u) ->
  NoDup (t_id <$> n_toggles note) ->
  n_id stored = n_id note ->
  t_id <$> n_toggles stored = t_id <$> n_toggles note ->
  let u1 := closeEditor toLowerCase u in
  let u2 := openEditor stored u1 in
  (accepting (localStorage (world u)) ->
   exists savedState,
     ui_frames u2 = ui_frames u ++ [LoadStateFrameCb savedState]
     /\ sv_timestamp savedState = clock (world u)
     /\ (forall i old, textareas (world u) !! i = Some old ->
           exists new,
             textareas (world (run_ui_callback (LoadStateFrameCb savedState) u2)) !! i
             = Some new
             /\ ta_toggleId new = ta_toggleId old
             /\ scrollTop new = scrollTop old)
     /\ editorContent (world (run_ui_callback (LoadStateFrameCb savedState) u2))
        = editorContent (world u))
  /\ (~ accepting (localStorage (world u)) ->
      ui_frames u2
      = ui_frames u
        ++ match load_states u !! n_id note with
           | Some savedState => [LoadStateFrameCb savedState]
           | None => []
           end).
Proof.
  intros Hnote Hmirror Hnd Hid Hids. cbv zeta.
  specialize (Hmirror note Hnote).
  destruct (closeEditor_effect toLowerCase u note Hnote)
    as (Hw1 & Hs1 & _ & Hf1 & _).
  set (u1 := closeEditor toLowerCase u) in *. clearbody u1.
  destruct (openEditor_effect stored u1) as (Hw2 & _ & _ & _ & Hs2 & _ & Hf2).
  destruct (renderEditor_after_open (world u1) stored)
    as (_ & _ & Ht2 & He2 & _).
  rewrite <- Hw2 in Ht2, He2.
  set (u2 := openEditor stored u1) in *. clearbody u2.
  split; [intros Haccepting; unfold accepting in Haccepting;
          rewrite Haccepting in Hs1
         |intros Hrefused%not_accepting; rewrite Hrefused in Hs1;
          rewrite Hf2, Hf1, Hid; unfold load_states; rewrite Hs1; reflexivity].
  set (savedState :=
         mkSessionViewState (toggle_states note (world u))
           (default 0 (editorContent (world u))) (lastActiveToggleId u)
           (clock (world u))).
  assert (Hload : load_states u1 !! n_id stored = Some savedState).
  { unfold load_states. rewrite Hs1, Hid. apply lookup_insert_eq. }
  rewrite Hload, Hf1 in Hf2.
  exists savedState. split; [exact Hf2|]. split; [reflexivity|].
  assert (He : editorContent (world u2) = editorContent (world u))
    by (rewrite He2, Hw1; reflexivity).
  assert (Hnd2 : NoDup (ta_toggleId <$> textareas (world u2)))
    by (rewrite Ht2, fresh_regions_ids, Hids; exact Hnd).
  destruct (restore_saved_regions false (world u2) (world u) note Hmirror Hnd Hnd2)
    as (tas & Heq & Hold & _).
  destruct (loadStateFrame_world savedState u2) as (Htas & Hcontainer).
  cbn [run_ui_callback]. rewrite Htas, Hcontainer, He.
  cbn [sv_toggleStates sv_editorScrollTop savedState]. rewrite Heq.
  cbn [textareas set_textareas].
  split.
  - intros i old Hi.
    assert (Htoggle : exists toggle, n_toggles stored !! i = Some toggle
                                     /\ t_id toggle = ta_toggleId old).
    { assert (Hl : (ta_toggleId <$> textareas (world u)) !! i
                   = Some (ta_toggleId old))
        by (rewrite list_lookup_fmap, Hi; reflexivity).
      rewrite Hmirror, <- Hids, list_lookup_fmap in Hl.
      destruct (n_toggles stored !! i) as [toggle|]; [|discriminate].
      injection Hl as Hl. eauto. }
    destruct Htoggle as (toggle & Ht & Htid).
    pose proof (fresh_regions_lookup (nextNode (world u1)) (n_toggles stored)
                  i toggle Ht) as Hfr.
    rewrite <- Ht2 in Hfr.
    specialize (Hold i _ i old Hfr Hi Htid).
    eexists. split; [exact Hold|]. split; [exact Htid | reflexivity].
  - destruct (editorContent (world u)) as [top|]; [|reflexivity].
    cbn. destruct (decide (top <> 0)); reflexivity.
Qed.



(** X29.  uiManager.js, [saveEditorStateToStorage] and [cleanupOldEditorStates].
    The view state written when the editor is closed carries the clock
    reading of the close; a cleanup run less than seven days later keeps the
    entry, a run seven days later or more removes it (both when no
    [setItem] call raises); and a cleanup never adds or changes an entry.
    (An entry written at clock reading 0 is always removed.) *)
Theorem view_state_kept_for_a_week (toLowerCase : JSString -> JSString)
    (u : UI) (note : Note) (elapsed : Z) :
  currentNote (world u) = Some note ->
  clock (world u) <> 0 ->
  let u1 := closeEditor toLowerCase u in
  let u2 :=
    cleanupOldEditorStates
      (on_world (fun w => set_clock (clock w + elapsed) w) u1) in
  (reliable (localStorage (world u)) ->
   (elapsed < 604800000 ->
      exists savedState,
        load_states u2 !! n_id note = Some savedState
        /\ sv_timestamp savedState = clock (world u)
        /\ sv_toggleStates savedState = toggle_states note (world u))
   /\ (604800000 <= elapsed -> load_states u2 !! n_id note = None))
  /\ (forall id savedState,
        load_states u2 !! id = Some savedState ->
        load_states u1 !! id = Some savedState).
Proof.
  intros Hnote Hclock. cbv zeta.
  destruct (closeEditor_effect toLowerCase u note Hnote) as (Hw1 & Hs1 & _).
  set (u1 := closeEditor toLowerCase u) in *. clearbody u1.
  unfold cleanupOldEditorStates, save_states, load_states, on_world.
  cbn [world set_world editorStates set_editorStates default].
  rewrite Hw1.
  cbn [default clock set_clock set_history set_currentNote localStorage
       set_localStorage called setItemCalls setItem_throws].
  split.
  - intros Hreliable. rewrite (Hreliable (S _)).
    cbn [world set_world editorStates set_editorStates].
    rewrite Hs1, (Hreliable _). cbn [default]. unfold id. split.
    + intros Hlt.
      exists (mkSessionViewState (toggle_states note (world u))
                (default 0 (editorContent (world u))) (lastActiveToggleId u)
                (clock (world u))).
      split; [|split; reflexivity].
      apply map_lookup_filter_Some. split; [apply lookup_insert_eq|].
      simpl. split; [exact Hclock | lia].
    + intros Hge. apply map_lookup_filter_None. right.
      intros savedState Hs. rewrite lookup_insert_eq in Hs. injection Hs as <-.
      simpl. lia.
  - destruct (setItem_throws (localStorage (world u))
                (S (setItemCalls (localStorage (world u)))));
      cbn [world set_world editorStates set_editorStates default];
      [auto|].
    unfold id. intros k savedState [Hs _]%map_lookup_filter_Some. exact Hs.
Qed.



End Editor.

(** ** The claims on the sample editor *)

(** The burst of C1 on the sample editor: the title is typed as a, then
    100 ms later as ab, and the commit timer fires 500 ms after that.  One
    entry is pushed, and it is the note titled a, not the note as it stood
    when the burst began; and two edits of a region's text push two entries
    at once. *)
Lemma burst_snapshot_not_pinned :
  let w' :=
    run (render_like 400) no_faults
      (burst [(str "a", 100%nat)] ++ EvTitleInput (str "ab") :: ticks 500)
      sample_world in
  let typed :=
    run (render_like 400) no_faults
      [EvTextareaInput 11 (str "abcd"); EvTextareaInput 11 (str "abcde")]
      sample_world in
  HistoryManager.undoStack (history w') = [set_n_title (str "a") sample_note]
  /\ HistoryManager.undoStack (history w') <> [sample_note]
  /\ length (HistoryManager.undoStack (history typed)) = 2%nat.
Proof.
  vm_compute. split; [reflexivity | split; [discriminate | reflexivity]].
Qed.

Lemma title_burst_one_commit_witness :
  let w' :=
    run (render_like 400) no_faults
      (burst [(str "a", 100%nat)] ++ EvTitleInput (str "ab") :: ticks 500)
      sample_world in
  n_title <$> currentNote w' = Some (str "ab")
  /\ (exists pushed,
        HistoryManager.undoStack (history w')
        = pushed ++ HistoryManager.undoStack (history sample_world)
        /\ (length pushed <= 1)%nat)
  /\ timers w' = [].
Proof.
  destruct (title_burst_one_commit (render_like 400) no_faults sample_world
              sample_note [(str "a", 100%nat)] (str "ab"))
    as (_ & Htitle & Hpushed & Htimers & _).
  - split; reflexivity.
  - reflexivity.
  - constructor; [simpl; lia | constructor].
  - exact (conj Htitle (conj Hpushed Htimers)).
Defined.

Lemma undo_redo_inverse_example :
  let A := set_n_title (str "A") sample_note in
  let B := set_n_title (str "B") sample_note in
  let h1 := HistoryManager.push A (HistoryManager.mk [] [] []) in
  let '(r2, h2) := HistoryManager.undo B h1 in
  let '(r3, h3) := HistoryManager.redo A h2 in
  r2 = Some A /\ HistoryManager.canRedo h2 = true /\ r3 = Some B
  /\ HistoryManager.undo B (HistoryManager.mk [] [] [])
     = (None, HistoryManager.mk [] [] []).
Proof. vm_compute. repeat split; reflexivity. Qed.

(** C3 on the sample editor.  Toggle 11 is clicked; the debounce fires 50 ms
    later and the reconciliation begins; the next frame runs pass 1, which
    arms pass 2 for 100 ms later; 34 ms after that frame toggle 11 is
    clicked again.  [toggleSection] clears [scrollRestoreTimeout], the only
    callback that would have released the guard.  When the second debounce
    fires the guard is held and the request is dropped, and from then on
    nothing is pending and the guard stays held whatever happens: no later
    request ever flips a toggle or renders. *)
Theorem guard_never_released :
  let w :=
    run (render_like 400) no_faults
      (EvToggleClick 11 :: ticks 50 ++ EvFrame :: ticks 34
         ++ EvToggleClick 11 :: ticks 50)
      sample_world in
  isRestoring w = true /\ timers w = [] /\ frames w = []
  /\ forall evs : list Event,
       let w' := run (render_like 400) no_faults evs w in
       isRestoring w' = true
       /\ open_flags w' = open_flags w
       /\ renders w' = renders w.
Proof.
  intros w.
  assert (Hw : isRestoring w = true /\ timers w = [] /\ frames w = [])
    by (vm_compute; auto).
  destruct Hw as (Hguard & Ht & Hf).
  split; [exact Hguard | split; [exact Ht | split; [exact Hf|]]].
  intros evs.
  destruct (stuck_forever (render_like 400) no_faults (open_flags w) (renders w)
              evs w) as (H1 & _ & H2 & H3).
  - split; [exact Hguard | split; [|split; reflexivity]].
    split; [rewrite Ht | rewrite Hf]; constructor.
  - cbv zeta. auto.
Qed.

(** The capture phase of C4 on the sample editor: the first region access of
    the capture loop raises.  The outer catch releases the guard and that is
    all: the regions stay scrolled to 30 and 100 and the container to 40. *)
Lemma capture_failure_not_reset :
  let w' :=
    _handleToggleSection (render_like 400) (fault_in PhCapture) 12 sample_world in
  scrollTop <$> textareas w' = [30; 100]
  /\ editorContent w' = Some 40
  /\ isRestoring w' = false
  /\ ~ Forall (fun ta => scrollTop ta = 0) (textareas w').
Proof.
  vm_compute. repeat split; try reflexivity.
  intros H. inversion H as [|? ? H0 _]. discriminate H0.
Qed.

Lemma restoration_failure_resets_witness :
  let throws : Phase -> nat -> bool := fun _ _ => true in
  let w1 := restoreFrame throws sample_closure sample_world in
  let w2 := finalCheck throws sample_closure sample_world in
  (scrollTop <$> textareas w1 = [0; 0] /\ editorContent w1 = Some 0
   /\ Forall (fun ta => scrollTop ta = 0) (textareas w1))
  /\ (scrollTop <$> textareas w2 = [0; 0] /\ editorContent w2 = Some 0
      /\ Forall (fun ta => scrollTop ta = 0) (textareas w2))
  /\ _handleToggleSection (render_like 400) throws 12 sample_world = sample_world.
Proof.
  destruct (restoration_failure_resets (render_like 400) (fun _ _ => true)
              sample_closure sample_world) as (H1 & H2 & H3).
  split; [|split].
  - destruct H1 as (Hz & _ & _).
    + exists 0%nat. split; [simpl; lia | reflexivity].
    + split; [reflexivity | split; [reflexivity | exact Hz]].
  - destruct H2 as (Hz & _ & _).
    + exists 0%nat. split; [simpl; lia | reflexivity].
    + split; [reflexivity | split; [reflexivity | exact Hz]].
  - apply (H3 12 sample_note); [reflexivity | reflexivity |].
    left. exists 0%nat. split; [simpl; lia | reflexivity].
Defined.

(** C5 on the sample editor, with the numbers of the specification: region
    12 is captured at scrollTop 100 of scrollHeight 200, the render lays it out
    400 high with the same text.  Pass 1 rescales the offset to 200; pass 2,
    100 ms later, finds the same hash and assigns the captured 100 verbatim. *)
Theorem rescale_overwritten_by_pass2 :
  let captured := capture_state (mkTextarea 1 12 (str "hello") 100 200) in
  let after_pass1 :=
    run (render_like 400) no_faults (EvToggleClick 11 :: ticks 50 ++ [EvFrame])
      sample_world in
  let after_pass2 := run (render_like 400) no_faults (ticks 100) after_pass1 in
  restored_scrollTop captured (mkTextarea 3 12 (str "hello") 0 400) = 200
  /\ snd <$> querySelector 12 after_pass1
     = Some (mkTextarea 3 12 (str "hello") 200 400)
  /\ snd <$> querySelector 12 after_pass2
     = Some (mkTextarea 3 12 (str "hello") 100 400)
  /\ isRestoring after_pass2 = false.
Proof. vm_compute. repeat split; reflexivity. Qed.

(** C6 on the sample editor.  Toggle 11 is clicked and closed, and once that
    reconciliation is over it is clicked again and opened.  Pass 1 of the
    second reconciliation finds the text of region 11 as it was captured
    (abc, scrolled to 0) and defers the write to the next frame.  Before
    that frame the user types: the region holds abcd, whose hash is not the
    captured one, and the browser has scrolled it to 120.  The frame
    assigns the captured 0 all the same. *)
Theorem deferred_write_ignores_hash :
  let before :=
    run (render_like 400) no_faults
      (EvToggleClick 11 :: ticks 50 ++ EvFrame :: ticks 100
         ++ EvToggleClick 11 :: ticks 50
         ++ [EvFrame; EvTextareaInput 11 (str "abcd"); EvLayout 4 120 400])
      sample_world in
  let after := step (render_like 400) no_faults before EvFrame in
  let captured := capture_state (mkTextarea 2 11 (str "abc") 0 400) in
  frames before = [TargetRestoreCb 4 captured]
  /\ textareas before !! 0%nat = Some (mkTextarea 4 11 (str "abcd") 120 400)
  /\ _hashContent (str "abcd") <> ss_contentHash captured
  /\ textareas after !! 0%nat = Some (mkTextarea 4 11 (str "abcd") 0 400).
Proof.
  vm_compute. repeat split; try reflexivity. discriminate.
Qed.

(** A region that goes stale between the passes, on the sample editor:
    toggle 11 is clicked and closed, pass 1 rescales region 12 to 200, and
    10 ms later the user types into region 12.  The closure of the pending
    pass 2 is [sample_closure]; region 12 is stale for it, and pass 2 leaves
    it at 200. *)
Lemma stale_region_untouched_witness :
  let w :=
    run (render_like 400) no_faults
      (EvToggleClick 11 :: ticks 50 ++ EvFrame :: ticks 10
         ++ [EvTextareaInput 12 (str "hello!")])
      sample_world in
  let ta := mkTextarea 3 12 (str "hello!") 200 400 in
  tm_callback <$> timers w = [FinalCheckCb sample_closure]
  /\ textareas w !! 1%nat = Some ta
  /\ stale sample_closure ta
  /\ textareas (restoreFrame no_faults sample_closure w) !! 1%nat = Some ta
  /\ textareas (finalCheck no_faults sample_closure w) !! 1%nat = Some ta
  /\ textareas (run (render_like 400) no_faults (ticks 90) w) !! 1%nat = Some ta.
Proof.
  intros w ta.
  assert (Hstale : stale sample_closure ta).
  { intros state [Hin|[Hid _]]; [|discriminate Hid].
    apply elem_of_cons in Hin as [Heq|Hin]; [discriminate Heq|].
    apply list_elem_of_singleton in Hin. injection Hin as ->.
    vm_compute. discriminate. }
  destruct (stale_region_untouched no_faults sample_closure w 1%nat ta)
    as (H1 & H2).
  - reflexivity.
  - exact Hstale.
  - change (NoDup [2%nat; 3%nat]).
    apply NoDup_cons. split; [|apply NoDup_singleton].
    intros Hin. apply list_elem_of_singleton in Hin. discriminate Hin.
  - split; [reflexivity|]. split; [reflexivity|]. split; [exact Hstale|].
    split; [|split].
    + apply H1. reflexivity.
    + apply H2. reflexivity.
    + reflexivity.
Defined.


(** Two overlapping requests on the sample editor: toggle 11 is clicked,
    its debounce fires and the reconciliation begins; toggle 12 is clicked
    at once, and its debounce is about to fire while pass 1 has not run yet.
    The callback changes nothing; after the frame and the 100 ms of pass 2
    the guard is free again, and one push, one render and one flip (of
    toggle 11) are all that happened. *)
Lemma reentrant_toggle_dropped_witness :
  let in_flight :=
    run (render_like 400) no_faults
      (EvToggleClick 11 :: ticks 50 ++ EvToggleClick 12 :: ticks 49)
      sample_world in
  let settled :=
    run (render_like 400) no_faults (EvTick :: EvFrame :: ticks 100) in_flight in
  isRestoring in_flight = true
  /\ run_callback (render_like 400) no_faults (ToggleDebounceCb 12) in_flight
     = in_flight
  /\ HistoryManager.undoStack (history settled) = [sample_note]
  /\ renders settled = 1%nat
  /\ open_flags settled = Some [false; true]
  /\ isRestoring settled = false.
Proof.
  split; [reflexivity|]. split.
  - apply (reentrant_toggle_dropped (render_like 400) no_faults 12). reflexivity.
  - vm_compute. repeat split; reflexivity.
Defined.

Lemma updateNote_unknown_id_witness :
  NoteManager.updateNote 7 (mkNote 99 (str "new") [] 5 5) [sample_note]
    empty_storage
  = (mkNote 99 (str "new") [] 5 7, [sample_note], empty_storage).
Proof.
  apply (updateNote_unknown_id 7 (mkNote 99 (str "new") [] 5 5)).
  intros n Hin. apply list_elem_of_singleton in Hin. subst n. discriminate.
Defined.

(** ** The further properties on the sample editor *)

Lemma createNote_fresh_note_witness :
  let '(note, notes', ls') :=
    NoteManager.createNote (fun _ => 1000) [sample_note] empty_storage in
  notes' = note :: [sample_note]
  /\ saved notes' empty_storage ls'
  /\ NoDup (t_id <$> n_toggles note)
  /\ t_isOpen <$> n_toggles note = [true; false; false]
  /\ t_title <$> n_toggles note
     = [str "Section 1"; str "Section 2"; str "Section 3"]
  /\ t_content <$> n_toggles note = [[]; []; []].
Proof.
  apply (createNote_fresh_note (fun _ => 1000) [sample_note] empty_storage).
  intros i j _. lia.
Defined.

Lemma deleteNote_unknown_id_still_saves_witness :
  let '(notes', ls') :=
    NoteManager.deleteNote 99 [sample_note] empty_storage in
  notes' = [sample_note]
  /\ setItemCalls ls' = 1%nat
  /\ (accepting empty_storage ->
      items ls' !! "app1_notes"%string = Some [sample_note])
  /\ (~ accepting empty_storage -> items ls' = items empty_storage).
Proof.
  apply (deleteNote_unknown_id_still_saves 99 [sample_note] empty_storage).
  intros n Hin. apply list_elem_of_singleton in Hin. subst n. discriminate.
Defined.

Lemma updateNote_known_id_witness :
  let '(note', notes', ls') :=
    NoteManager.updateNote 7 (mkNote 1 (str "new") [] 5 5) [sample_note]
      empty_storage in
  note' = mkNote 1 (str "new") [] 5 7
  /\ notes' !! 0%nat = Some note'
  /\ (forall j, j <> 0%nat -> notes' !! j = [sample_note] !! j)
  /\ n_id <$> notes' = [1]
  /\ saved notes' empty_storage ls'.
Proof.
  apply (updateNote_known_id 7 (mkNote 1 (str "new") [] 5 5) [sample_note]
           empty_storage 0).
  reflexivity.
Defined.

Lemma createNote_then_deleteNote_witness :
  let '(note, notes', ls') :=
    NoteManager.createNote (fun _ => 1000) [sample_note] empty_storage in
  fst (NoteManager.deleteNote (n_id note) notes' ls') = [sample_note]
  /\ saved [sample_note] ls' (snd (NoteManager.deleteNote (n_id note) notes' ls'))
  /\ setItemCalls ls' = 1%nat.
Proof.
  apply (createNote_then_deleteNote (fun _ => 1000) [sample_note] empty_storage).
  intros n Hin. apply list_elem_of_singleton in Hin. subst n. discriminate.
Defined.

(** The sample file in the list: a search for milk finds it. *)
Lemma getNotes_finds_witness :
  exists found,
    NoteImport.getNotes (fun s => s) (str "milk") [NoteImport.sample_file]
    = Some found
    /\ NoteImport.sample_file ∈ found.
Proof.
  destruct (getNotes_finds (fun s => s) (str "milk") [NoteImport.sample_file])
    as (found & Hfound & _ & Hin & _).
  - constructor; [|constructor].
    eexists _, _. split; [eexists; split; reflexivity|]. split; [reflexivity|].
    constructor; [|constructor].
    eexists _, _. split; eexists; split; reflexivity.
  - exists found. split; [exact Hfound|]. apply Hin. split; [left|].
    right. eexists _, _, (str "milk"). split; [reflexivity|].
    split; [left|]. split; [right; eexists; split; reflexivity|].
    exists [], []. reflexivity.
Defined.

(** A reconciliation on the sample editor, up to its first pass. *)
Lemma regions_follow_toggles_witness :
  regions_mirror_toggles
    (run (render_like 400) no_faults
       (EvToggleClick 11 :: ticks 50 ++ [EvFrame]) sample_world).
Proof.
  apply (regions_follow_toggles (render_like 400) no_faults).
  intros note [= <-]. reflexivity.
Defined.


Lemma toggle_edit_unknown_id_witness :
  updateToggleTitle 99 (str "x") sample_world = sample_world
  /\ updateToggleContent 99 (str "x") sample_world = sample_world.
Proof.
  apply (toggle_edit_unknown_id 99 (str "x") sample_world).
  intros note [= <-]. reflexivity.
Defined.

Lemma updateToggleTitle_commits_witness :
  let w' := updateToggleTitle 12 (str "Two") sample_world in
  currentNote w'
  = Some (mkNote 1 (str "")
            [ mkToggle 11 (str "Section 1") (str "abc") true;
              mkToggle 12 (str "Two") (str "hello") true ]
            0 0)
  /\ HistoryManager.undoStack (history w') = [sample_note]
  /\ timers w' = [].
Proof.
  destruct (updateToggleTitle_commits 12 (str "Two") sample_world sample_note 1
              (mkToggle 12 (str "Section 2") (str "hello") true)
              eq_refl eq_refl) as (Hnote & _ & Hundo & _ & Htimers & _).
  split; [exact Hnote|]. split; [exact Hundo | exact Htimers].
Defined.

(** The same title typed three times is three undo steps. *)
Lemma toggle_title_edits_not_coalesced_witness :
  length
    (HistoryManager.undoStack
       (history
          (fold_left (fun w v => updateToggleTitle 12 v w)
             [str "Section 2"; str "Section 2"; str "Section 2"] sample_world)))
  = 3%nat.
Proof.
  apply (toggle_title_edits_not_coalesced 12
           [str "Section 2"; str "Section 2"; str "Section 2"] sample_world
           sample_note 1 (mkToggle 12 (str "Section 2") (str "hello") true)).
  - reflexivity.
  - reflexivity.
Defined.

(** The sample file imported twice: the first import adds the note as it
    is, the second finds its id taken and adds a renamed copy.  With an
    object that has a toString property for a title, the second import adds
    nothing. *)
Lemma importSingleNote_adds_witness :
  let once :=
    NoteImport.importSingleNote (fun _ => []) 5000 (Some NoteImport.sample_file) [] in
  let twice :=
    NoteImport.importSingleNote (fun _ => []) 5000 (Some NoteImport.sample_file)
      (NoteImport.notes_after once) in
  let odd :=
    NoteImport.set_field (str "title")
      (NoteImport.JObject [(str "toString", NoteImport.JNumber 1)])
      (NoteImport.spread NoteImport.sample_file) in
  let refused :=
    NoteImport.importSingleNote (fun _ => []) 5000
      (Some (NoteImport.JObject odd)) (NoteImport.notes_after once) in
  NoteImport.notes_after once = [NoteImport.sample_file]
  /\ (exists added,
       NoteImport.notes_after twice
       = [NoteImport.JObject added; NoteImport.sample_file]
       /\ NoteImport.field (str "id") added = Some (NoteImport.JNumber 5000)
       /\ NoteImport.field (str "title") added
          = Some (NoteImport.JString (str "Shopping (Imported)"))
       /\ NoteImport.field (str "created") added
          = Some (NoteImport.JString (str "2024-01-01T00:00:00.000Z")))
  /\ NoteImport.result refused = false
  /\ NoteImport.notes_after refused = [NoteImport.sample_file].
Proof.
  assert (Hshape : NoteImport.note_shaped NoteImport.sample_file)
    by (apply validate_note_spec; reflexivity).
  split; [|split].
  - destruct (importSingleNote_adds (fun _ => []) 5000
                (NoteImport.spread NoteImport.sample_file) [] [] Hshape eq_refl)
      as [Hfresh _].
    exact (Hfresh eq_refl).
  - destruct (importSingleNote_adds (fun _ => []) 5000
                (NoteImport.spread NoteImport.sample_file)
                [NoteImport.sample_file] [Some (NoteImport.JNumber 1)]
                Hshape eq_refl)
      as (_ & Htaken & _ & Hconverts).
    destruct (Htaken eq_refl (Hconverts (str "Shopping") eq_refl))
      as (added & Hnotes & Hid & Htitle & Hother).
    exists added. split; [exact Hnotes|]. split; [exact Hid|]. split.
    + exact (Htitle (str "Shopping") eq_refl).
    + rewrite Hother; [reflexivity|]. compute_done.
  - destruct (importSingleNote_adds (fun _ => []) 5000
                (NoteImport.set_field (str "title")
                   (NoteImport.JObject [(str "toString", NoteImport.JNumber 1)])
                   (NoteImport.spread NoteImport.sample_file))
                [NoteImport.sample_file] [Some (NoteImport.JNumber 1)])
      as (_ & _ & Hraises & _).
    + apply validate_note_spec. reflexivity.
    + reflexivity.
    + apply (Hraises eq_refl). intros [title Hc]. discriminate Hc.
Defined.

(** A file of two notes merged into a list that holds the sample note: the
    first has a new id and enters the list; the second has the id of the
    sample note and an object with a toString property for a title, and the
    import ends there, with the first note in the list and nothing saved. *)
Lemma importAndMergeNotes_adds_all_witness :
  let other :=
    NoteImport.set_field (str "id") (NoteImport.JNumber 7)
      (NoteImport.spread NoteImport.sample_file) in
  let odd :=
    NoteImport.set_field (str "title")
      (NoteImport.JObject [(str "toString", NoteImport.JNumber 1)])
      (NoteImport.spread NoteImport.sample_file) in
  let o :=
    NoteImport.importAndMergeNotes (fun _ => []) (fun _ => 5000)
      (Some (NoteImport.JArray [NoteImport.JObject other; NoteImport.JObject odd]))
      [NoteImport.sample_file] in
  NoteImport.result o = false
  /\ NoteImport.notes_after o = [NoteImport.JObject other; NoteImport.sample_file]
  /\ NoteImport.written o = None.
Proof.
  cbv zeta.
  apply (proj1 (proj2 (proj2
           (importAndMergeNotes_adds_all (fun _ => []) (fun _ => 5000)
              (Some (NoteImport.JArray
                       [NoteImport.JObject
                          (NoteImport.set_field (str "id") (NoteImport.JNumber 7)
                             (NoteImport.spread NoteImport.sample_file));
                        NoteImport.JObject
                          (NoteImport.set_field (str "title")
                             (NoteImport.JObject [(str "toString", NoteImport.JNumber 1)])
                             (NoteImport.spread NoteImport.sample_file))]))
              [NoteImport.sample_file])))
           [NoteImport.JObject
              (NoteImport.set_field (str "id") (NoteImport.JNumber 7)
                 (NoteImport.spread NoteImport.sample_file))]
           (NoteImport.set_field (str "title")
              (NoteImport.JObject [(str "toString", NoteImport.JNumber 1)])
              (NoteImport.spread NoteImport.sample_file))
           [] [Some (NoteImport.JNumber 1)] eq_refl).
  - constructor; [|constructor; [|constructor]];
      apply validate_note_spec; reflexivity.
  - reflexivity.
  - constructor; [|constructor]. eexists. split; reflexivity.
  - reflexivity.
  - intros [title Hc]. discriminate Hc.
Defined.

(** The sample editor after an edit of region 12, undone: the note is the
    sample note again and its two regions are rendered anew. *)
Lemma undo_redo_install_state_witness :
  let u := on_world (updateToggleContent 12 (str "bye")) sample_ui in
  let u' := handleUndo (render_like 400) u in
  currentNote (world u') = Some sample_note
  /\ ta_toggleId <$> textareas (world u') = [11; 12]
  /\ ui_frames u' = [RestoreStateFrameCb].
Proof.
  cbv zeta.
  set (u := on_world (updateToggleContent 12 (str "bye")) sample_ui).
  destruct (undo_redo_install_state (render_like 400) u
              (mkNote 1 (str "")
                 [ mkToggle 11 (str "Section 1") (str "abc") true;
                   mkToggle 12 (str "Section 2") (str "bye") true ] 0 0)
              sample_note
              (snd (HistoryManager.undo
                      (mkNote 1 (str "")
                         [ mkToggle 11 (str "Section 1") (str "abc") true;
                           mkToggle 12 (str "Section 2") (str "bye") true ] 0 0)
                      (history (world u))))
              eq_refl (handleUndo (render_like 400) u)
              (or_introl (conj eq_refl eq_refl)))
    as (Hnote & _ & Hregions & _ & _ & _ & Hframes).
  split; [exact Hnote|]. split; [|exact Hframes].
  rewrite Hregions. reflexivity.
Defined.

Lemma edit_undo_redo_witness :
  let u1 := on_world (updateToggleContent 12 (str "bye")) sample_ui in
  let u2 := handleUndo (render_like 400) u1 in
  let u3 := handleRedo (render_like 400) u2 in
  currentNote (world u2) = Some sample_note
  /\ currentNote (world u3) = currentNote (world u1)
  /\ n_toggles <$> currentNote (world u3)
     = Some [ mkToggle 11 (str "Section 1") (str "abc") true;
              mkToggle 12 (str "Section 2") (str "bye") true ]
  /\ HistoryManager.undoStack (history (world u2)) = []
  /\ HistoryManager.canRedo (history (world u2)) = true
  /\ HistoryManager.canRedo (history (world u3)) = false.
Proof.
  exact (edit_undo_redo (render_like 400) sample_ui sample_note 12 1
           (mkToggle 12 (str "Section 2") (str "hello") true) (str "bye")
           eq_refl eq_refl).
Defined.

Lemma addNewToggle_appends_witness :
  let u' := addNewToggle (render_like 400) sample_ui in
  n_toggles <$> currentNote (world u')
  = Some [ mkToggle 11 (str "Section 1") (str "abc") true;
           mkToggle 12 (str "Section 2") (str "hello") true;
           mkToggle 0 (str "Section 3") [] true ]
  /\ HistoryManager.undoStack (history (world u')) = [sample_note]
  /\ currentNote (world (handleUndo (render_like 400) u')) = Some sample_note.
Proof.
  destruct (addNewToggle_appends (render_like 400) sample_ui sample_note eq_refl)
    as (Hnote & Hundo & _ & Hback).
  split; [rewrite Hnote; reflexivity|]. split; [exact Hundo | exact Hback].
Defined.

(** Region 12 of the sample editor, scrolled to 100, is at 100 again in the
    frame after a toggle was added; the container is at 40. *)
Lemma addNewToggle_keeps_scroll_witness :
  let u2 :=
    run_ui_callback RestoreStateFrameCb (addNewToggle (render_like 400) sample_ui) in
  (exists new,
     textareas (world u2) !! 1%nat = Some new
     /\ ta_toggleId new = 12 /\ scrollTop new = 100)
  /\ editorContent (world u2) = Some 40.
Proof.
  destruct (addNewToggle_keeps_scroll (render_like 400) sample_ui sample_note)
    as (_ & Hold & _ & Hcontainer).
  - reflexivity.
  - intros note [= <-]. reflexivity.
  - compute_done.
  - compute_done.
  - split; [|exact Hcontainer].
    exact (Hold 1%nat (mkTextarea 1 12 (str "hello") 100 200) eq_refl).
Defined.

(** A click on the card of the sample note.  And a list that holds a note
    with the id 10^21 before the sample note: the attribute of its card
    reads 1e+21, which is read back as 1, and a click on it opens the sample
    note. *)
Lemma cardClick_opens_note_witness :
  let u' :=
    cardClick (render_like 400) (fun _ => []) (createNoteCardElement sample_note)
      sample_ui in
  let big := mkNote (10 ^ 21) (str "big") [] 0 0 in
  let u2 :=
    cardClick (render_like 400) (fun _ => str "1e+21") (createNoteCardElement big)
      (on_world (set_notes [big; sample_note]) sample_ui) in
  dataset_noteId (fun _ => []) (createNoteCardElement sample_note) = str "1"
  /\ currentNote (world u') = Some sample_note
  /\ HistoryManager.canUndo (history (world u')) = false
  /\ scrollTop <$> textareas (world u') = [0; 0]
  /\ editor_hidden u' = false
  /\ currentNote (world u2) = Some sample_note.
Proof.
  destruct (cardClick_opens_note (render_like 400) (fun _ => []) sample_ui 0
              sample_note)
    as (_ & Hnote & Hundo & _ & Hregions & _ & _ & Hshown & _).
  - reflexivity.
  - intros j other _ Hlt. lia.
  - vm_compute. discriminate.
  - split; [reflexivity|]. split; [exact Hnote|]. split; [exact Hundo|].
    split; [exact (f_equal (fmap scrollTop) Hregions)|].
    split; [exact Hshown | reflexivity].
Defined.

(** The sample editor closed and opened again: region 12 is back at 100. *)
Lemma close_then_open_restores_scroll_witness :
  let u2 :=
    openEditor (render_like 400) sample_note (closeEditor (fun s => s) sample_ui) in
  exists savedState,
    ui_frames u2 = [LoadStateFrameCb savedState]
    /\ exists new,
         textareas (world (run_ui_callback (LoadStateFrameCb savedState) u2)) !! 1%nat
         = Some new
         /\ ta_toggleId new = 12 /\ scrollTop new = 100.
Proof.
  destruct (close_then_open_restores_scroll (render_like 400) (fun s => s)
              sample_ui sample_note sample_note)
    as [Hstored _].
  - reflexivity.
  - intros note [= <-]. reflexivity.
  - compute_done.
  - reflexivity.
  - reflexivity.
  - destruct (Hstored eq_refl) as (savedState & Hframes & _ & Hold & _).
    exists savedState. split; [exact Hframes|].
    exact (Hold 1%nat (mkTextarea 1 12 (str "hello") 100 200) eq_refl).
Defined.


(** The sample editor closed at clock reading 1000: a cleanup a day later
    keeps its view state, a cleanup eight days later removes it. *)
Lemma view_state_kept_for_a_week_witness :
  let u1 := closeEditor (fun s => s) (on_world (set_clock 1000) sample_ui) in
  let later (elapsed : Z) :=
    cleanupOldEditorStates
      (on_world (fun w => set_clock (clock w + elapsed) w) u1) in
  is_Some (load_states (later 86400000) !! 1)
  /\ load_states (later 691200000) !! 1 = None.
Proof.
  cbv zeta. split.
  - destruct (view_state_kept_for_a_week (fun s => s)
                (on_world (set_clock 1000) sample_ui) sample_note 86400000
                eq_refl ltac:(discriminate))
      as (Hwhen & _).
    destruct (Hwhen (fun k => eq_refl)) as (Hkept & _).
    destruct (Hkept ltac:(lia)) as (savedState & Hload & _).
    exists savedState. exact Hload.
  - destruct (view_state_kept_for_a_week (fun s => s)
                (on_world (set_clock 1000) sample_ui) sample_note 691200000
                eq_refl ltac:(discriminate))
      as (Hwhen & _).
    destruct (Hwhen (fun k => eq_refl)) as (_ & Hgone).
    exact (Hgone ltac:(lia)).
Defined.

